(** * BLPInterface: a shallow embedding of [blp.py]

    [blp.py] wraps the Bloomberg request/response API ([blpapi]) and hands
    its answers back as pandas tables.  The embedding follows the file from
    top to bottom: Python values, the [blpapi] element trees and events the
    code reads, the pandas operations it calls, the connection object with
    [open]/[close], then [sendRequest] and the three request functions.

    The two libraries are not part of the repository; only the operations
    [blp.py] calls are modelled, each with the behaviour the library
    documents for it. *)

From Stdlib Require Import ZArith QArith Ascii String Lia.
From stdpp Require Import base strings list gmap fin_maps sorting.

Close Scope Q_scope.
Close Scope Z_scope.
Open Scope nat_scope.

(** ** Python values *)

(** [datetime.datetime]: the code only builds them ([datetime(2014, 12, 31)])
    and formats them; the time zone is never read. *)
Record datetime : Type := mkDatetime {
  year : nat; month : nat; day : nat;
  hour : nat; minute : nat; second : nat; microsecond : nat
}.

Definition is_leap (y : nat) : bool :=
  ((y mod 4 =? 0) && negb (y mod 100 =? 0)) || (y mod 400 =? 0).

Definition days_in_month (y m : nat) : nat :=
  match m with
  | 2 => if is_leap y then 29 else 28
  | 4 | 6 | 9 | 11 => 30
  | _ => 31
  end.

(** The range checks of the [datetime] constructor (MINYEAR = 1,
    MAXYEAR = 9999). *)
Definition valid_datetime (d : datetime) : bool :=
  (1 <=? year d) && (year d <? 10 * 1000) &&
  (1 <=? month d) && (month d <=? 12) &&
  (1 <=? day d) && (day d <=? days_in_month (year d) (month d)) &&
  (hour d <? 24) && (minute d <? 60) && (second d <? 60) &&
  (microsecond d <? 1000 * 1000).

(** [datetime.date]: a calendar day without a time of day.  It is the base
    class of [datetime.datetime], not an instance of it. *)
Record date : Type := mkDate {
  date_year : nat; date_month : nat; date_day : nat
}.

(** The values that travel through the wrapper: option values given by the
    caller, and the leaves of the response trees.  [VInt] is a Python
    [int] (those [blpapi] hands out have at most 64 bits); [VFloat] holds
    the exact value of the double; [VNaN] is [numpy.nan].  [VDatetime] is a
    [datetime.datetime]; [VDate] is a [datetime.date], and [VDatetimeSub]
    an instance of a proper subclass of [datetime.datetime]: the test
    [type(v) == datetime] of [sendRequest] tells both apart from a
    [datetime].  What a table holds of a datetime is written [VDatetime]
    whatever class pandas keeps it in: the wrapper never looks at a value
    once it is in a table. *)
Inductive Value : Type :=
| VStr (s : string)
| VInt (z : Z)
| VFloat (q : Q)
| VBool (b : bool)
| VDatetime (d : datetime)
| VDate (d : date)
| VDatetimeSub (d : datetime)
| VNaN.

#[global] Instance datetime_eq_dec : EqDecision datetime.
Proof. solve_decision. Defined.

#[global] Instance date_eq_dec : EqDecision date.
Proof. solve_decision. Defined.

#[global] Instance Q_eq_dec : EqDecision Q.
Proof. solve_decision. Defined.

#[global] Instance Value_eq_dec : EqDecision Value.
Proof. solve_decision. Defined.

(** ** [strftime('%Y%m%d')] *)

Definition digit_char (n : nat) : ascii := ascii_of_nat (48 + n mod 10).

(** [%m] and [%d] are zero-filled to two digits. *)
Definition pad2 (n : nat) : string :=
  String (digit_char (n / 10)) (String (digit_char n) EmptyString).

Definition pad4 (n : nat) : string :=
  String (digit_char (n / 1000)) (String (digit_char (n / 100))
    (String (digit_char (n / 10)) (String (digit_char n) EmptyString))).

(** [%Y] is the year with century in decimal, as the C library prints a
    number: four digits from the year 1000 on, fewer below (the year of a
    [datetime] lies between 1 and 9999). *)
Definition year_text (y : nat) : string :=
  if y <? 10 then String (digit_char y) EmptyString
  else if y <? 100 then pad2 y
  else if y <? 1000 then String (digit_char (y / 100)) (pad2 y)
  else pad4 y.

Definition strftime_Ymd (d : datetime) : string :=
  year_text (year d) +:+ pad2 (month d) +:+ pad2 (day d).

(** Reading the eight-digit form back, as [strptime(s, '%Y%m%d')] reads
    it: four digits of year, two of month, two of day.  The wrapper itself
    never parses; this is the inverse the round trip is measured
    against. *)
Definition digit_val (c : ascii) : option nat :=
  let n := nat_of_ascii c in
  if (48 <=? n) && (n <=? 57) then Some (n - 48) else None.

Fixpoint digits_val (s : string) : option (list nat) :=
  match s with
  | EmptyString => Some []
  | String c s' =>
      match digit_val c, digits_val s' with
      | Some d, Some ds => Some (d :: ds)
      | _, _ => None
      end
  end.

Definition strptime_Ymd (s : string) : option (nat * nat * nat) :=
  match digits_val s with
  | Some [y3; y2; y1; y0; m1; m0; d1; d0] =>
      Some (((y3 * 10 + y2) * 10 + y1) * 10 + y0, m1 * 10 + m0, d1 * 10 + d0)
  | _ => None
  end.

Definition is_digit (c : ascii) : bool :=
  match digit_val c with Some _ => true | None => false end.

Fixpoint all_digits (s : string) : bool :=
  match s with
  | EmptyString => true
  | String c s' => is_digit c && all_digits s'
  end.

(** ** [blpapi] elements, messages and events *)

(** An element of a response tree.  [blpapi] distinguishes a leaf holding a
    value, a sequence of named sub-elements and an array of values; the
    same name ([securityData]) is a sequence in a history response and an
    array of sequences in a reference response, which is why
    [historicalRequest] reads it with [getElement] and [referenceRequest]
    with [numValues]/[getValueAsElement]. *)
#[warnings="-register-all"]
Inductive Element : Type :=
| Scalar (nm : string) (v : Value)
| Sequence (nm : string) (elems : list Element)
| Array (nm : string) (vals : list Element).

Definition name (e : Element) : string :=
  match e with
  | Scalar nm _ | Sequence nm _ | Array nm _ => nm
  end.

(** What the wrapper can raise: its own [RequestError], or an exception of
    Python or of one of the two libraries (a missing attribute, an element
    that is not there), kept by its name only. *)
Inductive Exn : Type :=
| RequestError (value : Element) (description : string)
| OtherError (what : string).

(** The outcome of a call: it returns, it raises, or it never comes back
    (the polling loop of [sendRequest] has no deadline). *)
Inductive Outcome (A : Type) : Type :=
| Returned (a : A)
| Raised (e : Exn)
| Diverges.
Arguments Returned {A} a.
Arguments Raised {A} e.
Arguments Diverges {A}.

#[global] Instance Outcome_ret : MRet Outcome := @Returned.
#[global] Instance Outcome_bind : MBind Outcome := fun A B f m =>
  match m with
  | Returned a => f a
  | Raised e => Raised e
  | Diverges => Diverges
  end.

(** [for x in xs: acc = body(acc, x)] where the body may raise. *)
Fixpoint for_each {A B : Type} (body : B -> A -> Outcome B) (acc : B)
    (xs : list A) : Outcome B :=
  match xs with
  | [] => Returned acc
  | x :: xs' => acc' ← body acc x; for_each body acc' xs'
  end.

(** [[f(i) for i in range(n)]] where [f] may raise. *)
Fixpoint collect {A : Type} (f : nat -> Outcome A) (start n : nat)
    : Outcome (list A) :=
  match n with
  | O => Returned []
  | S n' => x ← f start; xs ← collect f (S start) n'; Returned (x :: xs)
  end.

Definition find_element (n : string) (es : list Element) : option Element :=
  snd <$> list_find (fun e => name e = n) es.

(** [Element.hasElement(name)]: true when the element is a sequence that
    holds a sub-element of that name; an array or a leaf holds none. *)
Definition hasElement (e : Element) (n : string) : bool :=
  match e with
  | Sequence _ es => bool_decide (is_Some (find_element n es))
  | _ => false
  end.

(** [Element.getElement(name)]; raises when there is no such sub-element. *)
Definition getElement (e : Element) (n : string) : Outcome Element :=
  match e with
  | Sequence _ es =>
      match find_element n es with
      | Some x => Returned x
      | None => Raised (OtherError "NotFoundException")
      end
  | _ => Raised (OtherError "NotFoundException")
  end.

(** [Element.numElements()] and [Element.getElement(i)] by position. *)
Definition numElements (e : Element) : nat :=
  match e with
  | Sequence _ es => length es
  | _ => 0
  end.

Definition getElementAt (e : Element) (i : nat) : Outcome Element :=
  match e with
  | Sequence _ es =>
      match es !! i with
      | Some x => Returned x
      | None => Raised (OtherError "IndexOutOfRangeException")
      end
  | _ => Raised (OtherError "IndexOutOfRangeException")
  end.

(** [Element.numValues()] and [Element.getValueAsElement(i)]: the entries of
    an array; an element that is not an array is its own single value. *)
Definition numValues (e : Element) : nat :=
  match e with
  | Array _ vs => length vs
  | _ => 1
  end.

Definition getValueAsElement (e : Element) (i : nat) : Outcome Element :=
  match e with
  | Array _ vs =>
      match vs !! i with
      | Some x => Returned x
      | None => Raised (OtherError "IndexOutOfRangeException")
      end
  | _ =>
      match i with
      | O => Returned e
      | _ => Raised (OtherError "IndexOutOfRangeException")
      end
  end.

(** [Element.getValue()]: the value of a leaf (of the first entry, for an
    array of leaves); a sequence has no value. *)
Definition getValue (e : Element) : Outcome Value :=
  match e with
  | Scalar _ v => Returned v
  | Array _ (Scalar _ v :: _) => Returned v
  | Array _ [] => Raised (OtherError "IndexOutOfRangeException")
  | _ => Raised (OtherError "InvalidConversionException")
  end.

Definition getElementAsString (e : Element) (n : string) : Outcome string :=
  x ← getElement e n;
  v ← getValue x;
  match v with
  | VStr s => Returned s
  | _ => Raised (OtherError "InvalidConversionException")
  end.

Definition getElementAsDatetime (e : Element) (n : string)
    : Outcome datetime :=
  x ← getElement e n;
  v ← getValue x;
  match v with
  | VDatetime d => Returned d
  | _ => Raised (OtherError "InvalidConversionException")
  end.

(** [[e.getElement(i) for i in range(e.numElements())]] and
    [[e.getValueAsElement(i) for i in range(e.numValues())]]. *)
Definition elements_of (e : Element) : Outcome (list Element) :=
  collect (getElementAt e) 0 (numElements e).

Definition values_of (e : Element) : Outcome (list Element) :=
  collect (getValueAsElement e) 0 (numValues e).

(** A message is a typed element tree; [msg.hasElement] and
    [msg.getElement] read its top level. *)
Record Message : Type := mkMessage {
  messageType : string;
  asElement : Element
}.

Inductive EventType : Type :=
| ADMIN | SESSION_STATUS | SUBSCRIPTION_STATUS | REQUEST_STATUS
| RESPONSE | PARTIAL_RESPONSE | SUBSCRIPTION_DATA | SERVICE_STATUS
| TIMEOUT | AUTHORIZATION_STATUS | RESOLUTION_STATUS | TOPIC_STATUS
| TOKEN_STATUS | REQUEST | UNKNOWN.

#[global] Instance EventType_eq_dec : EqDecision EventType.
Proof. solve_decision. Defined.

Record Event : Type := mkEvent {
  eventType : EventType;
  messages : list Message
}.

(** ** The call arguments and the outgoing request *)

(** [securities] and [fields] are given either as one [str] or as a
    collection of them; the request functions test [type(x) == str]. *)
Inductive Arg : Type :=
| Str (s : string)
| Seq (xs : list string).

Definition is_str (a : Arg) : bool :=
  match a with Str _ => true | Seq _ => false end.

(** [if type(x) == str: x = [x]]. *)
Definition promote (a : Arg) : list string :=
  match a with Str s => [s] | Seq xs => xs end.

(** A [blpapi] request: the operation it was created for, the two
    list-valued elements the wrapper appends to, and the elements it sets. *)
Record Request : Type := mkRequest {
  operation : string;
  req_securities : list string;
  req_fields : list string;
  req_options : gmap string Value
}.

Definition createRequest (op : string) : Request := mkRequest op [] [] ∅.

Definition append_security (r : Request) (s : string) : Request :=
  mkRequest (operation r) (req_securities r ++ [s]) (req_fields r)
    (req_options r).

Definition append_field (r : Request) (f : string) : Request :=
  mkRequest (operation r) (req_securities r) (req_fields r ++ [f])
    (req_options r).

(** [request.set(k, v)]. *)
Definition request_set (k : string) (v : Value) (r : Request) : Request :=
  mkRequest (operation r) (req_securities r) (req_fields r)
    (<[k := v]> (req_options r)).

(** [if type(v) == datetime: v = v.strftime('%Y%m%d')]: the test is on the
    exact type, so a [date] or an instance of a subclass is not touched. *)
Definition serialize (v : Value) : Value :=
  match v with
  | VDatetime d => VStr (strftime_Ymd d)
  | _ => v
  end.

(** The construction part of [sendRequest], up to [session.sendRequest].
    A dict has one value per key, so the order in which [elements.items()]
    is walked does not show in the request that results. *)
Definition build_request (requestType : string) (securities fields : Arg)
    (elements : gmap string Value) : Request :=
  let request := createRequest (requestType +:+ "Request") in
  let request := foldl append_security request (promote securities) in
  let request := foldl append_field request (promote fields) in
  map_fold (fun k v request => request_set k (serialize v) request)
    request elements.

(** [d.update(other)]: the entries of [other] win. *)
Definition update (d other : gmap string Value) : gmap string Value :=
  other ∪ d.

(** The dict literal at the head of [historicalRequest]. *)
Definition defaults (startDate endDate : Value) : gmap string Value :=
  list_to_map
    [("startDate", startDate);
     ("endDate", endDate);
     ("periodicityAdjustment", VStr "ACTUAL");
     ("periodicitySelection", VStr "DAILY");
     ("nonTradingDayFillOption", VStr "ACTIVE_DAYS_ONLY");
     ("adjustmentNormal", VBool false);
     ("adjustmentAbnormal", VBool false);
     ("adjustmentSplit", VBool true);
     ("adjustmentFollowDPDF", VBool false)].

(** ** The pandas operations the wrapper calls *)

Module pd.

(** A label is a tuple with one entry per level of its axis; a flat axis
    has one level. *)
Definition Label : Type := list Value.

(** [Index] and [MultiIndex]: the names of the levels and the labels in
    axis order. *)
Record Index : Type := mkIndex {
  names : list (option string);
  labels : list Label
}.

Definition flat_index (nm : option string) (ls : list Value) : Index :=
  mkIndex [nm] ((fun v => [v]) <$> ls).

Definition nlevels (ix : Index) : nat := length (names ix).

(** [ix.name = nm]. *)
Definition set_name (nm : string) (ix : Index) : Index :=
  mkIndex (Some nm :: tail (names ix)) (labels ix).

(** A table: the two axes and the cells row by row, [VNaN] where nothing
    was stored. *)
Record DataFrame : Type := mkDataFrame {
  index : Index;
  columns : Index;
  values : list (list Value)
}.

(** *** Columns and their dtype

    The cells of a column share a dtype.  A column of floats (NaN is one)
    is [float64], and a number that enters it is held as a float; a column
    that holds a string, a bool or a date has dtype [object] and holds
    every value as it came. *)

Definition is_float (v : Value) : bool :=
  match v with VFloat _ | VNaN => true | _ => false end.

Definition is_number (v : Value) : bool :=
  match v with VInt _ | VFloat _ | VNaN => true | _ => false end.

(** The float64 nearest to an integer, ties going to the even significand:
    an integer of up to 53 bits is its own float64, a longer one loses its
    low bits. *)
Definition float64_of_int (z : Z) : Q :=
  let a := Z.abs z in
  let drop := (Z.log2 a - 52)%Z in
  if (drop <=? 0)%Z then inject_Z z
  else
    let unit := (2 ^ drop)%Z in
    let q := (a / unit)%Z in
    let r := (a mod unit)%Z in
    let half := (unit / 2)%Z in
    let up := (half <? r)%Z || ((r =? half)%Z && Z.odd q) in
    inject_Z (Z.sgn z * ((if up then q + 1 else q) * unit))%Z.

Definition as_float64 (v : Value) : Value :=
  match v with
  | VInt z => VFloat (float64_of_int z)
  | _ => v
  end.

(** The cells of column [j], top down. *)
Definition column (vals : list (list Value)) (j : nat) : list Value :=
  (fun row => default VNaN (row !! j)) <$> vals.

(** What a column holds of a value assigned to one of its cells. *)
Definition held (col : list Value) (v : Value) : Value :=
  if forallb is_float col then as_float64 v else v.

(** The dtype a column takes when frames or rows are put together: numbers
    that are not all ints make a [float64] column, in which the ints are
    held as floats; all ints stay ints, and a column with any other value
    is [object]. *)
Definition float_column (col : list Value) : bool :=
  forallb is_number col && existsb is_float col.

Definition upcast (vals : list (list Value)) : list (list Value) :=
  (fun row =>
     imap (fun j v => if float_column (column vals j) then as_float64 v
                      else v) row) <$> vals.

(** [DataFrame()]. *)
Definition DataFrame_new : DataFrame :=
  mkDataFrame (flat_index None []) (flat_index None []) [].

Definition nrows (df : DataFrame) : nat := length (labels (index df)).
Definition ncols (df : DataFrame) : nat := length (labels (columns df)).

(** [df.empty]: some axis has length 0. *)
Definition empty (df : DataFrame) : bool := (nrows df =? 0) || (ncols df =? 0).

Definition pos (l : Label) (ls : list Label) : option nat :=
  fst <$> list_find (fun x => x = l) ls.

(** [df.ix[r, c] = v] with labels that are not integers: the cell is
    overwritten when both labels exist; a label that is new is added at
    the end of its axis, the cells it brings being NaN, so that a new
    column starts as [float64].  The value then goes into its column as
    the column holds it. *)
Definition ix_set (df : DataFrame) (r c : Value) (v : Value) : DataFrame :=
  let rows := labels (index df) in
  let cols := labels (columns df) in
  let '(i, rows1, vals1) :=
    match pos [r] rows with
    | Some i => (i, rows, values df)
    | None =>
        (length rows, rows ++ [[r]],
         values df ++ [replicate (length cols) VNaN])
    end in
  let '(j, cols1, vals2) :=
    match pos [c] cols with
    | Some j => (j, cols, vals1)
    | None =>
        (length cols, cols ++ [[c]], (fun row => row ++ [VNaN]) <$> vals1)
    end in
  mkDataFrame (mkIndex (names (index df)) rows1)
    (mkIndex (names (columns df)) cols1)
    (alter (fun row => <[j := held (column vals2 j) v]> row) i vals2).

(** [pd.to_datetime(ix)]: the labels the wrapper stores are datetimes
    already, which the conversion leaves as they are. *)
Definition to_datetime (ix : Index) : Index := ix.

(** [df.index = ix]. *)
Definition set_index_obj (df : DataFrame) (ix : Index) : DataFrame :=
  mkDataFrame ix (columns df) (values df).

(** [df.replace(old, new, inplace=True)]: on the cells. *)
Definition replace (old new : Value) (df : DataFrame) : DataFrame :=
  mkDataFrame (index df) (columns df)
    (fmap (M := list) (fun x => if decide (x = old) then new else x)
       <$> values df).

Definition set_index_name (nm : string) (df : DataFrame) : DataFrame :=
  mkDataFrame (set_name nm (index df)) (columns df) (values df).

Definition set_columns_name (nm : string) (df : DataFrame) : DataFrame :=
  mkDataFrame (index df) (set_name nm (columns df)) (values df).

(** [df.iloc[i, j]]. *)
Definition iloc (df : DataFrame) (i j : nat) : Outcome Value :=
  match values df !! i ≫= (fun row => row !! j) with
  | Some v => Returned v
  | None => Raised (OtherError "IndexError")
  end.

(** *** Joining axes *)

(** The order [sorted] puts values in: by kind first (as Python 2 does for
    values of different types), then the order of the kind. *)
Definition kind_rank (v : Value) : nat :=
  match v with
  | VNaN => 0
  | VBool _ | VInt _ | VFloat _ => 1
  | VDatetime _ | VDate _ | VDatetimeSub _ => 2
  | VStr _ => 3
  end.

Definition num_of (v : Value) : Q :=
  match v with
  | VInt z => inject_Z z
  | VFloat q => q
  | VBool true => inject_Z 1
  | _ => inject_Z 0
  end.

Fixpoint lex_leb (a b : list nat) : bool :=
  match a, b with
  | [], _ => true
  | _ :: _, [] => false
  | x :: a', y :: b' => (x <? y) || ((x =? y) && lex_leb a' b')
  end.

Definition datetime_key (d : datetime) : list nat :=
  [year d; month d; day d; hour d; minute d; second d; microsecond d].

Definition datetime_leb (x y : datetime) : bool :=
  lex_leb (datetime_key x) (datetime_key y).

Definition datetime_ltb (x y : datetime) : bool :=
  datetime_leb x y && negb (datetime_leb y x).

Definition value_leb (a b : Value) : bool :=
  match a, b with
  | VStr x, VStr y => String.leb x y
  | VDatetime x, VDatetime y => datetime_leb x y
  | _, _ =>
      if kind_rank a =? kind_rank b then Qle_bool (num_of a) (num_of b)
      else kind_rank a <? kind_rank b
  end.

Fixpoint label_leb (a b : Label) : bool :=
  match a, b with
  | [], _ => true
  | _ :: _, [] => false
  | x :: a', y :: b' =>
      if decide (x = y) then label_leb a' b' else value_leb x y
  end.

(** The union of two axes as [Index.union] forms it: an axis joined with
    an empty one or with an equal one comes back as it is; otherwise the
    distinct labels of both, sorted. *)
Definition union2 (a b : list Label) : list Label :=
  if decide (b = [] ∨ a = b) then a
  else if decide (a = []) then b
  else merge_sort (fun x y => label_leb x y) (remove_dups (a ++ b)).

Definition union_all (axes : list (list Label)) : list Label :=
  match axes with
  | [] => []
  | a :: rest => foldl union2 a rest
  end.

(** The level names of a join: kept when all the axes agree on them. *)
Definition common_names (ns : list (list (option string)))
    : list (option string) :=
  match ns with
  | [] => [None]
  | n :: rest => if decide (Forall (fun m => m = n) rest) then n else [None]
  end.

(** Bringing the entries [xs] of an axis labelled [own] onto the axis
    [target]: nothing to do when the axes are the same; otherwise by label,
    which pandas refuses for an axis with duplicate labels. *)
Definition align {X : Type} (target own : list Label) (fill : X)
    (xs : list X) : Outcome (list X) :=
  if decide (own = target) then Returned xs
  else if decide (NoDup own) then
    Returned ((fun l => default fill (pos l own ≫= (fun i => xs !! i)))
                <$> target)
  else Raised (OtherError "ValueError").

Fixpoint mapM {A B : Type} (f : A -> Outcome B) (xs : list A)
    : Outcome (list B) :=
  match xs with
  | [] => Returned []
  | x :: xs' => y ← f x; ys ← mapM f xs'; Returned (y :: ys)
  end.

(** The cells of [pd.concat(objs, axis=1)]: every frame aligned on the
    joined row axis, the rows then laid side by side, each column with
    the dtype its cells call for. *)
Definition concat_cells1 (target : list Label) (objs : list DataFrame)
    : Outcome (list (list Value)) :=
  blocks ← mapM (fun df =>
      align target (labels (index df)) (replicate (ncols df) VNaN)
        (values df)) objs;
  Returned
    (upcast (foldr (zip_with app) (replicate (length target) []) blocks)).

(** [pd.concat(objs, axis=1)]. *)
Definition concat_axis1 (objs : list DataFrame) : Outcome DataFrame :=
  let target := union_all ((fun df => labels (index df)) <$> objs) in
  cells ← concat_cells1 target objs;
  Returned (mkDataFrame
    (mkIndex (common_names ((fun df => names (index df)) <$> objs)) target)
    (mkIndex (common_names ((fun df => names (columns df)) <$> objs))
       (objs ≫= (fun df => labels (columns df))))
    cells).

(** The labels of an axis built with [keys]: each label of frame [k]
    prefixed with the [k]-th key. *)
Definition keyed_labels (keys : list string) (axes : list (list Label))
    : list Label :=
  zip keys axes ≫= (fun '(k, ls) => (fun l => VStr k :: l) <$> ls).

(** [pd.concat(objs, keys=keys, axis=1, names=names)]. *)
Definition concat_axis1_keys (objs : list DataFrame) (keys : list string)
    (nms : list (option string)) : Outcome DataFrame :=
  let target := union_all ((fun df => labels (index df)) <$> objs) in
  cells ← concat_cells1 target objs;
  Returned (mkDataFrame
    (mkIndex (common_names ((fun df => names (index df)) <$> objs)) target)
    (mkIndex nms (keyed_labels keys ((fun df => labels (columns df)) <$> objs)))
    cells).

(** [pd.concat(objs, keys=keys, axis=0, names=names)]: the frames stacked,
    each aligned on the joined column axis. *)
Definition concat_axis0_keys (objs : list DataFrame) (keys : list string)
    (nms : list (option string)) : Outcome DataFrame :=
  let target := union_all ((fun df => labels (columns df)) <$> objs) in
  blocks ← mapM (fun df =>
      mapM (align target (labels (columns df)) VNaN) (values df)) objs;
  Returned (mkDataFrame
    (mkIndex nms (keyed_labels keys ((fun df => labels (index df)) <$> objs)))
    (mkIndex (common_names ((fun df => names (columns df)) <$> objs)) target)
    (upcast (concat blocks))).

(** *** Assembling a frame row by row *)

(** [Series()] filled by [s[k] = v]: an ordered record. *)
Definition Series : Type := list (string * Value).

Definition Series_new : Series := [].

Definition series_set (s : Series) (k : string) (v : Value) : Series :=
  if decide (k ∈ s.*1)
  then (fun p => if decide (p.1 = k) then (k, v) else p) <$> s
  else s ++ [(k, v)].

Definition series_get (s : Series) (k : string) : Value :=
  default VNaN (snd <$> (snd <$> list_find (fun p => p.1 = k) s)).

(** Modelled from the spec: [DataFrame.append] belongs to pandas, not to the
    repository.  The spec (4.6) has each bulk row "collected into a small
    record" and the rows "assembled into a fragment table" whose first
    column is "the first column of the bulk record": a row brings its
    columns in the order of the record, a column the frame does not have
    yet is added after the ones it has, and with [ignore_index=True] the
    rows are numbered from 0.  A cell the row or an earlier row does not
    fill is NaN, and every column has the dtype its cells call for. *)
Definition append (df : DataFrame) (s : Series) : DataFrame :=
  let cols := labels (columns df) in
  let new := filter (fun l => l ∉ cols) ((fun p => [VStr p.1]) <$> s) in
  let cols' := cols ++ new in
  mkDataFrame
    (flat_index None
       ((fun i => VInt (Z.of_nat i)) <$> seq 0 (S (length (values df)))))
    (mkIndex (names (columns df)) cols')
    (upcast
       (((fun row => row ++ replicate (length new) VNaN) <$> values df)
          ++ [(fun l => match l with
                        | [VStr k] => series_get s k
                        | _ => VNaN
                        end) <$> cols'])).

(** [df.columns[j]]. *)
Definition column_label (df : DataFrame) (j : nat) : Outcome Label :=
  match labels (columns df) !! j with
  | Some l => Returned l
  | None => Raised (OtherError "IndexError")
  end.

Definition label_name (l : Label) : option string :=
  match l with
  | [VStr s] => Some s
  | _ => None
  end.

(** [df.set_index(c)]: the column labelled [c] leaves the cells and becomes
    the row axis, named after it. *)
Definition set_index (df : DataFrame) (c : Label) : Outcome DataFrame :=
  match pos c (labels (columns df)) with
  | None => Raised (OtherError "KeyError")
  | Some j =>
      Returned (mkDataFrame
        (mkIndex [label_name c]
           ((fun row => [default VNaN (row !! j)]) <$> values df))
        (mkIndex (names (columns df)) (delete j (labels (columns df))))
        ((fun row => delete j row) <$> values df))
  end.

End pd.

(** ** The connection object *)

(** The far end of a session: whether one can be started to a host and
    port, whether a service of a given name can then be opened on it, the
    status events a started session finds queued, and the events the
    service sends in answer to a request. *)
Record Transport : Type := mkTransport {
  connects : string -> Z -> bool;
  opens : string -> bool;
  on_start : list Event;
  serve : Request -> list Event
}.

(** A [blpapi.Session]: whether it runs, the requests sent on it, and the
    events [nextEvent] has still to hand out. *)
Record Session : Type := mkSession {
  started : bool;
  sent : list Request;
  queue : list Event
}.

(** The attributes of a [BLPInterface]; [session] and [refDataService] exist
    only once [open] has assigned them. *)
Record BLPInterface : Type := mkBLPInterface {
  active : bool;
  host : string;
  port : Z;
  session : option Session;
  refDataService : option string
}.

(** The value [referenceRequest] returns: a bare value or a table. *)
Inductive RefResult : Type :=
| Bare (v : Value)
| Table (df : pd.DataFrame).

(** ** Reshaping the responses

    The loops of the three request functions over the messages that
    [sendRequest] returned.  They read the messages only, so they are given
    here on their own and joined to [sendRequest] further down. *)

(** One message of a history response: the frame of its security.  In
    [df.ix[fld.getElementAsDatetime('date'), str(v.name())] = v.getValue()]
    Python computes the right-hand side first. *)
Definition history_cell (fld : Element) (df : pd.DataFrame) (v : Element)
    : Outcome pd.DataFrame :=
  x ← getValue v;
  d ← getElementAsDatetime fld "date";
  Returned (pd.ix_set df (VDatetime d) (VStr (name v)) x).

Definition history_row (df : pd.DataFrame) (fld : Element)
    : Outcome pd.DataFrame :=
  es ← elements_of fld;
  for_each (history_cell fld) df
    (filter (fun v => name v ≠ "date") es).

Definition history_fragment (msg : Message) : Outcome (string * pd.DataFrame) :=
  securityData ← getElement (asElement msg) "securityData";
  fieldData ← getElement securityData "fieldData";
  fieldDataList ← values_of fieldData;
  df ← for_each history_row pd.DataFrame_new fieldDataList;
  let df := pd.set_index_obj df (pd.to_datetime (pd.index df)) in
  let df := pd.replace (VStr "#N/A History") VNaN df in
  key ← getElementAsString securityData "security";
  Returned (key, df).

Definition history_step (acc : list string * list pd.DataFrame)
    (msg : Message) : Outcome (list string * list pd.DataFrame) :=
  '(key, df) ← history_fragment msg;
  Returned (acc.1 ++ [key], acc.2 ++ [df]).

Definition history_table (securities : Arg) (response : list Message)
    : Outcome pd.DataFrame :=
  '(keys, data) ← for_each history_step ([], []) response;
  if length data =? 0 then Returned pd.DataFrame_new
  else
    data ← (if is_str securities then
              df ← pd.concat_axis1 data;
              Returned (pd.set_columns_name "Field" df)
            else
              pd.concat_axis1_keys data keys [Some "Security"; Some "Field"]);
    Returned (pd.set_index_name "Date" data).

(** The table [referenceRequest] fills, one cell per field of each security
    of each message. *)
Definition reference_cell (sec : Element) (data : pd.DataFrame)
    (fld : Element) : Outcome pd.DataFrame :=
  x ← getValue fld;
  s ← getElementAsString sec "security";
  Returned (pd.ix_set data (VStr s) (VStr (name fld)) x).

Definition reference_security (data : pd.DataFrame) (sec : Element)
    : Outcome pd.DataFrame :=
  fieldData ← getElement sec "fieldData";
  fieldDataList ← elements_of fieldData;
  for_each (reference_cell sec) data fieldDataList.

Definition reference_message (data : pd.DataFrame) (msg : Message)
    : Outcome pd.DataFrame :=
  securityData ← getElement (asElement msg) "securityData";
  securityDataList ← values_of securityData;
  for_each reference_security data securityDataList.

Definition reference_table (response : list Message) : Outcome pd.DataFrame :=
  for_each reference_message pd.DataFrame_new response.

(** The tail of [referenceRequest], from [if data.empty] on. *)
Definition reference_result (securities fields : Arg) (data : pd.DataFrame)
    : Outcome RefResult :=
  if pd.empty data then Returned (Table data)
  else
    let data := pd.set_index_name "Security" data in
    let data := pd.set_columns_name "Field" data in
    if is_str securities && is_str fields then
      v ← pd.iloc data 0 0; Returned (Bare v)
    else Returned (Table data).

(** The frames [bulkRequest] collects: one [df] per security of each
    message, filled with the rows of all of its fields. *)
Definition bulk_record (v : Element) : Outcome pd.Series :=
  ds ← elements_of v;
  for_each (fun s d => x ← getValue d; Returned (pd.series_set s (name d) x))
    pd.Series_new ds.

Definition bulk_row (df : pd.DataFrame) (v : Element) : Outcome pd.DataFrame :=
  s ← bulk_record v;
  Returned (pd.append df s).

Definition bulk_field (df : pd.DataFrame) (fld : Element)
    : Outcome pd.DataFrame :=
  vs ← values_of fld;
  for_each bulk_row df vs.

Definition bulk_frame (sec : Element) : Outcome pd.DataFrame :=
  fieldData ← getElement sec "fieldData";
  fieldDataList ← elements_of fieldData;
  for_each bulk_field pd.DataFrame_new fieldDataList.

Definition bulk_security (acc : list string * list pd.DataFrame)
    (sec : Element) : Outcome (list string * list pd.DataFrame) :=
  df ← bulk_frame sec;
  if negb (pd.empty df) then
    key ← getElementAsString sec "security";
    c ← pd.column_label df 0;
    fragment ← pd.set_index df c;
    Returned (acc.1 ++ [key], acc.2 ++ [fragment])
  else Returned acc.

Definition bulk_message (acc : list string * list pd.DataFrame)
    (msg : Message) : Outcome (list string * list pd.DataFrame) :=
  securityData ← getElement (asElement msg) "securityData";
  securityDataList ← values_of securityData;
  for_each bulk_security acc securityDataList.

Definition bulk_fragments (response : list Message)
    : Outcome (list string * list pd.DataFrame) :=
  for_each bulk_message ([], []) response.

(** The tail of [bulkRequest], from [if len(data) == 0] on. *)
Definition bulk_combine (securities : Arg) (keys : list string)
    (data : list pd.DataFrame) : Outcome pd.DataFrame :=
  if length data =? 0 then Returned pd.DataFrame_new
  else if is_str securities then
    df ← pd.concat_axis1 data;
    Returned (pd.set_columns_name "Field" df)
  else
    match data with
    | d0 :: _ =>
        pd.concat_axis0_keys data keys
          [Some "Security"; mjoin (head (pd.names (pd.index d0)))]
    | [] => Raised (OtherError "IndexError")
    end.

Definition bulk_table (securities : Arg) (response : list Message)
    : Outcome pd.DataFrame :=
  '(keys, data) ← bulk_fragments response;
  bulk_combine securities keys data.

Section Wrapper.

Variable net : Transport.

(** [open]: [session.start()] and [openService] report failure by their
    return value, which is not looked at; [getService] raises when the
    service was not opened, be it that the session did not start or that
    the service could not be opened on it.  [self.session] is assigned
    before, and a session that started stays started. *)
Definition open (self : BLPInterface) : Outcome unit * BLPInterface :=
  if negb (active self) then
    let up := connects net (host self) (port self) in
    let s := mkSession up [] (if up then on_start net else []) in
    let ready := up && opens net "//BLP/refdata" in
    if ready then
      (Returned tt,
       mkBLPInterface true (host self) (port self) (Some s)
         (Some "//BLP/refdata"))
    else
      (Raised (OtherError "NotFoundException"),
       mkBLPInterface (active self) (host self) (port self) (Some s)
         (refDataService self))
  else (Returned tt, self).

Definition close (self : BLPInterface) : Outcome unit * BLPInterface :=
  if active self then
    match session self with
    | Some s =>
        (Returned tt,
         mkBLPInterface false (host self) (port self)
           (Some (mkSession false (sent s) (queue s))) (refDataService self))
    | None => (Raised (OtherError "AttributeError"), self)
    end
  else (Returned tt, self).

(** [__init__]. *)
Definition init (host : string) (port : Z) (open_now : bool)
    : Outcome unit * BLPInterface :=
  let self := mkBLPInterface false host port None None in
  if open_now then open self else (Returned tt, self).

(** ** [sendRequest] *)

(** The checks made on every message, in the order of the code. *)
Definition check (msg : Message) : Outcome unit :=
  let m := asElement msg in
  _ ← (if hasElement m "responseError" then
         e ← getElement m "responseError";
         Raised (RequestError e "Response Error")
       else Returned tt);
  if hasElement m "securityData" then
    sd ← getElement m "securityData";
    has_exceptions ←
      (if hasElement sd "fieldExceptions" then
         fe ← getElement sd "fieldExceptions";
         Returned (0 <? numValues fe)
       else Returned false);
    if has_exceptions : bool then
      sd ← getElement m "securityData";
      fe ← getElement sd "fieldExceptions";
      Raised (RequestError fe "Field Error")
    else
      sd ← getElement m "securityData";
      if hasElement sd "securityError" then
        sd ← getElement m "securityData";
        se ← getElement sd "securityError";
        Raised (RequestError se "Security Error")
      else Returned tt
  else Returned tt.

(** [for msg in event: ...]. *)
Fixpoint scan (expected : string) (response : list Message)
    (msgs : list Message) : Outcome (list Message) :=
  match msgs with
  | [] => Returned response
  | msg :: rest =>
      _ ← check msg;
      scan expected
        (if decide (messageType msg = expected) then response ++ [msg]
         else response)
        rest
  end.

(** [while True: event = self.session.nextEvent(100) ...] over the events
    the session has to deliver.  When they run out before a [RESPONSE]
    event, [nextEvent] hands out empty [TIMEOUT] events for ever and the
    loop does not end. *)
Fixpoint poll (expected : string) (response : list Message)
    (q : list Event) : Outcome (list Message) * list Event :=
  match q with
  | [] => (Diverges, [])
  | event :: q' =>
      match scan expected response (messages event) with
      | Returned response' =>
          if decide (eventType event = RESPONSE) then (Returned response', q')
          else poll expected response' q'
      | Raised e => (Raised e, q')
      | Diverges => (Diverges, q')
      end
  end.

Definition with_session (self : BLPInterface) (s : Session) : BLPInterface :=
  mkBLPInterface (active self) (host self) (port self) (Some s)
    (refDataService self).

Definition sendRequest (self : BLPInterface) (requestType : string)
    (securities fields : Arg) (elements : gmap string Value)
    : Outcome (list Message) * BLPInterface :=
  match refDataService self, session self with
  | Some _, Some s =>
      let request := build_request requestType securities fields elements in
      if started s then
        let q := queue s ++ serve net request in
        let '(r, q') := poll (requestType +:+ "Response") [] q in
        (r, with_session self (mkSession true (sent s ++ [request]) q'))
      else (Raised (OtherError "InvalidStateException"), self)
  | _, _ => (Raised (OtherError "AttributeError"), self)
  end.

(** ** The three requests *)

Definition historicalRequest (self : BLPInterface) (securities fields : Arg)
    (startDate endDate : Value) (kwargs : gmap string Value)
    : Outcome pd.DataFrame * BLPInterface :=
  let defaults := update (defaults startDate endDate) kwargs in
  let '(r, self') :=
    sendRequest self "HistoricalData" securities fields defaults in
  (response ← r; history_table securities response, self').

Definition referenceRequest (self : BLPInterface) (securities fields : Arg)
    (kwargs : gmap string Value) : Outcome RefResult * BLPInterface :=
  let '(r, self') :=
    sendRequest self "ReferenceData" securities fields kwargs in
  (response ← r;
   data ← reference_table response;
   reference_result securities fields data, self').

Definition bulkRequest (self : BLPInterface) (securities fields : Arg)
    (kwargs : gmap string Value) : Outcome pd.DataFrame * BLPInterface :=
  let '(r, self') :=
    sendRequest self "ReferenceData" securities fields kwargs in
  (response ← r; bulk_table securities response, self').

(** [__enter__], [__exit__] and [__del__]. *)
Definition enter (self : BLPInterface) : Outcome unit * BLPInterface :=
  open self.

Definition exit (self : BLPInterface) : Outcome unit * BLPInterface :=
  close self.

Definition del (self : BLPInterface) : Outcome unit * BLPInterface :=
  close self.

End Wrapper.

(** ** Notions the statements are phrased with *)

(** A message passes the checks of [sendRequest]. *)
Definition clean (msg : Message) : Prop := check msg = Returned tt.

(** The messages of a run of events, in arrival order. *)
Definition all_messages (evs : list Event) : list Message :=
  evs ≫= messages.

(** The outcome of the checks on one message: it passes, or a
    [RequestError] of one of the three kinds is raised with the element the
    code names as its value. *)
Inductive check_spec (msg : Message) : Outcome unit -> Prop :=
| check_response_error e :
    hasElement (asElement msg) "responseError" = true ->
    getElement (asElement msg) "responseError" = Returned e ->
    check_spec msg (Raised (RequestError e "Response Error"))
| check_field_error sd fe :
    hasElement (asElement msg) "responseError" = false ->
    getElement (asElement msg) "securityData" = Returned sd ->
    getElement sd "fieldExceptions" = Returned fe ->
    0 < numValues fe ->
    check_spec msg (Raised (RequestError fe "Field Error"))
| check_security_error sd se :
    hasElement (asElement msg) "responseError" = false ->
    getElement (asElement msg) "securityData" = Returned sd ->
    (forall fe, getElement sd "fieldExceptions" = Returned fe ->
                numValues fe = 0) ->
    getElement sd "securityError" = Returned se ->
    check_spec msg (Raised (RequestError se "Security Error"))
| check_passed :
    hasElement (asElement msg) "responseError" = false ->
    (forall sd, getElement (asElement msg) "securityData" = Returned sd ->
       (forall fe, getElement sd "fieldExceptions" = Returned fe ->
                   numValues fe = 0)
       /\ hasElement sd "securityError" = false) ->
    check_spec msg (Returned tt).


(** The number a run of decimal digits stands for. *)
Definition number_of (ds : list nat) : nat :=
  foldl (fun n d => n * 10 + d) 0 ds.

(** Reading a year-month-day text of any length: the last four digits are
    month and day, the digits before them the year. *)
Definition read_Ymd (s : string) : option (nat * nat * nat) :=
  ds ← digits_val s;
  let n := length ds - 4 in
  Some (number_of (take n ds), number_of (take 2 (drop n ds)),
        number_of (drop (S (S n)) ds)).

(** ** Sample data

    A few concrete values, used where a statement is tried on an input. *)

Definition new_year_2015 : datetime := mkDatetime 2015 1 1 0 0 0 0.
Definition jan_2_2015 : datetime := mkDatetime 2015 1 2 0 0 0 0.
Definition end_2014 : datetime := mkDatetime 2014 12 31 17 30 0 0.

(** The same day as a [datetime.date], and a day of the year 999. *)
Definition end_2014_date : date := mkDate 2014 12 31.
Definition new_year_999 : datetime := mkDatetime 999 1 1 0 0 0 0.

Definition sample_kwargs : gmap string Value :=
  {[ "periodicitySelection" := VStr "WEEKLY" ]}.

(** Messages of the shape the service sends: a history response carries one
    security as a record; a reference response carries an array of them. *)
Definition history_msg (security : string) (extra : list Element)
    (rows : list (datetime * list (string * Value))) : Message :=
  mkMessage "HistoricalDataResponse"
    (Sequence "HistoricalDataResponse"
       [Sequence "securityData"
          (Scalar "security" (VStr security) :: extra ++
           [Array "fieldData"
              ((fun r => Sequence "fieldData"
                  (Scalar "date" (VDatetime r.1)
                   :: ((fun p => Scalar p.1 p.2) <$> r.2))) <$> rows)])]).

Definition reference_entry (security : string) (extra : list Element)
    (fieldData : list Element) : Element :=
  Sequence "securityData"
    (Scalar "security" (VStr security) :: extra ++
     [Sequence "fieldData" fieldData]).

Definition reference_msg (entries : list Element) : Message :=
  mkMessage "ReferenceDataResponse"
    (Sequence "ReferenceDataResponse" [Array "securityData" entries]).

Definition bulk_field_data (field : string)
    (rows : list (list (string * Value))) : Element :=
  Array field
    ((fun row => Sequence field ((fun p => Scalar p.1 p.2) <$> row)) <$> rows).

(** An interface that has been opened, with nothing waiting on its
    session. *)
Definition opened : BLPInterface :=
  mkBLPInterface true "localhost" 8194%Z (Some (mkSession true [] []))
    (Some "//BLP/refdata").

(** A service that answers every request with the same events. *)
Definition answering (events : list Event) : Transport :=
  mkTransport (fun _ _ => true) (fun _ => true) [] (fun _ => events).

Definition bad_field : Element :=
  Sequence "fieldExceptions"
    [Scalar "fieldId" (VStr "PX_LAS");
     Sequence "errorInfo" [Scalar "category" (VStr "BAD_FLD")]].

Definition bad_security : Element :=
  Sequence "securityError" [Scalar "category" (VStr "BAD_SEC")].

(** A history message whose security carries both a field exception and a
    security error. *)
Definition doubly_wrong : Message :=
  history_msg "XXX CN Equity"
    [Array "fieldExceptions" [bad_field]; bad_security] [].

(** A history message for an unknown security. *)
Definition unknown_security : Message :=
  history_msg "XXX CN Equity" [Array "fieldExceptions" []; bad_security] [].

(** An event that neither ends a reference request nor adds to it: status
    events and the like, left on the session by earlier traffic. *)
Definition quiet (ev : Event) : Prop :=
  eventType ev <> RESPONSE
  /\ Forall (fun m => clean m /\ messageType m <> "ReferenceDataResponse")
       (messages ev).

(** The answer of the service to a reference request for one security and
    one field it does not know for that security: a final event with one
    message, the entry of the security without field data, the field
    reported among the exceptions of the entry. *)
Definition unknown_field_reply (security : string) (exceptions : list Element)
    : list Event :=
  [mkEvent RESPONSE
     [reference_msg
        [reference_entry security [Array "fieldExceptions" exceptions] []]]].

(** The labels of an axis after a label is stored under: a label the
    axis has stays where it is, a new one goes to the end. *)
Definition add_label (ls : list pd.Label) (l : pd.Label) : list pd.Label :=
  if decide (l ∈ ls) then ls else ls ++ [l].

(** The cells of a frame fit its axes. *)
Definition well_formed (df : pd.DataFrame) : Prop :=
  length (pd.values df) = pd.nrows df
  /\ Forall (fun row => length row = pd.ncols df) (pd.values df).

(** A frame filled by [df.ix[r, c] = v] only, starting from [DataFrame()]:
    both axes flat and unnamed, no label twice. *)
Definition plain (df : pd.DataFrame) : Prop :=
  well_formed df
  /\ pd.names (pd.index df) = [None]
  /\ pd.names (pd.columns df) = [None]
  /\ NoDup (pd.labels (pd.index df))
  /\ NoDup (pd.labels (pd.columns df))
  /\ (df = pd.DataFrame_new \/ pd.empty df = false).

(** ** What a response holds

    The content of a response read off in one pass, against which the
    loops of the request functions are compared. *)

(** A cell to store: row label, column label, value. *)
Definition Cell : Type := Value * Value * Value.

Definition store (df : pd.DataFrame) (cell : Cell) : pd.DataFrame :=
  pd.ix_set df cell.1.1 cell.1.2 cell.2.

(** The cells of a reference response: for every security entry of every
    message, one cell per element of its [fieldData]. *)
Definition reference_cell_of (sec fld : Element) : Outcome Cell :=
  x ← getValue fld;
  s ← getElementAsString sec "security";
  Returned (VStr s, VStr (name fld), x).

Definition entry_cells (sec : Element) : Outcome (list Cell) :=
  fieldData ← getElement sec "fieldData";
  fieldDataList ← elements_of fieldData;
  pd.mapM (reference_cell_of sec) fieldDataList.

Definition message_cells (msg : Message) : Outcome (list Cell) :=
  securityData ← getElement (asElement msg) "securityData";
  securityDataList ← values_of securityData;
  cells ← pd.mapM entry_cells securityDataList;
  Returned (concat cells).

Definition reference_cells (response : list Message) : Outcome (list Cell) :=
  cells ← pd.mapM message_cells response;
  Returned (concat cells).

(** A reference answer for one security and one field. *)
Definition sector_reply : list Event :=
  [mkEvent RESPONSE
     [reference_msg
        [reference_entry "BBD/B CN Equity" [Array "fieldExceptions" []]
           [Scalar "GICS_SECTOR" (VStr "Industrials")]]]].

(** A reference answer whose value is an int. *)
Definition volume_reply : list Event :=
  [mkEvent RESPONSE
     [reference_msg
        [reference_entry "BBD/B CN Equity" [Array "fieldExceptions" []]
           [Scalar "VOLUME" (VInt 7%Z)]]]].





Definition date_label (d : datetime) : pd.Label := [VDatetime d].

Definition datetime_lt (x y : datetime) : Prop := pd.datetime_ltb x y = true.




(** The labels met in a run of stores, each once, in order of first
    appearance. *)
Definition first_seen (ls : list pd.Label) : list pd.Label :=
  foldl add_label [] ls.





(** The same rows, earliest first, and the table [historicalRequest] makes
    of them for a single security. *)
Definition in_order : Message :=
  history_msg "BMO CN Equity" [Array "fieldExceptions" []]
    [(new_year_2015, [("PX_LAST", VInt 81%Z)]);
     (jan_2_2015, [("PX_LAST", VInt 82%Z)])].


(** ** What a bulk response holds *)

(** The records of one bulk field, and of all the fields of a security
    entry one after the other. *)
Definition field_records (fld : Element) : Outcome (list pd.Series) :=
  vs ← values_of fld;
  pd.mapM bulk_record vs.

Definition entry_records (sec : Element) : Outcome (list pd.Series) :=
  fieldData ← getElement sec "fieldData";
  fieldDataList ← elements_of fieldData;
  records ← pd.mapM field_records fieldDataList;
  Returned (concat records).

(** The security entries of a message. *)
Definition message_entries (msg : Message) : Outcome (list Element) :=
  securityData ← getElement (asElement msg) "securityData";
  values_of securityData.

(** What [bulkRequest] keeps of one security entry: nothing when its frame
    is empty, else the name of the security and the frame indexed by its
    first column. *)
Definition bulk_fragment (sec : Element)
    : Outcome (option (string * pd.DataFrame)) :=
  df ← bulk_frame sec;
  if negb (pd.empty df) then
    key ← getElementAsString sec "security";
    c ← pd.column_label df 0;
    fragment ← pd.set_index df c;
    Returned (Some (key, fragment))
  else Returned None.

Definition keep (acc : list string * list pd.DataFrame)
    (found : option (string * pd.DataFrame))
    : list string * list pd.DataFrame :=
  match found with
  | Some kf => (acc.1 ++ [kf.1], acc.2 ++ [kf.2])
  | None => acc
  end.

(** The names of the columns the records bring, in order. *)
Definition record_keys (records : list pd.Series) : list string :=
  records ≫= (fun s => s.*1).

(** How the fragment of a security entry relates to the entry: the records
    of all its fields are appended to one frame; if no record brings a
    column the entry is passed over; otherwise the frame is indexed by the
    column the first record brought first. *)
Definition fragment_of (sec : Element)
    (found : option (string * pd.DataFrame)) : Prop :=
  exists records,
    entry_records sec = Returned records
    /\ let frame := foldl pd.append pd.DataFrame_new records in
       match head (record_keys records) with
       | None => found = None
       | Some k =>
           exists key fragment,
             getElementAsString sec "security" = Returned key
             /\ found = Some (key, fragment)
             /\ pd.set_index frame [VStr k] = Returned fragment
             /\ pd.index fragment
                = pd.mkIndex [Some k]
                    ((fun row => [default VNaN (row !! 0)])
                       <$> pd.values frame)
             /\ pd.columns fragment
                = pd.mkIndex [None] (tail (pd.labels (pd.columns frame)))
       end.

(** A security entry [bulkRequest] can read: its bulk records can be
    collected and, when they bring a column, it names its security. *)
Definition readable_entry (sec : Element) : Prop :=
  exists records,
    entry_records sec = Returned records
    /\ (record_keys records <> [] ->
        exists key, getElementAsString sec "security" = Returned key).

(** Frames pandas lays side by side: a single frame, or frames none of
    which has a row label twice. *)
Definition joinable (frames : list pd.DataFrame) : Prop :=
  length frames = 1
  \/ Forall (fun f => NoDup (pd.labels (pd.index f))) frames.

(** The count the claim suggests: one fragment for every field of every
    security entry that holds rows. *)
Definition has_rows (fld : Element) : bool :=
  match fld with
  | Array _ (_ :: _) => true
  | _ => false
  end.

Definition fields_with_rows (sec : Element) : nat :=
  match getElement sec "fieldData" with
  | Returned (Sequence _ flds) =>
      length (filter (fun fld => has_rows fld = true) flds)
  | _ => 0
  end.

Definition security_field_pairs (response : list Message) : nat :=
  sum_list (response ≫= (fun msg =>
    match message_entries msg with
    | Returned secs => fields_with_rows <$> secs
    | _ => []
    end)).

(** One security with two bulk fields, each holding a row. *)
Definition two_fields_entry : Element :=
  reference_entry "CIG CN Equity" [Array "fieldExceptions" []]
    [bulk_field_data "EQY_DVD_ADJUST_FACT"
       [[("Adjustment Date", VStr "2014-06-12");
         ("Adjustment Factor", VInt 2%Z)]];
     bulk_field_data "DVD_HIST_ALL"
       [[("Declared Date", VStr "2014-05-01");
         ("Dividend Amount", VInt 1%Z)]]].

Definition two_fields : Message := reference_msg [two_fields_entry].

(** The table [bulkRequest] makes of [two_fields] for a single security. *)
Definition two_fields_table : pd.DataFrame :=
  Eval vm_compute in
    match bulk_table (Str "CIG CN Equity") [two_fields] with
    | Returned df => df
    | _ => pd.DataFrame_new
    end.

(** ** Notions for the life of a connection *)

(** The flag and the session agree: the object is active exactly when it
    holds a running session, and an active object has its service
    handle. *)
Definition in_step (self : BLPInterface) : Prop :=
  (active self = true <->
   exists s, session self = Some s /\ started s = true)
  /\ (active self = true -> is_Some (refDataService self)).

(** An active object can be served: it holds a running session and its
    service handle. *)
Definition serviceable (self : BLPInterface) : Prop :=
  active self = true ->
  (exists s, session self = Some s /\ started s = true)
  /\ is_Some (refDataService self).


(** An object built with [open=False] and never opened. *)
Definition never_opened (host : string) (port : Z) : BLPInterface :=
  mkBLPInterface false host port None None.

(** A message that reports the failure of the whole request. *)
Definition request_failed : Message :=
  mkMessage "HistoricalDataResponse"
    (Sequence "HistoricalDataResponse"
       [Sequence "responseError" [Scalar "category" (VStr "LIMIT")]]).

(** A session status message, as found on a session that has just been
    started. *)
Definition session_started : Message :=
  mkMessage "SessionStarted" (Sequence "SessionStarted" []).

(** ** Reading a table *)

(** The cell in row [i], column [j], NaN outside the cells. *)
Definition get2 (vals : list (list Value)) (i j : nat) : Value :=
  default VNaN (vals !! i ≫= (fun row => row !! j)).

(** The cell under a row label and a column label, NaN when the table has
    no such row or column. *)
Definition cell_at (df : pd.DataFrame) (r c : Value) : Value :=
  match pd.pos [r] (pd.labels (pd.index df)),
        pd.pos [c] (pd.labels (pd.columns df)) with
  | Some i, Some j => get2 (pd.values df) i j
  | _, _ => VNaN
  end.

(** [x] is what a table holds of the value [v]: [v] itself or, when [v]
    is an int in a [float64] column, the float64 nearest to it. *)
Definition holds_for (v x : Value) : Prop :=
  x = v \/ x = pd.as_float64 v.

(** The value a run of cells leaves under a pair of labels: that of the
    last cell for the pair, NaN when there is none. *)
Definition last_stored (cells : list Cell) (r c : Value) : Value :=
  foldl (fun acc cell =>
           if decide (cell.1.1 = r /\ cell.1.2 = c) then cell.2 else acc)
    VNaN cells.

(** A history message for a security without rows in the date range. *)
Definition no_rows : Message :=
  history_msg "BMO CN Equity" [Array "fieldExceptions" []] [].


(** What is known of a frame assembled from [records]: one row
    per record, every row as long as the column axis, every column a
    record names present, and under each column the value the record of
    the row has for it, as the column holds it. *)
Definition assembled (df : pd.DataFrame) (records : list pd.Series) : Prop :=
  length (pd.values df) = length records
  /\ Forall (fun row => length row = pd.ncols df) (pd.values df)
  /\ (forall s k, s ∈ records -> k ∈ s.*1 ->
        [VStr k] ∈ pd.labels (pd.columns df))
  /\ (forall i s k j,
        records !! i = Some s ->
        pd.pos [VStr k] (pd.labels (pd.columns df)) = Some j ->
        holds_for (pd.series_get s k) (get2 (pd.values df) i j)).

(** A security entry with two bulk fields whose records share a name. *)
Definition dividend_entry : Element :=
  reference_entry "CIG CN Equity" [Array "fieldExceptions" []]
    [bulk_field_data "EQY_DVD_ADJUST_FACT"
       [[("Date", VStr "2014-06-12"); ("Adjustment Factor", VInt 2%Z)]];
     bulk_field_data "DVD_HIST_ALL"
       [[("Date", VStr "2014-05-01"); ("Dividend Amount", VInt 1%Z)]]].

(** The frame [bulkRequest] assembles for [dividend_entry]. *)
Definition dividend_frame : pd.DataFrame :=
  Eval vm_compute in
    match bulk_frame dividend_entry with
    | Returned df => df
    | _ => pd.DataFrame_new
    end.

(** * Properties *)

(** ** Date serialization *)

Lemma digit_val_char n : digit_val (digit_char n) = Some (n mod 10).
Proof.
  unfold digit_val, digit_char.
  pose proof (Nat.mod_upper_bound n 10 ltac:(lia)) as Hlt.
  rewrite nat_ascii_embedding by lia.
  destruct (Nat.leb_spec 48 (48 + n mod 10)); [|lia].
  destruct (Nat.leb_spec (48 + n mod 10) 57); [|lia].
  simpl. f_equal. lia.
Qed.

Lemma is_digit_char n : is_digit (digit_char n) = true.
Proof. unfold is_digit. by rewrite digit_val_char. Qed.

Lemma year_digits y :
  y < 10 * 1000 ->
  (((y / 1000) mod 10 * 10 + (y / 100) mod 10) * 10 + (y / 10) mod 10) * 10
    + y mod 10 = y.
Proof.
  intros Hy.
  replace (y / 1000) with (y / 10 / 10 / 10)
    by (rewrite !Nat.Div0.div_div; reflexivity).
  replace (y / 100) with (y / 10 / 10)
    by (rewrite !Nat.Div0.div_div; reflexivity).
  pose proof (Nat.div_mod_eq y 10).
  pose proof (Nat.div_mod_eq (y / 10) 10).
  pose proof (Nat.div_mod_eq (y / 10 / 10) 10).
  assert (y / 10 / 10 / 10 < 10).
  { rewrite !Nat.Div0.div_div. apply Nat.Div0.div_lt_upper_bound. simpl. lia. }
  rewrite (Nat.mod_small (y / 10 / 10 / 10)) by lia.
  lia.
Qed.

Lemma two_digits n : n < 100 -> (n / 10) mod 10 * 10 + n mod 10 = n.
Proof.
  intros Hn.
  pose proof (Nat.div_mod_eq n 10).
  assert (n / 10 < 10) by (apply Nat.Div0.div_lt_upper_bound; lia).
  rewrite (Nat.mod_small (n / 10)) by lia.
  lia.
Qed.

Lemma three_digits n :
  n < 1000 ->
  ((n / 100) mod 10 * 10 + (n / 10) mod 10) * 10 + n mod 10 = n.
Proof.
  intros Hn.
  replace (n / 100) with (n / 10 / 10)
    by (rewrite !Nat.Div0.div_div; reflexivity).
  pose proof (Nat.div_mod_eq n 10).
  pose proof (Nat.div_mod_eq (n / 10) 10).
  assert (n / 10 / 10 < 10).
  { rewrite !Nat.Div0.div_div. apply Nat.Div0.div_lt_upper_bound. simpl. lia. }
  rewrite (Nat.mod_small (n / 10 / 10)) by lia.
  lia.
Qed.

Lemma append_cons c s t : String c s +:+ t = String c (s +:+ t).
Proof. reflexivity. Qed.

Lemma append_nil t : EmptyString +:+ t = t.
Proof. reflexivity. Qed.

(** The year takes as many characters as it has digits. *)
Lemma year_text_cases y :
  (y < 10 /\ year_text y = String (digit_char y) EmptyString)
  \/ (10 <= y < 100 /\ year_text y = pad2 y)
  \/ (100 <= y < 1000
      /\ year_text y = String (digit_char (y / 100)) (pad2 y))
  \/ (1000 <= y /\ year_text y = pad4 y).
Proof.
  unfold year_text.
  destruct (Nat.ltb_spec y 10); [by left|].
  destruct (Nat.ltb_spec y 100); [right; left; split; [lia|done]|].
  destruct (Nat.ltb_spec y 1000); [right; right; left; split; [lia|done]|].
  by right; right; right.
Qed.

Lemma strftime_Ymd_chars d :
  1000 <= year d ->
  strftime_Ymd d =
  String (digit_char (year d / 1000)) (String (digit_char (year d / 100))
    (String (digit_char (year d / 10)) (String (digit_char (year d))
      (String (digit_char (month d / 10)) (String (digit_char (month d))
        (String (digit_char (day d / 10)) (String (digit_char (day d))
          EmptyString))))))).
Proof.
  intros Hy. unfold strftime_Ymd.
  destruct (year_text_cases (year d))
    as [[? _]|[[? _]|[[? _]|[_ ->]]]]; try lia.
  unfold pad4, pad2. by rewrite !append_cons, !append_nil.
Qed.

(** From the year 1000 on the text has eight characters. *)
Lemma strftime_Ymd_length d :
  1000 <= year d -> String.length (strftime_Ymd d) = 8.
Proof. intros Hy. rewrite strftime_Ymd_chars by done. reflexivity. Qed.

Lemma strftime_Ymd_digits d : all_digits (strftime_Ymd d) = true.
Proof.
  unfold strftime_Ymd.
  destruct (year_text_cases (year d))
    as [[_ ->]|[[_ ->]|[[_ ->]|[_ ->]]]];
    unfold pad4, pad2; rewrite !append_cons, !append_nil;
    cbn [all_digits]; by rewrite !is_digit_char.
Qed.

Lemma valid_datetime_bounds d :
  valid_datetime d = true ->
  1 <= year d < 10 * 1000 /\ 1 <= month d <= 12 /\ 1 <= day d <= 31.
Proof.
  unfold valid_datetime. intros H.
  repeat (apply andb_prop in H; destruct H as [H ?]).
  repeat match goal with
  | H : (_ <=? _) = true |- _ => apply Nat.leb_le in H
  | H : (_ <? _) = true |- _ => apply Nat.ltb_lt in H
  end.
  assert (days_in_month (year d) (month d) <= 31).
  { unfold days_in_month.
    destruct (month d) as [|[|[|[|[|[|[|[|[|[|[|[|?]]]]]]]]]]]]; try lia.
    destruct (is_leap (year d)); lia. }
  lia.
Qed.

Lemma strptime_strftime d :
  valid_datetime d = true -> 1000 <= year d ->
  strptime_Ymd (strftime_Ymd d) = Some (year d, month d, day d).
Proof.
  intros Hv Hy1. apply valid_datetime_bounds in Hv as (Hy & Hm & Hd).
  unfold strptime_Ymd. rewrite strftime_Ymd_chars by done.
  cbn [digits_val].
  rewrite !digit_val_char.
  rewrite year_digits by lia.
  rewrite !two_digits by lia.
  reflexivity.
Qed.

(** Whatever the length of the year, the text gives the day back to a
    reader who takes the last four digits for month and day. *)
Lemma read_strftime d :
  valid_datetime d = true ->
  read_Ymd (strftime_Ymd d) = Some (year d, month d, day d).
Proof.
  intros Hv. apply valid_datetime_bounds in Hv as (Hy & Hm & Hd).
  unfold read_Ymd, strftime_Ymd.
  destruct (year_text_cases (year d))
    as [[Hc ->]|[[Hc ->]|[[Hc ->]|[Hc ->]]]];
    unfold pad4, pad2; rewrite !append_cons, !append_nil;
    cbn [digits_val]; rewrite !digit_val_char;
    cbn [mbind option_bind length Nat.sub take drop number_of foldl];
    rewrite !Nat.mul_0_l, !Nat.add_0_l.
  - rewrite (Nat.mod_small (year d)) by lia.
    by rewrite !two_digits by lia.
  - by rewrite !two_digits by lia.
  - rewrite three_digits by lia. by rewrite !two_digits by lia.
  - rewrite year_digits by lia. by rewrite !two_digits by lia.
Qed.

(** Two datetimes print alike exactly when they fall on the same day. *)
Lemma strftime_Ymd_inj d d' :
  valid_datetime d = true -> valid_datetime d' = true ->
  strftime_Ymd d = strftime_Ymd d' ->
  (year d, month d, day d) = (year d', month d', day d').
Proof.
  intros Hv Hv' Heq.
  apply read_strftime in Hv, Hv'. congruence.
Qed.

(** ** Request construction *)

Lemma foldl_append_security_options r xs :
  req_options (foldl append_security r xs) = req_options r.
Proof. revert r. induction xs as [|x xs IH]; intros r; simpl; [done|]. by rewrite IH. Qed.

Lemma foldl_append_field_options r xs :
  req_options (foldl append_field r xs) = req_options r.
Proof. revert r. induction xs as [|x xs IH]; intros r; simpl; [done|]. by rewrite IH. Qed.

Lemma foldl_append_security_list r xs :
  req_securities (foldl append_security r xs) = req_securities r ++ xs
  /\ req_fields (foldl append_security r xs) = req_fields r
  /\ operation (foldl append_security r xs) = operation r.
Proof.
  revert r. induction xs as [|x xs IH]; intros r; simpl.
  - by rewrite app_nil_r.
  - destruct (IH (append_security r x)) as (-> & -> & ->). simpl.
    by rewrite <- app_assoc.
Qed.

Lemma foldl_append_field_list r xs :
  req_fields (foldl append_field r xs) = req_fields r ++ xs
  /\ req_securities (foldl append_field r xs) = req_securities r
  /\ operation (foldl append_field r xs) = operation r.
Proof.
  revert r. induction xs as [|x xs IH]; intros r; simpl.
  - by rewrite app_nil_r.
  - destruct (IH (append_field r x)) as (-> & -> & ->). simpl.
    by rewrite <- app_assoc.
Qed.

(** Setting the elements one by one leaves the lists alone and stores the
    serialized value of every entry. *)
Lemma set_elements_spec (r : Request) (elements : gmap string Value) :
  let r' := map_fold (fun k v request => request_set k (serialize v) request)
              r elements in
  operation r' = operation r
  /\ req_securities r' = req_securities r
  /\ req_fields r' = req_fields r
  /\ req_options r' = (serialize <$> elements) ∪ req_options r.
Proof.
  simpl.
  apply (map_fold_weak_ind (fun r' (m : gmap string Value) =>
    operation r' = operation r
    /\ req_securities r' = req_securities r
    /\ req_fields r' = req_fields r
    /\ req_options r' = (serialize <$> m) ∪ req_options r)).
  - repeat split. by rewrite fmap_empty, (left_id_L ∅ (∪)).
  - intros k v m r' Hk (Ho & Hs & Hf & Hopt). simpl.
    repeat split; try done.
    rewrite Hopt, fmap_insert. by rewrite insert_union_l.
Qed.

Lemma build_request_spec requestType securities fields
    (elements : gmap string Value) :
  build_request requestType securities fields elements =
  mkRequest (requestType +:+ "Request") (promote securities) (promote fields)
    (serialize <$> elements).
Proof.
  unfold build_request.
  destruct (set_elements_spec
    (foldl append_field
       (foldl append_security (createRequest (requestType +:+ "Request"))
          (promote securities)) (promote fields)) elements)
    as (Ho & Hs & Hf & Hopt).
  simpl in *.
  destruct (foldl_append_field_list
    (foldl append_security (createRequest (requestType +:+ "Request"))
       (promote securities)) (promote fields)) as (Hf1 & Hs1 & Ho1).
  destruct (foldl_append_security_list
    (createRequest (requestType +:+ "Request")) (promote securities))
    as (Hs2 & Hf2 & Ho2).
  rewrite foldl_append_field_options, foldl_append_security_options in Hopt.
  simpl in *.
  rewrite (right_id_L ∅ (∪)) in Hopt.
  rewrite Ho1, Ho2 in Ho. rewrite Hs1, Hs2 in Hs. rewrite Hf1, Hf2 in Hf.
  simpl in *.
  destruct (map_fold _ _ elements) as [o s f opts]. simpl in *. by subst.
Qed.

(** C8, as the code has it.  Every option value handed to [sendRequest]
    is attached to the request through [serialize]: a value whose type is
    exactly [datetime] goes out as the text of its year, month and day, all
    of it digits, and two valid datetimes give the same text only when
    they fall on the same day; from the year 1000 on the text has eight
    digits, from which that calendar date is read back.  Any other value,
    a [date] or an instance of a subclass of [datetime] among them, goes
    out as it came. *)
Theorem option_values_serialized requestType securities fields
    (elements : gmap string Value) k v :
  elements !! k = Some v ->
  req_options (build_request requestType securities fields elements) !! k
    = Some (serialize v)
  /\ match v with
     | VDatetime d =>
         serialize v = VStr (strftime_Ymd d)
         /\ all_digits (strftime_Ymd d) = true
         /\ (valid_datetime d = true -> 1000 <= year d ->
             String.length (strftime_Ymd d) = 8
             /\ strptime_Ymd (strftime_Ymd d)
                = Some (year d, month d, day d))
         /\ (forall d',
               valid_datetime d = true -> valid_datetime d' = true ->
               strftime_Ymd d = strftime_Ymd d' ->
               (year d, month d, day d) = (year d', month d', day d'))
     | _ => serialize v = v
     end.
Proof.
  intros Hk. split.
  - rewrite build_request_spec. simpl. by rewrite lookup_fmap, Hk.
  - destruct v; try reflexivity.
    split; [reflexivity|]. split; [apply strftime_Ymd_digits|]. split.
    + intros Hv Hy. split.
      * by apply strftime_Ymd_length.
      * by apply strptime_strftime.
    + intros d'. apply strftime_Ymd_inj.
Qed.

Lemma option_values_serialized_witness :
  (<["endDate" := VDatetime end_2014]> sample_kwargs) !! "endDate"
    = Some (VDatetime end_2014)
  /\ req_options (build_request "HistoricalData" (Str "BMO CN Equity")
       (Str "PX_LAST") (<["endDate" := VDatetime end_2014]> sample_kwargs))
       !! "endDate" = Some (serialize (VDatetime end_2014))
  /\ serialize (VDatetime end_2014) = VStr (strftime_Ymd end_2014)
  /\ all_digits (strftime_Ymd end_2014) = true
  /\ (valid_datetime end_2014 = true -> 1000 <= year end_2014 ->
      String.length (strftime_Ymd end_2014) = 8
      /\ strptime_Ymd (strftime_Ymd end_2014)
         = Some (year end_2014, month end_2014, day end_2014))
  /\ (forall d',
        valid_datetime end_2014 = true -> valid_datetime d' = true ->
        strftime_Ymd end_2014 = strftime_Ymd d' ->
        (year end_2014, month end_2014, day end_2014)
        = (year d', month d', day d')).
Proof.
  assert (<["endDate" := VDatetime end_2014]> sample_kwargs !! "endDate"
          = Some (VDatetime end_2014)) as H by (vm_compute; reflexivity).
  split; [exact H|].
  exact (option_values_serialized "HistoricalData" (Str "BMO CN Equity")
    (Str "PX_LAST") (<["endDate" := VDatetime end_2014]> sample_kwargs)
    "endDate" (VDatetime end_2014) H).
Defined.

(** C8 as stated fails for a calendar date that is not of the type
    [datetime]: a [datetime.date] given as [endDate] is attached as the
    date it is, not as eight digits.  And a [datetime] of the year 999
    goes out as seven digits. *)
Lemma calendar_date_not_serialized :
  req_options (build_request "HistoricalData" (Str "BMO CN Equity")
     (Str "PX_LAST") {[ "endDate" := VDate end_2014_date ]}) !! "endDate"
    = Some (VDate end_2014_date)
  /\ (forall s, VDate end_2014_date <> VStr s)
  /\ valid_datetime new_year_999 = true
  /\ serialize (VDatetime new_year_999) = VStr "9990101"
  /\ String.length "9990101" = 7.
Proof.
  split.
  - rewrite build_request_spec. cbn [req_options].
    by rewrite lookup_fmap, lookup_singleton.
  - repeat split; done.
Qed.

(** The sample prints as expected. *)
Example strftime_end_2014 : strftime_Ymd end_2014 = "20141231".
Proof. vm_compute. reflexivity. Qed.

(** ** Polling *)

Lemma hasElement_getElement e n :
  hasElement e n = true -> exists x, getElement e n = Returned x.
Proof.
  destruct e as [| nm es |]; simpl; try discriminate.
  intros H. apply bool_decide_eq_true in H as [x Hx].
  exists x. by rewrite Hx.
Qed.

Lemma hasElement_false_getElement e n :
  hasElement e n = false -> exists what, getElement e n = Raised (OtherError what).
Proof.
  destruct e as [| nm es |]; simpl; eauto.
  intros H. apply bool_decide_eq_false in H.
  destruct (find_element n es); [|eauto].
  exfalso. apply H. eauto.
Qed.

Lemma check_cases msg : check_spec msg (check msg).
Proof.
  unfold check.
  destruct (hasElement (asElement msg) "responseError") eqn:Hre.
  { destruct (hasElement_getElement _ _ Hre) as [e He]. rewrite He. simpl.
    by apply check_response_error. }
  simpl.
  destruct (hasElement (asElement msg) "securityData") eqn:Hsd.
  2:{ apply check_passed; [done|]. intros sd Hget.
      destruct (hasElement_false_getElement _ _ Hsd) as [w Hw]. congruence. }
  destruct (hasElement_getElement _ _ Hsd) as [sd Hget]. rewrite Hget. simpl.
  destruct (hasElement sd "fieldExceptions") eqn:Hfe.
  - destruct (hasElement_getElement _ _ Hfe) as [fe Hgfe]. rewrite Hgfe. simpl.
    destruct (0 <? numValues fe) eqn:Hn.
    + apply Nat.ltb_lt in Hn. by eapply check_field_error.
    + apply Nat.ltb_ge in Hn.
      destruct (hasElement sd "securityError") eqn:Hse.
      * destruct (hasElement_getElement _ _ Hse) as [se Hgse]. rewrite Hgse.
        simpl. eapply check_security_error; eauto.
        intros fe' Hfe'. assert (fe' = fe) by congruence. subst. lia.
      * apply check_passed; [done|]. intros sd' Hsd'.
        assert (sd' = sd) by congruence. subst. split; [|done].
        intros fe' Hfe'. assert (fe' = fe) by congruence. subst. lia.
  - simpl.
    destruct (hasElement_false_getElement _ _ Hfe) as [w Hw].
    destruct (hasElement sd "securityError") eqn:Hse.
    + destruct (hasElement_getElement _ _ Hse) as [se Hgse]. rewrite Hgse.
      simpl. eapply check_security_error; eauto.
      intros fe' Hfe'. congruence.
    + apply check_passed; [done|]. intros sd' Hsd'.
      assert (sd' = sd) by congruence. subst. split; [|done].
      intros fe' Hfe'. congruence.
Qed.

(** The checks end, and what they raise is a [RequestError]. *)
Lemma check_outcome msg :
  check msg = Returned tt
  \/ exists value description, check msg = Raised (RequestError value description).
Proof. destruct (check_cases msg); eauto. Qed.

Lemma scan_returned expected acc msgs r :
  scan expected acc msgs = Returned r <->
  Forall clean msgs
  /\ r = acc ++ filter (fun m => messageType m = expected) msgs.
Proof.
  revert acc. induction msgs as [|m msgs IH]; intros acc; simpl.
  - rewrite app_nil_r. split; [intros [= <-]; by split | intros [_ ->]; done].
  - rewrite filter_cons.
    destruct (check_outcome m) as [Hc | (value & description & Hc)];
      rewrite Hc; simpl.
    + rewrite IH. split.
      * intros [Hall ->]. split; [by constructor|].
        case_decide; [by rewrite <- app_assoc | done].
      * intros [Hall ->]. apply Forall_cons in Hall as [_ Hall]. split; [done|].
        case_decide; [by rewrite <- app_assoc | done].
    + split; [done|]. intros [Hall _]. apply Forall_cons in Hall as [Hm _].
      unfold clean in Hm. congruence.
Qed.

Lemma scan_raised expected acc msgs e :
  scan expected acc msgs = Raised e <->
  exists before m after,
    msgs = before ++ m :: after /\ Forall clean before /\ check m = Raised e.
Proof.
  revert acc. induction msgs as [|m msgs IH]; intros acc; simpl.
  - split; [done|]. intros (before & m & after & H & _). by destruct before.
  - destruct (check_outcome m) as [Hc | (value & description & Hc)];
      rewrite Hc; simpl.
    + rewrite IH. split.
      * intros (before & m' & after & -> & Hb & Hm').
        exists (m :: before), m', after. repeat split; [by constructor | done].
      * intros (before & m' & after & Heq & Hb & Hm').
        destruct before as [|b before]; simpl in Heq.
        -- injection Heq as <- <-. congruence.
        -- injection Heq as <- ->. apply Forall_cons in Hb as [_ Hb].
           by exists before, m', after.
    + split.
      * intros [= <-]. by exists [], m, msgs.
      * intros (before & m' & after & Heq & Hb & Hm').
        destruct before as [|b before]; simpl in Heq.
        -- injection Heq as <- <-. congruence.
        -- injection Heq as <- ->. apply Forall_cons in Hb as [Hb _].
           unfold clean in Hb. congruence.
Qed.

Lemma scan_outcome expected acc msgs :
  (exists r, scan expected acc msgs = Returned r)
  \/ (exists value description,
        scan expected acc msgs = Raised (RequestError value description)).
Proof.
  revert acc. induction msgs as [|m msgs IH]; intros acc; simpl; [eauto|].
  destruct (check_outcome m) as [Hc | (value & description & Hc)];
    rewrite Hc; simpl; eauto.
Qed.

(** What [poll] hands back is never an exception other than
    [RequestError]. *)
Lemma poll_outcome expected acc q :
  (exists r, (poll expected acc q).1 = Returned r)
  \/ (exists value description,
        (poll expected acc q).1 = Raised (RequestError value description))
  \/ (poll expected acc q).1 = Diverges.
Proof.
  revert acc. induction q as [|ev q IH]; intros acc; simpl; [eauto|].
  destruct (scan_outcome expected acc (messages ev))
    as [[r Hr] | (value & description & Hr)]; rewrite Hr.
  - case_decide; simpl; eauto.
  - simpl. eauto.
Qed.

Lemma poll_returned expected acc q r q' :
  poll expected acc q = (Returned r, q') <->
  exists pre fin,
    q = pre ++ fin :: q'
    /\ Forall (fun ev => eventType ev <> RESPONSE) pre
    /\ eventType fin = RESPONSE
    /\ Forall clean (all_messages (pre ++ [fin]))
    /\ r = acc ++ filter (fun m => messageType m = expected)
                    (all_messages (pre ++ [fin])).
Proof.
  unfold all_messages.
  revert acc. induction q as [|ev q IH]; intros acc; simpl.
  - split; [done|]. intros (pre & fin & H & _). by destruct pre.
  - destruct (scan expected acc (messages ev)) as [r1| |] eqn:Hscan.
    + apply scan_returned in Hscan as [Hclean ->].
      case_decide as Hty.
      * split.
        -- intros [= <- <-]. exists [], ev. simpl. rewrite app_nil_r.
           repeat split; try done.
        -- intros (pre & fin & Heq & Hpre & Hfin & Hall & ->).
           destruct pre as [|p pre]; simpl in *.
           ++ injection Heq as <- <-. by rewrite app_nil_r.
           ++ injection Heq as <- ->. apply Forall_cons in Hpre as [Hp _].
              done.
      * rewrite IH. split.
        -- intros (pre & fin & -> & Hpre & Hfin & Hall & ->).
           exists (ev :: pre), fin. simpl.
           repeat split; try done.
           ++ by constructor.
           ++ apply Forall_app; by split.
           ++ by rewrite filter_app, app_assoc.
        -- intros (pre & fin & Heq & Hpre & Hfin & Hall & ->).
           destruct pre as [|p pre]; simpl in *.
           ++ injection Heq as <- <-. done.
           ++ injection Heq as <- ->. apply Forall_cons in Hpre as [_ Hpre].
              apply Forall_app in Hall as [_ Hall].
              exists pre, fin. repeat split; try done.
              by rewrite filter_app, app_assoc.
    + split; [done|].
      intros (pre & fin & Heq & Hpre & Hfin & Hall & ->).
      assert (Forall clean (messages ev)) as Hev.
      { destruct pre; simplify_eq/=; by apply Forall_app in Hall as [Hall _]. }
      assert (exists r, scan expected acc (messages ev) = Returned r)
        as [r Hr] by (eexists; apply scan_returned; eauto).
      congruence.
    + destruct (scan_outcome expected acc (messages ev))
        as [[r1 Hr] | (value & description & Hr)]; congruence.
Qed.

Lemma poll_raised expected acc q e q' :
  poll expected acc q = (Raised e, q') <->
  exists pre ev before m after,
    q = pre ++ ev :: q'
    /\ Forall (fun ev => eventType ev <> RESPONSE) pre
    /\ Forall clean (all_messages pre)
    /\ messages ev = before ++ m :: after
    /\ Forall clean before
    /\ check m = Raised e.
Proof.
  unfold all_messages.
  revert acc. induction q as [|ev q IH]; intros acc; simpl.
  - split; [done|]. intros (pre & ev & ? & ? & ? & H & _). by destruct pre.
  - destruct (scan expected acc (messages ev)) as [r1| e1 |] eqn:Hscan.
    + pose proof Hscan as Hscan'.
      apply scan_returned in Hscan as [Hclean ->].
      case_decide as Hty.
      * split; [done|].
        intros (pre & ev' & before & m & after & Heq & Hpre & Hall & Hm & Hb & Hc).
        destruct pre as [|p pre]; simpl in *.
        -- injection Heq as <- <-.
           assert (scan expected acc (messages ev) = Raised e) as Hr
             by (apply scan_raised; eauto 10).
           congruence.
        -- injection Heq as <- ->. apply Forall_cons in Hpre as [Hp _]. done.
      * rewrite IH. split.
        -- intros (pre & ev' & before & m & after & -> & Hpre & Hall & Hm & Hb & Hc).
           exists (ev :: pre), ev', before, m, after. simpl.
           repeat split; try done; [by constructor | apply Forall_app; by split].
        -- intros (pre & ev' & before & m & after & Heq & Hpre & Hall & Hm & Hb & Hc).
           destruct pre as [|p pre]; simpl in *.
           ++ injection Heq as <- <-.
              assert (scan expected acc (messages ev) = Raised e) as Hr
                by (apply scan_raised; eauto 10).
              congruence.
           ++ injection Heq as <- ->. apply Forall_cons in Hpre as [_ Hpre].
              apply Forall_app in Hall as [_ Hall].
              exists pre, ev', before, m, after. by repeat split.
    + split.
      * intros [= <- <-]. apply scan_raised in Hscan
          as (before & m & after & Hm & Hb & Hc).
        exists [], ev, before, m, after. by repeat split.
      * intros (pre & ev' & before & m & after & Heq & Hpre & Hall & Hm & Hb & Hc).
        destruct pre as [|p pre]; simpl in *.
        -- injection Heq as <- <-.
           assert (scan expected acc (messages ev) = Raised e) as Hr
             by (apply scan_raised; eauto 10).
           congruence.
        -- injection Heq as <- ->.
           apply Forall_app in Hall as [Hall _].
           assert (exists r, scan expected acc (messages ev) = Returned r)
             as [r Hr] by (eexists; apply scan_returned; eauto).
           congruence.
    + destruct (scan_outcome expected acc (messages ev))
        as [[r1 Hr] | (value & description & Hr)]; congruence.
Qed.

(** ** [sendRequest] *)

Section SendRequest.

Variable net : Transport.

(** On an open interface [sendRequest] is the polling loop run on what the
    session holds followed by the answer of the service. *)
Lemma sendRequest_open self s svc requestType securities fields elements :
  refDataService self = Some svc -> session self = Some s ->
  started s = true ->
  let request := build_request requestType securities fields elements in
  let run := poll (requestType +:+ "Response") []
               (queue s ++ serve net request) in
  sendRequest net self requestType securities fields elements =
  (run.1, with_session self (mkSession true (sent s ++ [request]) run.2)).
Proof.
  intros Hsvc Hs Hst. unfold sendRequest. rewrite Hsvc, Hs, Hst. simpl.
  by destruct (poll _ _ _).
Qed.

(** Unless the call fails for want of an open session, the interface was
    open and the call went through the polling loop. *)
Lemma sendRequest_inv self requestType securities fields elements :
  (exists what,
     sendRequest net self requestType securities fields elements
     = (Raised (OtherError what), self))
  \/ (exists s svc,
        refDataService self = Some svc /\ session self = Some s
        /\ started s = true).
Proof.
  unfold sendRequest.
  destruct (refDataService self) as [svc|]; [|eauto].
  destruct (session self) as [s|]; [|eauto].
  destruct (started s) eqn:Hst.
  - right. by exists s, svc.
  - left. by eexists.
Qed.

Lemma sendRequest_no_other_error self s svc
    requestType securities fields elements what :
  refDataService self = Some svc -> session self = Some s ->
  started s = true ->
  (sendRequest net self requestType securities fields elements).1
  <> Raised (OtherError what).
Proof.
  intros Hsvc Hs Hst. rewrite (sendRequest_open _ _ _ _ _ _ _ Hsvc Hs Hst).
  simpl.
  destruct (poll_outcome (requestType +:+ "Response") []
    (queue s ++ serve net (build_request requestType securities fields elements)))
    as [[r ->] | [(v & d & ->) | ->]]; done.
Qed.

End SendRequest.

(** C6.  What [sendRequest] returns is read off the events the session
    delivers, up to and including the first [RESPONSE] event: the messages
    of these events whose type is [requestType + 'Response'], in arrival
    order, the others dropped.  It returns only when such an event arrives,
    and it does return when one arrives and no message before the end of
    that event fails a check. *)
Theorem response_is_matching_messages net self requestType securities fields
    elements :
  let request := build_request requestType securities fields elements in
  let expected := requestType +:+ "Response" in
  (forall response self',
     sendRequest net self requestType securities fields elements
       = (Returned response, self') ->
     exists s pre fin rest,
       session self = Some s
       /\ queue s ++ serve net request = pre ++ fin :: rest
       /\ Forall (fun ev => eventType ev <> RESPONSE) pre
       /\ eventType fin = RESPONSE
       /\ response = filter (fun m => messageType m = expected)
                       (all_messages (pre ++ [fin]))
       /\ self' = with_session self
                    (mkSession true (sent s ++ [request]) rest))
  /\ (forall s svc pre fin rest,
        refDataService self = Some svc -> session self = Some s ->
        started s = true ->
        queue s ++ serve net request = pre ++ fin :: rest ->
        Forall (fun ev => eventType ev <> RESPONSE) pre ->
        eventType fin = RESPONSE ->
        Forall clean (all_messages (pre ++ [fin])) ->
        sendRequest net self requestType securities fields elements
        = (Returned (filter (fun m => messageType m = expected)
                       (all_messages (pre ++ [fin]))),
           with_session self (mkSession true (sent s ++ [request]) rest))).
Proof.
  simpl. split.
  - intros response self' Hsend.
    destruct (sendRequest_inv net self requestType securities fields elements)
      as [[what Hw] | (s & svc & Hsvc & Hs & Hst)]; [congruence|].
    rewrite (sendRequest_open _ _ _ _ _ _ _ _ Hsvc Hs Hst) in Hsend.
    simpl in Hsend.
    destruct (poll _ _ _) as [r q'] eqn:Hpoll. simpl in Hsend.
    injection Hsend as -> <-.
    apply poll_returned in Hpoll as (pre & fin & Hq & Hpre & Hfin & _ & ->).
    exists s, pre, fin, q'. by repeat split.
  - intros s svc pre fin rest Hsvc Hs Hst Hq Hpre Hfin Hclean.
    rewrite (sendRequest_open _ _ _ _ _ _ _ _ Hsvc Hs Hst). simpl.
    assert (poll (requestType +:+ "Response") []
              (queue s ++ serve net
                 (build_request requestType securities fields elements))
            = (Returned (filter
                 (fun m => messageType m = requestType +:+ "Response")
                 (all_messages (pre ++ [fin]))), rest)) as ->.
    { apply poll_returned. exists pre, fin. by repeat split. }
    done.
Qed.

(** C10.  A [RequestError] out of [sendRequest] leaves the connection as it
    was: same [active] flag, host, port and service handle, the session
    still running; a further request on the same object goes through to
    the polling loop. *)
Theorem request_error_keeps_connection net self requestType securities fields
    elements value description self' :
  sendRequest net self requestType securities fields elements
    = (Raised (RequestError value description), self') ->
  active self' = active self
  /\ host self' = host self /\ port self' = port self
  /\ refDataService self' = refDataService self
  /\ (exists s s',
        session self = Some s /\ started s = true
        /\ session self' = Some s' /\ started s' = true)
  /\ (forall requestType2 securities2 fields2 elements2 what,
        (sendRequest net self' requestType2 securities2 fields2 elements2).1
        <> Raised (OtherError what)).
Proof.
  intros Hsend.
  destruct (sendRequest_inv net self requestType securities fields elements)
    as [[what Hw] | (s & svc & Hsvc & Hs & Hst)]; [congruence|].
  rewrite (sendRequest_open _ _ _ _ _ _ _ _ Hsvc Hs Hst) in Hsend.
  injection Hsend as _ <-. simpl.
  repeat split; try done.
  - eauto 10.
  - intros. eapply sendRequest_no_other_error; simpl; eauto.
Qed.

Lemma request_error_keeps_connection_witness :
  sendRequest (answering [mkEvent RESPONSE [unknown_security]]) opened
    "HistoricalData" (Str "XXX CN Equity") (Str "PX_LAST") ∅
  = (Raised (RequestError bad_security "Security Error"),
     with_session opened
       (mkSession true
          [build_request "HistoricalData" (Str "XXX CN Equity")
             (Str "PX_LAST") ∅] []))
  /\ active (with_session opened
       (mkSession true
          [build_request "HistoricalData" (Str "XXX CN Equity")
             (Str "PX_LAST") ∅] [])) = true.
Proof.
  assert (sendRequest (answering [mkEvent RESPONSE [unknown_security]]) opened
    "HistoricalData" (Str "XXX CN Equity") (Str "PX_LAST") ∅
  = (Raised (RequestError bad_security "Security Error"),
     with_session opened
       (mkSession true
          [build_request "HistoricalData" (Str "XXX CN Equity")
             (Str "PX_LAST") ∅] []))) as H by reflexivity.
  split; [exact H|].
  exact (proj1 (request_error_keeps_connection _ _ _ _ _ _ _ _ _ H)).
Defined.

(** C3, as the code has it.  When a message reached by the polling loop
    has a [securityData] record holding a [securityError], the request
    fails with a [RequestError] and hands back no messages.  The checks run
    in the order response error, field exceptions, security error: the
    error is the "Security Error" with the [securityError] element as its
    value when that message has no [responseError] and no field exception;
    otherwise the earlier check decides the description. *)
Theorem security_error_aborts net self requestType securities fields elements
    s svc pre ev rest before msg after sd se :
  refDataService self = Some svc -> session self = Some s ->
  started s = true ->
  queue s ++ serve net (build_request requestType securities fields elements)
    = pre ++ ev :: rest ->
  Forall (fun ev => eventType ev <> RESPONSE) pre ->
  Forall clean (all_messages pre) ->
  messages ev = before ++ msg :: after ->
  Forall clean before ->
  getElement (asElement msg) "securityData" = Returned sd ->
  getElement sd "securityError" = Returned se ->
  exists value description,
    (sendRequest net self requestType securities fields elements).1
      = Raised (RequestError value description)
    /\ (hasElement (asElement msg) "responseError" = false ->
        (forall fe, getElement sd "fieldExceptions" = Returned fe ->
                    numValues fe = 0) ->
        value = se /\ description = "Security Error").
Proof.
  intros Hsvc Hs Hst Hq Hpre Hclean Hev Hbefore Hsd Hse.
  rewrite (sendRequest_open _ _ _ _ _ _ _ _ Hsvc Hs Hst). simpl.
  assert (exists value description,
    check msg = Raised (RequestError value description)
    /\ (hasElement (asElement msg) "responseError" = false ->
        (forall fe, getElement sd "fieldExceptions" = Returned fe ->
                    numValues fe = 0) ->
        value = se /\ description = "Security Error"))
    as (value & description & Hcheck & Hkind).
  { destruct (check_cases msg) as [e Hre He | sd' fe Hre Hsd' Hfe Hn
                                   | sd' se' Hre Hsd' Hfe Hse' | Hre Hall].
    - eexists _, _. split; [done|]. congruence.
    - eexists _, _. split; [done|]. intros _ Hnone.
      assert (sd' = sd) by congruence. subst.
      specialize (Hnone _ Hfe). lia.
    - eexists _, _. split; [done|]. intros _ _.
      assert (sd' = sd) by congruence. subst. split; congruence.
    - destruct (Hall _ Hsd) as [_ Hno].
      destruct (hasElement_false_getElement _ _ Hno) as [w Hw]. congruence. }
  exists value, description. split; [|done].
  assert (poll (requestType +:+ "Response") []
            (queue s ++ serve net
               (build_request requestType securities fields elements))
          = (Raised (RequestError value description), rest)) as ->; [|done].
  apply poll_raised. exists pre, ev, before, msg, after. by repeat split.
Qed.

Lemma security_error_aborts_witness :
  exists value description,
    (sendRequest
       (answering [mkEvent PARTIAL_RESPONSE [];
                   mkEvent RESPONSE [unknown_security]])
       opened "HistoricalData" (Str "XXX CN Equity") (Str "PX_LAST") ∅).1
      = Raised (RequestError value description)
    /\ (hasElement (asElement unknown_security) "responseError" = false ->
        (forall fe,
           getElement
             (Sequence "securityData"
                [Scalar "security" (VStr "XXX CN Equity");
                 Array "fieldExceptions" []; bad_security;
                 Array "fieldData" []])
             "fieldExceptions" = Returned fe ->
           numValues fe = 0) ->
        value = bad_security /\ description = "Security Error").
Proof.
  apply (security_error_aborts
    (answering [mkEvent PARTIAL_RESPONSE [];
                mkEvent RESPONSE [unknown_security]])
    opened "HistoricalData" (Str "XXX CN Equity") (Str "PX_LAST") ∅
    (mkSession true [] []) "//BLP/refdata"
    [mkEvent PARTIAL_RESPONSE []] (mkEvent RESPONSE [unknown_security]) []
    [] unknown_security []
    (Sequence "securityData"
       [Scalar "security" (VStr "XXX CN Equity");
        Array "fieldExceptions" []; bad_security; Array "fieldData" []])
    bad_security);
    try reflexivity.
  - repeat constructor. discriminate.
  - constructor.
  - constructor.
Defined.

(** C3 as stated fails: a message that carries a [securityError] next to a
    field exception makes the request fail with "Field Error". *)
Lemma security_error_masked :
  (exists sd,
     getElement (asElement doubly_wrong) "securityData" = Returned sd
     /\ hasElement sd "securityError" = true)
  /\ (sendRequest (answering [mkEvent RESPONSE [doubly_wrong]]) opened
        "HistoricalData" (Str "XXX CN Equity") (Str "PX_LAS") ∅).1
     = Raised (RequestError (Array "fieldExceptions" [bad_field]) "Field Error")
  /\ ~ (exists value self',
          sendRequest (answering [mkEvent RESPONSE [doubly_wrong]]) opened
            "HistoricalData" (Str "XXX CN Equity") (Str "PX_LAS") ∅
          = (Raised (RequestError value "Security Error"), self')).
Proof.
  split; [eexists; split; reflexivity|].
  split; [reflexivity|].
  intros (value & self' & H).
  assert ((sendRequest (answering [mkEvent RESPONSE [doubly_wrong]]) opened
        "HistoricalData" (Str "XXX CN Equity") (Str "PX_LAS") ∅).1
     = Raised (RequestError (Array "fieldExceptions" [bad_field]) "Field Error"))
    as H' by reflexivity.
  rewrite H in H'. simpl in H'. discriminate.
Qed.

(** ** The connection *)

(** C9.  [open] on an active object and [close] on an inactive one return
    and change nothing; a call of [open] that returns leaves the object
    active, a call of [close] that returns leaves it inactive. *)
Theorem open_close_idempotent net self :
  (active self = true -> open net self = (Returned tt, self))
  /\ (active self = false -> close self = (Returned tt, self))
  /\ (forall self', open net self = (Returned tt, self') ->
        active self' = true
        /\ open net self' = (Returned tt, self'))
  /\ (forall self', close self = (Returned tt, self') ->
        active self' = false
        /\ close self' = (Returned tt, self')).
Proof.
  unfold open, close. repeat split.
  - by intros ->.
  - by intros ->.
  - destruct (active self) eqn:Ha; simpl in *.
    + by injection H as <-.
    + destruct (connects net (host self) (port self)
                && opens net "//BLP/refdata"); [|done].
      by injection H as <-.
  - destruct (active self) eqn:Ha; simpl in *.
    + injection H as <-. by rewrite Ha.
    + destruct (connects net (host self) (port self)
                && opens net "//BLP/refdata"); [|done].
      by injection H as <-.
  - destruct (active self) eqn:Ha; simpl in *.
    + destruct (session self); [|done]. by injection H as <-.
    + by injection H as <-.
  - destruct (active self) eqn:Ha; simpl in *.
    + destruct (session self); [|done]. by injection H as <-.
    + injection H as <-. by rewrite Ha.
Qed.

(** [open] returns whenever the far end can be reached and has the
    service, and then the session runs. *)
Lemma open_connects net self :
  connects net (host self) (port self) = true ->
  opens net "//BLP/refdata" = true ->
  exists self', open net self = (Returned tt, self') /\ active self' = true.
Proof.
  intros Hc Ho. unfold open. destruct (active self) eqn:Ha; simpl.
  - eauto.
  - rewrite Hc, Ho. eauto.
Qed.

(** [close] returns on every object that [open] or [init] produced. *)
Lemma close_returns self :
  (active self = true -> is_Some (session self)) ->
  exists self', close self = (Returned tt, self') /\ active self' = false.
Proof.
  intros Hinv. unfold close. destruct (active self) eqn:Ha; simpl.
  - destruct (Hinv eq_refl) as [s ->]. eauto.
  - eauto.
Qed.

(** ** [historicalRequest]: the options *)

Lemma update_lookup (d other : gmap string Value) k :
  update d other !! k =
  match other !! k with Some v => Some v | None => d !! k end.
Proof.
  unfold update. rewrite lookup_union.
  destruct (other !! k), (d !! k); reflexivity.
Qed.

(** The dict literal: nine entries, no other. *)
Lemma defaults_lookup startDate endDate :
  let d := defaults startDate endDate in
  d !! "startDate" = Some startDate
  /\ d !! "endDate" = Some endDate
  /\ d !! "periodicityAdjustment" = Some (VStr "ACTUAL")
  /\ d !! "periodicitySelection" = Some (VStr "DAILY")
  /\ d !! "nonTradingDayFillOption" = Some (VStr "ACTIVE_DAYS_ONLY")
  /\ d !! "adjustmentSplit" = Some (VBool true)
  /\ d !! "adjustmentNormal" = Some (VBool false)
  /\ d !! "adjustmentAbnormal" = Some (VBool false)
  /\ d !! "adjustmentFollowDPDF" = Some (VBool false)
  /\ (forall k,
        k ∉ ["startDate"; "endDate"; "periodicityAdjustment";
             "periodicitySelection"; "nonTradingDayFillOption";
             "adjustmentNormal"; "adjustmentAbnormal"; "adjustmentSplit";
             "adjustmentFollowDPDF"] ->
        d !! k = None).
Proof.
  simpl. repeat split; try reflexivity.
  intros k Hk. unfold defaults. by apply not_elem_of_list_to_map_1.
Qed.

(** C7.  On an open interface [historicalRequest] sends one request, for
    the operation [HistoricalDataRequest], whose options are the entries of
    the default dict with those of [kwargs] laid over them, each value
    serialized: a key of [kwargs] carries the caller's value; a key the
    caller did not give carries the default ([startDate], [endDate],
    ACTUAL, DAILY, ACTIVE_DAYS_ONLY, split adjustment on, the three other
    adjustments off); and nothing else is set. *)
Theorem history_options net self s svc securities fields startDate endDate
    (kwargs : gmap string Value) :
  refDataService self = Some svc -> session self = Some s ->
  started s = true ->
  exists s' request,
    session (historicalRequest net self securities fields startDate endDate
               kwargs).2 = Some s'
    /\ sent s' = sent s ++ [request]
    /\ operation request = "HistoricalDataRequest"
    /\ req_securities request = promote securities
    /\ req_fields request = promote fields
    /\ req_options request
       = serialize <$> (kwargs ∪ defaults startDate endDate)
    /\ (forall k v, kwargs !! k = Some v ->
          req_options request !! k = Some (serialize v))
    /\ (forall k, kwargs !! k = None ->
          req_options request !! k =
          if decide (k = "startDate") then Some (serialize startDate)
          else if decide (k = "endDate") then Some (serialize endDate)
          else if decide (k = "periodicityAdjustment")
               then Some (VStr "ACTUAL")
          else if decide (k = "periodicitySelection") then Some (VStr "DAILY")
          else if decide (k = "nonTradingDayFillOption")
               then Some (VStr "ACTIVE_DAYS_ONLY")
          else if decide (k = "adjustmentSplit") then Some (VBool true)
          else if decide (k = "adjustmentNormal") then Some (VBool false)
          else if decide (k = "adjustmentAbnormal") then Some (VBool false)
          else if decide (k = "adjustmentFollowDPDF") then Some (VBool false)
          else None).
Proof.
  intros Hsvc Hs Hst. unfold historicalRequest.
  rewrite (sendRequest_open _ _ _ _ _ _ _ _ Hsvc Hs Hst). simpl.
  eexists _, _. split; [reflexivity|]. simpl. split; [reflexivity|].
  rewrite build_request_spec. simpl. repeat split.
  - intros k v Hk. rewrite lookup_fmap.
    fold (update (defaults startDate endDate) kwargs).
    by rewrite update_lookup, Hk.
  - intros k Hk. rewrite lookup_fmap.
    fold (update (defaults startDate endDate) kwargs).
    rewrite update_lookup, Hk.
    destruct (defaults_lookup startDate endDate)
      as (H1 & H2 & H3 & H4 & H5 & H6 & H7 & H8 & H9 & Hnone).
    simpl in *.
    repeat (case_decide; [subst k;
      first [by rewrite H1 | by rewrite H2 | by rewrite H3 | by rewrite H4
            | by rewrite H5 | by rewrite H6 | by rewrite H7 | by rewrite H8
            | by rewrite H9] |]).
    rewrite Hnone; [done|].
    rewrite !elem_of_cons, elem_of_nil.
    intros Hk'. repeat (destruct Hk' as [Hk'|Hk']; [congruence|]). done.
Qed.

Lemma history_options_witness :
  exists s' request,
    session (historicalRequest (answering []) opened (Str "TD CN Equity")
               (Str "PCT_CHG_INSIDER_HOLDINGS") (VDatetime end_2014)
               (VStr "20150131") sample_kwargs).2 = Some s'
    /\ sent s' = [request]
    /\ req_options request !! "periodicitySelection" = Some (VStr "WEEKLY")
    /\ req_options request !! "periodicityAdjustment" = Some (VStr "ACTUAL")
    /\ req_options request !! "startDate" = Some (VStr "20141231").
Proof.
  destruct (history_options (answering []) opened (mkSession true [] [])
    "//BLP/refdata" (Str "TD CN Equity") (Str "PCT_CHG_INSIDER_HOLDINGS")
    (VDatetime end_2014) (VStr "20150131") sample_kwargs
    eq_refl eq_refl eq_refl)
    as (s' & request & H1 & H2 & _ & _ & _ & _ & H7 & H8).
  exists s', request. split; [exact H1|]. split; [exact H2|].
  repeat split.
  - exact (H7 "periodicitySelection" (VStr "WEEKLY") eq_refl).
  - exact (H8 "periodicityAdjustment" eq_refl).
  - exact (H8 "startDate" eq_refl).
Defined.

(** ** [referenceRequest] *)

Lemma all_messages_cons ev (q : list Event) :
  all_messages (ev :: q) = messages ev ++ all_messages q.
Proof. reflexivity. Qed.

Lemma all_messages_app (q1 q2 : list Event) :
  all_messages (q1 ++ q2) = all_messages q1 ++ all_messages q2.
Proof. unfold all_messages. apply bind_app. Qed.

Lemma quiet_messages (q : list Event) :
  Forall quiet q ->
  Forall (fun ev => eventType ev <> RESPONSE) q
  /\ Forall clean (all_messages q)
  /\ filter (fun m => messageType m = "ReferenceDataResponse")
       (all_messages q) = [].
Proof.
  induction 1 as [|ev q [Hty Hms] Hq (IH1 & IH2 & IH3)].
  - by repeat split.
  - rewrite all_messages_cons. repeat split.
    + by constructor.
    + apply Forall_app. split; [|done].
      eapply Forall_impl; [exact Hms|]. by intros m [? ?].
    + rewrite filter_app, IH3, app_nil_r.
      clear -Hms. induction Hms as [|m ms [_ Hm] _ IH]; [done|].
      rewrite filter_cons. by case_decide.
Qed.

(** C2.  A reference request for one security and one field that the
    service does not know for it (the field comes back among the
    [fieldExceptions] of the security's entry, which carries no field
    data) returns, and what it returns is the empty table: no error is
    raised for the field. *)
Theorem unknown_field_is_silent net self s svc security field
    (kwargs : gmap string Value) exceptions :
  refDataService self = Some svc -> session self = Some s ->
  started s = true ->
  Forall quiet (queue s) ->
  serve net (build_request "ReferenceData" (Str security) (Str field) kwargs)
    = unknown_field_reply security exceptions ->
  (referenceRequest net self (Str security) (Str field) kwargs).1
    = Returned (Table pd.DataFrame_new).
Proof.
  intros Hsvc Hs Hst Hquiet Hserve.
  apply quiet_messages in Hquiet as (Hpre & Hclean & Hnone).
  unfold referenceRequest.
  rewrite (sendRequest_open _ _ _ _ _ _ _ _ Hsvc Hs Hst). simpl.
  rewrite Hserve. unfold unknown_field_reply.
  set (msg := reference_msg _).
  change ("ReferenceData" +:+ "Response") with "ReferenceDataResponse".
  assert (poll "ReferenceDataResponse" []
            (queue s ++ [mkEvent RESPONSE [msg]])
          = (Returned [msg], [])) as ->.
  { apply poll_returned. exists (queue s), (mkEvent RESPONSE [msg]).
    repeat split; try done.
    - rewrite all_messages_app. apply Forall_app.
      split; [done|]. by repeat constructor.
    - by rewrite all_messages_app, filter_app, Hnone. }
  reflexivity.
Qed.

Lemma unknown_field_is_silent_witness :
  (referenceRequest
     (answering (unknown_field_reply "BBD/B CN Equity" [bad_field]))
     opened (Str "BBD/B CN Equity") (Str "PX_LAS") ∅).1
  = Returned (Table pd.DataFrame_new).
Proof.
  apply (unknown_field_is_silent
    (answering (unknown_field_reply "BBD/B CN Equity" [bad_field]))
    opened (mkSession true [] []) "//BLP/refdata" "BBD/B CN Equity" "PX_LAS"
    ∅ [bad_field]); try reflexivity.
  constructor.
Defined.

(** ** Frames *)

Lemma pos_None l (ls : list pd.Label) : pd.pos l ls = None <-> l ∉ ls.
Proof.
  unfold pd.pos. rewrite fmap_None, list_find_None. rewrite Forall_forall.
  split.
  - intros H Hin. by apply (H l).
  - intros H x Hx ->. done.
Qed.

Lemma pos_Some l (ls : list pd.Label) i :
  pd.pos l ls = Some i -> ls !! i = Some l.
Proof.
  unfold pd.pos. intros H. apply fmap_Some in H as ([j x] & Hfind & ->).
  apply list_find_Some in Hfind as (Hl & -> & _). done.
Qed.

Lemma pos_elem_of l (ls : list pd.Label) :
  l ∈ ls -> exists i, pd.pos l ls = Some i.
Proof.
  intros Hin. destruct (pd.pos l ls) as [i|] eqn:Hp; [eauto|].
  apply pos_None in Hp. done.
Qed.

(** Giving the columns their dtype leaves the shape alone and changes a
    cell only from an int to its float64. *)
Lemma upcast_length vals : length (pd.upcast vals) = length vals.
Proof. unfold pd.upcast. by rewrite length_fmap. Qed.

Lemma upcast_rows (P : nat -> Prop) vals :
  Forall (fun row => P (length row)) vals ->
  Forall (fun row => P (length row)) (pd.upcast vals).
Proof.
  unfold pd.upcast. intros H. apply Forall_fmap.
  eapply Forall_impl; [exact H|]. intros row Hrow. simpl.
  by rewrite length_imap.
Qed.

Lemma get2_upcast vals i j :
  get2 (pd.upcast vals) i j
  = if pd.float_column (pd.column vals j) then pd.as_float64 (get2 vals i j)
    else get2 vals i j.
Proof.
  unfold get2, pd.upcast. rewrite list_lookup_fmap.
  destruct (vals !! i) as [row|]; simpl.
  - rewrite list_lookup_imap. destruct (row !! j); simpl; [done|].
    by destruct (pd.float_column _).
  - by destruct (pd.float_column _).
Qed.

(** An int of up to 53 bits is its own float64; a longer one is
    rounded. *)
Lemma float64_of_int_exact z :
  (Z.abs z < 2 ^ 53)%Z -> pd.float64_of_int z = inject_Z z.
Proof.
  intros Hz. unfold pd.float64_of_int.
  assert (Z.log2 (Z.abs z) - 52 <= 0)%Z as Hdrop.
  { destruct (decide (Z.abs z = 0%Z)) as [->|Hne]; [simpl; lia|].
    assert (Z.log2 (Z.abs z) < 53)%Z; [|lia].
    apply Z.log2_lt_pow2; lia. }
  apply Z.leb_le in Hdrop. by rewrite Hdrop.
Qed.

Example float64_of_int_rounds :
  pd.float64_of_int (2 ^ 53 + 1) = inject_Z (2 ^ 53).
Proof. reflexivity. Qed.

Lemma ix_set_index df r c v :
  pd.labels (pd.index (pd.ix_set df r c v))
  = add_label (pd.labels (pd.index df)) [r].
Proof.
  unfold pd.ix_set, add_label.
  destruct (pd.pos [r] (pd.labels (pd.index df))) as [i|] eqn:Hr;
    destruct (pd.pos [c] (pd.labels (pd.columns df))) as [j|] eqn:Hc; simpl;
    case_decide as Hin; try done.
  - apply pos_Some, list_elem_of_lookup_2 in Hr. done.
  - apply pos_Some, list_elem_of_lookup_2 in Hr. done.
  - apply pos_None in Hr. done.
  - apply pos_None in Hr. done.
Qed.

Lemma ix_set_columns df r c v :
  pd.labels (pd.columns (pd.ix_set df r c v))
  = add_label (pd.labels (pd.columns df)) [c].
Proof.
  unfold pd.ix_set, add_label.
  destruct (pd.pos [r] (pd.labels (pd.index df))) as [i|] eqn:Hr;
    destruct (pd.pos [c] (pd.labels (pd.columns df))) as [j|] eqn:Hc; simpl;
    case_decide as Hin; try done.
  - apply pos_Some, list_elem_of_lookup_2 in Hc. done.
  - apply pos_None in Hc. done.
  - apply pos_Some, list_elem_of_lookup_2 in Hc. done.
  - apply pos_None in Hc. done.
Qed.

Lemma ix_set_names df r c v :
  pd.names (pd.index (pd.ix_set df r c v)) = pd.names (pd.index df)
  /\ pd.names (pd.columns (pd.ix_set df r c v)) = pd.names (pd.columns df).
Proof.
  unfold pd.ix_set.
  destruct (pd.pos [r] (pd.labels (pd.index df)));
    destruct (pd.pos [c] (pd.labels (pd.columns df))); done.
Qed.

Lemma add_label_NoDup ls l : NoDup ls -> NoDup (add_label ls l).
Proof.
  intros H. unfold add_label. case_decide; [done|].
  apply NoDup_app. repeat split; [done| |apply NoDup_singleton].
  intros x Hx Hx'. apply list_elem_of_singleton in Hx'. by subst.
Qed.

Lemma add_label_elem_of ls l x : x ∈ add_label ls l <-> x ∈ ls \/ x = l.
Proof.
  unfold add_label. case_decide.
  - split; [by left|]. intros [?| ->]; done.
  - rewrite elem_of_app, list_elem_of_singleton. done.
Qed.

Lemma add_label_length ls l : 0 < length (add_label ls l).
Proof.
  unfold add_label. case_decide as H.
  - destruct ls; [by apply elem_of_nil in H|simpl; lia].
  - rewrite length_app. simpl. lia.
Qed.

Lemma ix_set_nonempty df r c v : pd.empty (pd.ix_set df r c v) = false.
Proof.
  unfold pd.empty, pd.nrows, pd.ncols.
  rewrite ix_set_index, ix_set_columns.
  pose proof (add_label_length (pd.labels (pd.index df)) [r]).
  pose proof (add_label_length (pd.labels (pd.columns df)) [c]).
  apply orb_false_iff. split; apply Nat.eqb_neq; lia.
Qed.

Lemma ix_set_well_formed df r c v :
  well_formed df -> well_formed (pd.ix_set df r c v).
Proof.
  unfold well_formed, pd.nrows, pd.ncols. intros [Hrows Hcols].
  unfold pd.ix_set.
  destruct (pd.pos [r] (pd.labels (pd.index df))) as [i|] eqn:Hr;
    destruct (pd.pos [c] (pd.labels (pd.columns df))) as [j|] eqn:Hc; simpl.
  - split; [by rewrite length_alter|].
    apply Forall_alter; [done|]. intros row Hrow.
    rewrite length_insert. by eapply Forall_lookup_1 in Hcols.
  - split; [by rewrite length_alter, length_fmap|].
    rewrite length_app. simpl.
    apply Forall_alter.
    + apply Forall_fmap. eapply Forall_impl; [exact Hcols|].
      intros row Hrow. simpl in *. rewrite length_app. simpl. lia.
    + intros row Hrow. rewrite length_insert.
      apply list_lookup_fmap_Some in Hrow as (row' & -> & Hrow').
      eapply Forall_lookup_1 in Hcols; [|exact Hrow'].
      rewrite length_app. simpl. lia.
  - split; [rewrite length_alter, !length_app; simpl; lia|].
    apply Forall_alter.
    + apply Forall_app. split; [done|].
      constructor; [|done]. by rewrite length_replicate.
    + intros row Hrow. rewrite length_insert.
      assert (Forall (fun row => length row = length (pd.labels (pd.columns df)))
                (pd.values df ++ [replicate (length (pd.labels (pd.columns df))) VNaN]))
        as Hall.
      { apply Forall_app. split; [done|].
        constructor; [|done]. by rewrite length_replicate. }
      by eapply Forall_lookup_1 in Hall.
  - split; [rewrite length_alter, length_fmap, !length_app; simpl; lia|].
    rewrite length_app. simpl.
    assert (Forall (fun row => length row = length (pd.labels (pd.columns df)) + 1)
      ((fun row => row ++ [VNaN]) <$>
         pd.values df ++ [replicate (length (pd.labels (pd.columns df))) VNaN]))
      as Hall.
    { apply Forall_fmap, Forall_app. split.
      - eapply Forall_impl; [exact Hcols|].
        intros row Hrow. simpl in *. rewrite length_app. simpl. lia.
      - constructor; [|done]. simpl.
        rewrite length_app, length_replicate. simpl. lia. }
    apply Forall_alter; [done|].
    intros row Hrow. rewrite length_insert.
    by eapply Forall_lookup_1 in Hall.
Qed.

Lemma DataFrame_new_plain : plain pd.DataFrame_new.
Proof.
  repeat split; try done; try apply NoDup_nil_2. by left.
Qed.

Lemma ix_set_plain df r c v : plain df -> plain (pd.ix_set df r c v).
Proof.
  intros (Hwf & Hni & Hnc & Hdi & Hdc & _).
  destruct (ix_set_names df r c v) as [Hn1 Hn2].
  repeat split.
  - by apply ix_set_well_formed.
  - by apply ix_set_well_formed.
  - congruence.
  - congruence.
  - rewrite ix_set_index. by apply add_label_NoDup.
  - rewrite ix_set_columns. by apply add_label_NoDup.
  - right. apply ix_set_nonempty.
Qed.

(** ** Loops *)

Lemma bind_assoc {A B C : Type} (m : Outcome A) (f : A -> Outcome B)
    (g : B -> Outcome C) :
  (m ≫= f) ≫= g = m ≫= (fun a => f a ≫= g).
Proof. by destruct m. Qed.

Lemma bind_ext {A B : Type} (m : Outcome A) (f g : A -> Outcome B) :
  (forall a, f a = g a) -> m ≫= f = m ≫= g.
Proof. intros H. destruct m; simpl; [apply H|done|done]. Qed.

Lemma for_each_ext {A B : Type} (f g : B -> A -> Outcome B) acc xs :
  (forall b x, f b x = g b x) -> for_each f acc xs = for_each g acc xs.
Proof.
  intros H. revert acc. induction xs as [|x xs IH]; intros acc; simpl; [done|].
  rewrite H. by apply bind_ext.
Qed.

Lemma for_each_app {A B : Type} (f : B -> A -> Outcome B) acc xs ys :
  for_each f acc (xs ++ ys) = for_each f acc xs ≫= (fun b => for_each f b ys).
Proof.
  revert acc. induction xs as [|x xs IH]; intros acc; simpl; [done|].
  rewrite bind_assoc. by apply bind_ext.
Qed.

(** A loop that computes something from each item and folds it into the
    accumulator is the extraction of all the items followed by the fold. *)
Lemma for_each_mapM {A B C : Type} (f : A -> Outcome C) (g : B -> C -> B)
    acc xs :
  for_each (fun b x => y ← f x; Returned (g b y)) acc xs
  = ys ← pd.mapM f xs; Returned (foldl g acc ys).
Proof.
  revert acc. induction xs as [|x xs IH]; intros acc; simpl; [done|].
  rewrite !bind_assoc. apply bind_ext. intros y. simpl.
  rewrite IH, bind_assoc. by apply bind_ext.
Qed.

Lemma foldl_concat {B C : Type} (g : B -> C -> B) acc (yss : list (list C)) :
  foldl (foldl g) acc yss = foldl g acc (concat yss).
Proof.
  revert acc. induction yss as [|ys yss IH]; intros acc; simpl; [done|].
  by rewrite foldl_app, IH.
Qed.

Lemma for_each_nested {A B C : Type} (F : A -> Outcome (list C))
    (g : B -> C -> B) acc xs :
  for_each (fun b x => ys ← F x; Returned (foldl g b ys)) acc xs
  = yss ← pd.mapM F xs; Returned (foldl g acc (concat yss)).
Proof.
  rewrite (for_each_mapM F (foldl g)). apply bind_ext. intros yss.
  by rewrite foldl_concat.
Qed.

Lemma for_each_invariant {A B : Type} (P : B -> Prop)
    (body : B -> A -> Outcome B) xs acc r :
  (forall b x b', x ∈ xs -> P b -> body b x = Returned b' -> P b') ->
  P acc -> for_each body acc xs = Returned r -> P r.
Proof.
  revert acc. induction xs as [|x xs IH]; intros acc Hstep Hacc; simpl.
  - by intros [= <-].
  - destruct (body acc x) as [b| |] eqn:Hb; simpl; try done.
    apply IH.
    + intros b0 x0 b' Hx0. apply Hstep. by right.
    + eapply Hstep; [|exact Hacc|exact Hb]. by left.
Qed.

Lemma mapM_Returned_length {A B : Type} (f : A -> Outcome B) xs ys :
  pd.mapM f xs = Returned ys -> length ys = length xs.
Proof.
  revert ys. induction xs as [|x xs IH]; intros ys; simpl.
  - by intros [= <-].
  - destruct (f x); simpl; try done.
    destruct (pd.mapM f xs); simpl; try done.
    intros [= <-]. simpl. f_equal. by apply IH.
Qed.

Lemma mapM_Returned_Forall2 {A B : Type} (f : A -> Outcome B) xs ys :
  pd.mapM f xs = Returned ys <-> Forall2 (fun x y => f x = Returned y) xs ys.
Proof.
  revert ys. induction xs as [|x xs IH]; intros ys; simpl.
  - split.
    + intros [= <-]. constructor.
    + intros H. by apply Forall2_nil_inv_l in H as ->.
  - split.
    + destruct (f x) as [y| |] eqn:Hy; simpl; try done.
      destruct (pd.mapM f xs) as [ys'| |] eqn:Hys; simpl; try done.
      intros [= <-]. constructor; [done|]. by apply IH.
    + intros H. apply Forall2_cons_inv_l in H as (y & ys' & Hy & Hys & ->).
      rewrite Hy. simpl. apply IH in Hys. rewrite Hys. done.
Qed.

(** ** Reading elements *)

Lemma collect_lookup {A : Type} (l : list A) (e : Exn) start n :
  start + n = length l ->
  collect (fun i => match l !! i with
                    | Some x => Returned x
                    | None => Raised e
                    end) start n
  = Returned (drop start l).
Proof.
  revert start. induction n as [|n IH]; intros start Hlen; simpl.
  - by rewrite drop_ge by lia.
  - destruct (l !! start) as [x|] eqn:Hx.
    + simpl. rewrite IH by lia. simpl.
      by rewrite (drop_S _ _ _ Hx).
    + apply lookup_ge_None in Hx. lia.
Qed.

Lemma elements_of_Sequence nm es : elements_of (Sequence nm es) = Returned es.
Proof.
  exact (collect_lookup es (OtherError "IndexOutOfRangeException") 0
           (length es) eq_refl).
Qed.

Lemma elements_of_other e :
  (forall nm es, e <> Sequence nm es) -> elements_of e = Returned [].
Proof. intros H. destruct e; try done. by destruct (H nm elems). Qed.

Lemma values_of_Array nm vs : values_of (Array nm vs) = Returned vs.
Proof.
  exact (collect_lookup vs (OtherError "IndexOutOfRangeException") 0
           (length vs) eq_refl).
Qed.

Lemma values_of_other e :
  (forall nm vs, e <> Array nm vs) -> values_of e = Returned [e].
Proof. intros H. destruct e; try done. by destruct (H nm vals). Qed.

(** The two list comprehensions never raise. *)
Lemma elements_of_returns e : exists es, elements_of e = Returned es.
Proof.
  destruct e; [by exists [] | | by exists []].
  eexists. apply elements_of_Sequence.
Qed.

Lemma values_of_returns e : exists vs, values_of e = Returned vs.
Proof.
  destruct e; [by eexists | by eexists |].
  eexists. apply values_of_Array.
Qed.

(** ** The reference table *)

Lemma reference_security_cells data sec :
  reference_security data sec
  = cells ← entry_cells sec; Returned (foldl store data cells).
Proof.
  unfold reference_security, entry_cells.
  rewrite !bind_assoc. apply bind_ext. intros fieldData.
  rewrite !bind_assoc. apply bind_ext. intros flds.
  rewrite <- (for_each_mapM (reference_cell_of sec) store).
  apply for_each_ext. intros b fld.
  unfold reference_cell, reference_cell_of.
  rewrite !bind_assoc. apply bind_ext. intros x.
  rewrite !bind_assoc. apply bind_ext. by intros s.
Qed.

Lemma reference_message_cells data msg :
  reference_message data msg
  = cells ← message_cells msg; Returned (foldl store data cells).
Proof.
  unfold reference_message, message_cells.
  rewrite !bind_assoc. apply bind_ext. intros securityData.
  rewrite !bind_assoc. apply bind_ext. intros secs.
  rewrite (for_each_ext _ _ _ _ (fun b x => reference_security_cells b x)).
  rewrite for_each_nested. rewrite bind_assoc. done.
Qed.

(** The table [referenceRequest] builds is the cells of the response
    stored one after the other into an empty frame. *)
Lemma reference_table_cells response :
  reference_table response
  = cells ← reference_cells response;
    Returned (foldl store pd.DataFrame_new cells).
Proof.
  unfold reference_table, reference_cells.
  rewrite (for_each_ext _ _ _ _ (fun b x => reference_message_cells b x)).
  rewrite for_each_nested. rewrite bind_assoc. done.
Qed.

Lemma foldl_store_plain cells df : plain df -> plain (foldl store df cells).
Proof.
  revert df. induction cells as [|c cells IH]; intros df H; simpl; [done|].
  apply IH. by apply ix_set_plain.
Qed.

Lemma foldl_store_index cells df :
  pd.labels (pd.index (foldl store df cells))
  = foldl add_label (pd.labels (pd.index df)) ((fun c => [c.1.1]) <$> cells).
Proof.
  revert df. induction cells as [|c cells IH]; intros df; simpl; [done|].
  rewrite IH. unfold store. by rewrite ix_set_index.
Qed.

Lemma foldl_store_columns cells df :
  pd.labels (pd.columns (foldl store df cells))
  = foldl add_label (pd.labels (pd.columns df))
      ((fun c => [c.1.2]) <$> cells).
Proof.
  revert df. induction cells as [|c cells IH]; intros df; simpl; [done|].
  rewrite IH. unfold store. by rewrite ix_set_columns.
Qed.

Lemma reference_table_plain response data :
  reference_table response = Returned data -> plain data.
Proof.
  rewrite reference_table_cells.
  destruct (reference_cells response) as [cells| |]; simpl; try done.
  intros [= <-]. apply foldl_store_plain, DataFrame_new_plain.
Qed.

(** The first cell of a frame that is not empty can be read. *)
Lemma iloc_first df :
  well_formed df -> pd.empty df = false ->
  exists v, pd.iloc df 0 0 = Returned v.
Proof.
  unfold well_formed, pd.empty, pd.nrows, pd.ncols, pd.iloc.
  intros [Hrows Hcols] Hne. apply orb_false_iff in Hne as [Hr Hc].
  apply Nat.eqb_neq in Hr, Hc.
  destruct (pd.values df) as [|row rows]; simpl in *; [lia|].
  apply Forall_cons in Hcols as [Hrow _].
  destruct row as [|v row]; simpl in *; [lia|]. eauto.
Qed.

Lemma is_empty_plain df :
  plain df -> pd.empty df = true -> df = pd.DataFrame_new.
Proof. intros (_ & _ & _ & _ & _ & [H|H]) He; [done|congruence]. Qed.

(** C1.  When the call has its messages and the table is built:
    an empty table is returned as it is (and is [DataFrame()]); a table
    that is not empty is returned as its first cell, a bare value, when
    [securities] and [fields] were both given as [str], and as the table
    otherwise, even for collections of one.  The table has one row per
    security and one column per field name of the response, in order of
    first appearance, the axes named Security and Field.  When the
    response holds one value, the bare value is that value as the new
    column holds it: an int as the float64 nearest to it, any other value
    as it is. *)
Theorem reference_result_shape net self securities fields kwargs response
    self' data :
  sendRequest net self "ReferenceData" securities fields kwargs
    = (Returned response, self') ->
  reference_table response = Returned data ->
  exists r cells,
    referenceRequest net self securities fields kwargs = (Returned r, self')
    /\ reference_cells response = Returned cells
    /\ pd.labels (pd.index data)
       = foldl add_label [] ((fun c => [c.1.1]) <$> cells)
    /\ pd.labels (pd.columns data)
       = foldl add_label [] ((fun c => [c.1.2]) <$> cells)
    /\ if pd.empty data then data = pd.DataFrame_new /\ r = Table data
       else if is_str securities && is_str fields
       then exists v, pd.iloc data 0 0 = Returned v /\ r = Bare v
                      /\ (forall c, cells = [c] -> v = pd.as_float64 c.2)
       else exists df,
            r = Table df
            /\ pd.index df
               = pd.mkIndex [Some "Security"] (pd.labels (pd.index data))
            /\ pd.columns df
               = pd.mkIndex [Some "Field"] (pd.labels (pd.columns data))
            /\ pd.values df = pd.values data
            /\ NoDup (pd.labels (pd.index df))
            /\ NoDup (pd.labels (pd.columns df))
            /\ well_formed df.
Proof.
  intros Hsend Htable.
  pose proof (reference_table_plain _ _ Htable) as Hplain.
  pose proof Htable as Hcells. rewrite reference_table_cells in Hcells.
  destruct (reference_cells response) as [cells| |] eqn:Hc; simpl in Hcells;
    try done.
  injection Hcells as Hdata.
  unfold referenceRequest. rewrite Hsend. simpl. rewrite Htable. simpl.
  unfold reference_result.
  destruct (pd.empty data) eqn:Hempty.
  - exists (Table data), cells. repeat split; try done.
    + rewrite <- Hdata. apply foldl_store_index.
    + rewrite <- Hdata. apply foldl_store_columns.
    + by apply is_empty_plain.
  - destruct Hplain as (Hwf & Hni & Hnc & Hdi & Hdc & _).
    destruct (is_str securities && is_str fields) eqn:Hstr.
    + destruct (iloc_first data Hwf Hempty) as [v Hv].
      assert (pd.iloc
                (pd.set_columns_name "Field"
                   (pd.set_index_name "Security" data)) 0 0 = Returned v)
        as Hv' by exact Hv.
      rewrite Hv'. simpl.
      exists (Bare v), cells. repeat split; try done.
      * rewrite <- Hdata. apply foldl_store_index.
      * rewrite <- Hdata. apply foldl_store_columns.
      * exists v. repeat split; try done.
        intros c ->. simpl in Hdata. subst data.
        destruct c as [[r0 c0] x]. unfold store, pd.ix_set, pd.iloc in Hv.
        simpl in Hv. by injection Hv as <-.
    + eexists _, cells. split; [reflexivity|]. repeat split; try done.
      * rewrite <- Hdata. apply foldl_store_index.
      * rewrite <- Hdata. apply foldl_store_columns.
      * eexists. split; [reflexivity|].
        unfold pd.set_columns_name, pd.set_index_name, pd.set_name.
        cbn [pd.index pd.columns pd.values pd.labels pd.names].
        rewrite Hni, Hnc. cbn [tail].
        repeat split; try done; apply Hwf.
Qed.

(** Whenever [referenceRequest] returns, the call had its messages and the
    table was built. *)
Lemma referenceRequest_returned net self securities fields kwargs r self' :
  referenceRequest net self securities fields kwargs = (Returned r, self') ->
  exists response data,
    sendRequest net self "ReferenceData" securities fields kwargs
      = (Returned response, self')
    /\ reference_table response = Returned data.
Proof.
  unfold referenceRequest.
  destruct (sendRequest net self "ReferenceData" securities fields kwargs)
    as [[response| |] self1]; simpl; try done.
  destruct (reference_table response) as [data| |] eqn:Ht; simpl; try done.
  intros [= _ <-]. by exists response, data.
Qed.

Lemma reference_result_shape_witness :
  exists r cells,
    referenceRequest (answering sector_reply) opened (Str "BBD/B CN Equity")
      (Str "GICS_SECTOR") ∅
    = (Returned r,
       with_session opened
         (mkSession true
            [build_request "ReferenceData" (Str "BBD/B CN Equity")
               (Str "GICS_SECTOR") ∅] []))
    /\ reference_cells (all_messages sector_reply) = Returned cells
    /\ r = Bare (VStr "Industrials").
Proof.
  destruct (reference_result_shape (answering sector_reply) opened
    (Str "BBD/B CN Equity") (Str "GICS_SECTOR") ∅
    (all_messages sector_reply)
    (with_session opened
       (mkSession true
          [build_request "ReferenceData" (Str "BBD/B CN Equity")
             (Str "GICS_SECTOR") ∅] []))
    (pd.ix_set pd.DataFrame_new (VStr "BBD/B CN Equity") (VStr "GICS_SECTOR")
       (VStr "Industrials"))
    eq_refl eq_refl) as (r & cells & H1 & H2 & _ & _ & H5).
  exists r, cells. split; [exact H1|]. split; [exact H2|].
  simpl in H5. destruct H5 as (v & _ & -> & Hv).
  f_equal. apply (Hv (VStr "BBD/B CN Equity", VStr "GICS_SECTOR",
                       VStr "Industrials")).
  vm_compute in H2. injection H2 as <-. reflexivity.
Defined.

(** An int asked for by two [str] arguments comes back as a float. *)
Example reference_int_comes_back_float :
  (referenceRequest (answering volume_reply) opened (Str "BBD/B CN Equity")
     (Str "VOLUME") ∅).1
  = Returned (Bare (VFloat (inject_Z 7))).
Proof. reflexivity. Qed.

(** ** The history frames *)


Lemma foldl_add_label_NoDup acc ls :
  NoDup acc -> NoDup (foldl add_label acc ls).
Proof.
  revert acc. induction ls as [|l ls IH]; intros acc H; simpl; [done|].
  apply IH. by apply add_label_NoDup.
Qed.

Lemma foldl_add_label_elem_of acc ls x :
  x ∈ foldl add_label acc ls <-> x ∈ acc \/ x ∈ ls.
Proof.
  revert acc. induction ls as [|l ls IH]; intros acc; simpl.
  - rewrite elem_of_nil. tauto.
  - rewrite IH, add_label_elem_of, elem_of_cons. tauto.
Qed.















#[local] Instance date_label_inj : Inj (=) (=) date_label.
Proof. by intros x y [= ->]. Qed.



(** ** Joining frames *)






Lemma align_returns {X : Type} target own (fill : X) xs :
  NoDup own -> exists ys, pd.align target own fill xs = Returned ys.
Proof.
  intros H. unfold pd.align.
  destruct (decide (own = target)); [eauto|].
  rewrite decide_True by done. eauto.
Qed.

Lemma mapM_returns {A B : Type} (f : A -> Outcome B) xs :
  Forall (fun x => exists y, f x = Returned y) xs ->
  exists ys, pd.mapM f xs = Returned ys.
Proof.
  induction 1 as [|x xs [y Hy] _ [ys Hys]]; simpl; [eauto|].
  rewrite Hy. simpl. rewrite Hys. simpl. eauto.
Qed.

(** Frames whose row axes have no label twice can be laid side by
    side. *)
Lemma concat_cells1_returns target objs :
  Forall (fun df => NoDup (pd.labels (pd.index df))) objs ->
  exists cells, pd.concat_cells1 target objs = Returned cells.
Proof.
  intros H. unfold pd.concat_cells1.
  destruct (mapM_returns
    (fun df => pd.align target (pd.labels (pd.index df))
                 (replicate (pd.ncols df) VNaN) (pd.values df)) objs)
    as [blocks Hb].
  { eapply Forall_impl; [exact H|]. intros df Hdf. by apply align_returns. }
  rewrite Hb. simpl. eauto.
Qed.

Lemma common_names_same (ns : list (list (option string))) n :
  Forall (fun m => m = n) ns -> ns <> [] -> pd.common_names ns = n.
Proof.
  intros H Hne. destruct ns as [|m rest]; [done|].
  apply Forall_cons in H as [-> Hrest]. simpl.
  by rewrite decide_True.
Qed.

Lemma keyed_labels_frames (frames : list (string * pd.DataFrame))
    (axis : pd.DataFrame -> list pd.Label) :
  pd.keyed_labels frames.*1 ((fun kf => axis kf.2) <$> frames)
  = frames ≫= (fun kf => (fun l => VStr kf.1 :: l) <$> axis kf.2).
Proof.
  unfold pd.keyed_labels.
  induction frames as [|[k f] frames IH]; [done|].
  rewrite !fmap_cons. cbn [zip zip_with]. rewrite !bind_cons.
  by rewrite IH.
Qed.

Lemma history_steps response :
  for_each history_step ([], []) response
  = frames ← pd.mapM history_fragment response;
    Returned (frames.*1, frames.*2).
Proof.
  rewrite (for_each_ext history_step
    (fun b msg => kf ← history_fragment msg;
                  Returned (b.1 ++ [kf.1], b.2 ++ [kf.2]))).
  2:{ intros b msg. unfold history_step. apply bind_ext. by intros [k f]. }
  rewrite (for_each_mapM history_fragment
    (fun (b : list string * list pd.DataFrame) kf =>
       (b.1 ++ [kf.1], b.2 ++ [kf.2]))).
  apply bind_ext. intros frames. f_equal.
  assert (forall (acc : list string * list pd.DataFrame),
    foldl (fun b (kf : string * pd.DataFrame) =>
             (b.1 ++ [kf.1], b.2 ++ [kf.2])) acc frames
    = (acc.1 ++ frames.*1, acc.2 ++ frames.*2)) as H; [|apply H].
  induction frames as [|kf frames IH]; intros acc; simpl.
  - rewrite !app_nil_r. by destruct acc.
  - rewrite IH. simpl. by rewrite <- !app_assoc.
Qed.

Lemma concat_axis1_inv objs j :
  pd.concat_axis1 objs = Returned j ->
  pd.index j
  = pd.mkIndex (pd.common_names ((fun df => pd.names (pd.index df)) <$> objs))
      (pd.union_all ((fun df => pd.labels (pd.index df)) <$> objs))
  /\ pd.columns j
     = pd.mkIndex
         (pd.common_names ((fun df => pd.names (pd.columns df)) <$> objs))
         (objs ≫= (fun df => pd.labels (pd.columns df))).
Proof.
  unfold pd.concat_axis1.
  destruct (pd.concat_cells1 _ objs); simpl; try done.
  by intros [= <-].
Qed.



Lemma bind_fmap_list {A B C : Type} (f : A -> B) (g : B -> list C)
    (l : list A) :
  (f <$> l) ≫= g = l ≫= (fun x => g (f x)).
Proof.
  induction l as [|x l IH]; [done|].
  by rewrite fmap_cons, !bind_cons, IH.
Qed.

(** ** The order of dates *)

Lemma lex_leb_total a b : pd.lex_leb a b = true \/ pd.lex_leb b a = true.
Proof.
  revert b. induction a as [|x a IH]; intros b; [by left|].
  destruct b as [|y b]; [by right|]. simpl.
  destruct (Nat.ltb_spec x y); [by left|].
  destruct (Nat.ltb_spec y x); [by right|].
  assert (x = y) as -> by lia. rewrite Nat.eqb_refl. simpl. apply IH.
Qed.

Lemma lex_leb_trans a b c :
  pd.lex_leb a b = true -> pd.lex_leb b c = true -> pd.lex_leb a c = true.
Proof.
  revert b c. induction a as [|x a IH]; intros b c; [done|].
  destruct b as [|y b]; [done|]. destruct c as [|z c]; [done|]. simpl.
  intros H1 H2. apply orb_true_iff in H1, H2. apply orb_true_iff.
  destruct H1 as [H1|H1], H2 as [H2|H2].
  - left. apply Nat.ltb_lt in H1, H2. apply Nat.ltb_lt. lia.
  - apply andb_true_iff in H2 as [H2 _]. apply Nat.eqb_eq in H2 as <-.
    by left.
  - apply andb_true_iff in H1 as [H1 _]. apply Nat.eqb_eq in H1 as ->.
    by left.
  - apply andb_true_iff in H1 as [H1 H1'], H2 as [H2 H2'].
    apply Nat.eqb_eq in H1 as ->. right. rewrite H2. simpl. by eapply IH.
Qed.



#[local] Instance datetime_lt_trans : Transitive datetime_lt.
Proof.
  intros x y z. unfold datetime_lt, pd.datetime_ltb, pd.datetime_leb.
  intros H1 H2. apply andb_true_iff in H1 as [H1 H1'], H2 as [H2 H2'].
  apply andb_true_iff. split; [by eapply lex_leb_trans|].
  apply negb_true_iff. apply negb_true_iff in H2'.
  destruct (pd.lex_leb (pd.datetime_key z) (pd.datetime_key x)) eqn:Hzx;
    [|done].
  by rewrite (lex_leb_trans _ _ _ Hzx H1) in H2'.
Qed.


Lemma default_order_total (r1 r2 : nat) (q1 q2 : Q) :
  (if r1 =? r2 then Qle_bool q1 q2 else r1 <? r2) = true
  \/ (if r2 =? r1 then Qle_bool q2 q1 else r2 <? r1) = true.
Proof.
  rewrite (Nat.eqb_sym r2 r1). destruct (Nat.eqb_spec r1 r2) as [->|Hne].
  - rewrite !Qle_bool_iff.
    destruct (Qlt_le_dec q1 q2); [left; by apply Qlt_le_weak|by right].
  - rewrite !Nat.ltb_lt. lia.
Qed.

Lemma value_leb_total x y :
  pd.value_leb x y = true \/ pd.value_leb y x = true.
Proof.
  destruct x, y; cbn [pd.value_leb]; try apply default_order_total.
  - apply String.leb_total.
  - apply lex_leb_total.
Qed.

Lemma label_leb_total a b :
  pd.label_leb a b = true \/ pd.label_leb b a = true.
Proof.
  revert b. induction a as [|x a IH]; intros b; [by left|].
  destruct b as [|y b]; [by right|]. simpl.
  destruct (decide (x = y)) as [->|Hne].
  - rewrite decide_True by done. apply IH.
  - rewrite (decide_False (P := y = x)) by congruence.
    apply value_leb_total.
Qed.

#[local] Instance label_leb_Total :
  Total (fun x y : pd.Label => pd.label_leb x y : Prop).
Proof.
  intros x y. destruct (label_leb_total x y) as [H|H]; rewrite H; simpl;
    auto.
Qed.








(** ** The bulk frames *)

Lemma bulk_field_records df fld :
  bulk_field df fld
  = records ← field_records fld; Returned (foldl pd.append df records).
Proof.
  unfold bulk_field, field_records.
  rewrite !bind_assoc. apply bind_ext. intros vs.
  apply (for_each_mapM bulk_record pd.append).
Qed.

(** The frame of a security entry holds the records of all of its fields,
    one row each, in order. *)
Lemma bulk_frame_records sec :
  bulk_frame sec
  = records ← entry_records sec;
    Returned (foldl pd.append pd.DataFrame_new records).
Proof.
  unfold bulk_frame, entry_records.
  rewrite !bind_assoc. apply bind_ext. intros fieldData.
  rewrite !bind_assoc. apply bind_ext. intros flds.
  rewrite (for_each_ext _ _ _ _ (fun b x => bulk_field_records b x)).
  rewrite for_each_nested. by rewrite bind_assoc.
Qed.

Lemma bulk_security_fragment acc sec :
  bulk_security acc sec
  = found ← bulk_fragment sec; Returned (keep acc found).
Proof.
  unfold bulk_security, bulk_fragment.
  rewrite !bind_assoc. apply bind_ext. intros df.
  destruct (negb (pd.empty df)); [|done].
  rewrite !bind_assoc. apply bind_ext. intros key.
  rewrite !bind_assoc. apply bind_ext. intros c.
  rewrite !bind_assoc. apply bind_ext. by intros fragment.
Qed.

Lemma foldl_keep acc (found : list (option (string * pd.DataFrame))) :
  foldl keep acc found
  = (acc.1 ++ (omap id found).*1, acc.2 ++ (omap id found).*2).
Proof.
  revert acc. induction found as [|[kf|] found IH]; intros acc; simpl.
  - rewrite !app_nil_r. by destruct acc.
  - rewrite IH. simpl. by rewrite <- !app_assoc.
  - apply IH.
Qed.

Lemma bulk_message_fragments acc msg :
  bulk_message acc msg
  = secs ← message_entries msg;
    found ← pd.mapM bulk_fragment secs;
    Returned (foldl keep acc found).
Proof.
  unfold bulk_message, message_entries.
  rewrite !bind_assoc. apply bind_ext. intros securityData.
  apply bind_ext. intros secs.
  rewrite (for_each_ext _ _ _ _ (fun b x => bulk_security_fragment b x)).
  apply for_each_mapM.
Qed.

(** Extraction over the messages, then over the entries of each. *)
Lemma mapM_entries {B : Type} (F : Element -> Outcome B) response yss :
  pd.mapM (fun msg => secs ← message_entries msg; pd.mapM F secs) response
    = Returned yss ->
  exists ess,
    Forall2 (fun msg es => message_entries msg = Returned es) response ess
    /\ Forall2 (fun sec y => F sec = Returned y) (concat ess) (concat yss).
Proof.
  intros H. apply mapM_Returned_Forall2 in H.
  induction H as [|msg ys response yss Hmsg _ (ess & Hess & Hall)].
  - exists []. split; constructor.
  - destruct (message_entries msg) as [es| |] eqn:Hes; simpl in Hmsg;
      try done.
    apply mapM_Returned_Forall2 in Hmsg.
    exists (es :: ess). split; [by constructor|].
    simpl. by apply Forall2_app.
Qed.

Lemma bulk_fragments_found response keys data :
  bulk_fragments response = Returned (keys, data) ->
  exists ess (found : list (option (string * pd.DataFrame))),
    Forall2 (fun msg es => message_entries msg = Returned es) response ess
    /\ Forall2 (fun sec fr => bulk_fragment sec = Returned fr)
         (concat ess) found
    /\ keys = (omap id found).*1
    /\ data = (omap id found).*2.
Proof.
  unfold bulk_fragments.
  rewrite (for_each_ext _ _ _ _ (fun b x => bulk_message_fragments b x)).
  rewrite (for_each_ext _
    (fun b msg =>
       found ← (secs ← message_entries msg; pd.mapM bulk_fragment secs);
       Returned (foldl keep b found))).
  2:{ intros b msg. by rewrite bind_assoc. }
  rewrite for_each_nested.
  destruct (pd.mapM _ response) as [yss| |] eqn:Hm; simpl; try done.
  rewrite foldl_keep. simpl. intros [= <- <-].
  apply mapM_entries in Hm as (ess & Hess & Hall).
  by exists ess, (concat yss).
Qed.

(** *** Appending records *)

Lemma append_columns df s :
  pd.labels (pd.columns (pd.append df s))
  = pd.labels (pd.columns df)
    ++ filter (fun l => l ∉ pd.labels (pd.columns df))
         ((fun p => [VStr p.1]) <$> s).
Proof. reflexivity. Qed.

Lemma append_names df s :
  pd.names (pd.columns (pd.append df s)) = pd.names (pd.columns df).
Proof. reflexivity. Qed.

Lemma append_nrows df s :
  length (pd.values (pd.append df s)) = S (length (pd.values df))
  /\ pd.nrows (pd.append df s) = S (length (pd.values df)).
Proof.
  unfold pd.append, pd.nrows, pd.flat_index. simpl.
  rewrite upcast_length, length_app, !length_fmap, length_seq. simpl. lia.
Qed.

Lemma foldl_append_names records df :
  pd.names (pd.columns (foldl pd.append df records))
  = pd.names (pd.columns df).
Proof.
  revert df. induction records as [|s records IH]; intros df; simpl; [done|].
  by rewrite IH.
Qed.

Lemma foldl_append_prefix records df :
  exists more,
    pd.labels (pd.columns (foldl pd.append df records))
    = pd.labels (pd.columns df) ++ more.
Proof.
  revert df. induction records as [|s records IH]; intros df; simpl.
  - exists []. by rewrite app_nil_r.
  - destruct (IH (pd.append df s)) as [more ->].
    rewrite append_columns, <- app_assoc. eauto.
Qed.

(** The first column of a frame assembled from records is the first column
    any of them brought. *)
Lemma foldl_append_first records :
  head (pd.labels (pd.columns (foldl pd.append pd.DataFrame_new records)))
  = (fun k => [VStr k]) <$> head (record_keys records).
Proof.
  assert (forall df,
    pd.labels (pd.columns df) = [] ->
    head (pd.labels (pd.columns (foldl pd.append df records)))
    = (fun k => [VStr k]) <$> head (record_keys records)) as H;
    [|by apply H].
  induction records as [|s records IH]; intros df Hdf.
  - simpl. by rewrite Hdf.
  - cbn [foldl]. unfold record_keys in *. rewrite bind_cons.
    destruct s as [|[k v] s]; simpl.
    + apply IH. by rewrite append_columns, Hdf.
    + destruct (foldl_append_prefix records (pd.append df ((k, v) :: s)))
        as [more ->].
      rewrite append_columns, Hdf. rewrite fmap_cons, filter_cons.
      rewrite decide_True; [done|].
      apply not_elem_of_nil.
Qed.

Lemma foldl_append_nrows records df :
  records <> [] ->
  pd.nrows (foldl pd.append df records)
  = length (pd.values df) + length records
  /\ length (pd.values (foldl pd.append df records))
     = length (pd.values df) + length records.
Proof.
  revert df. induction records as [|s records IH]; intros df Hne; [done|].
  cbn [foldl]. destruct (append_nrows df s) as [Hv Hn].
  destruct records as [|s' records].
  - cbn [foldl length]. lia.
  - destruct (IH (pd.append df s)) as [H1 H2]; [done|].
    rewrite H1, H2, Hv. cbn [length]. lia.
Qed.

(** A frame assembled from records is empty exactly when no record brought
    a column. *)
Lemma foldl_append_empty records :
  pd.empty (foldl pd.append pd.DataFrame_new records)
  = match head (record_keys records) with None => true | Some _ => false end.
Proof.
  pose proof (foldl_append_first records) as Hhead.
  unfold pd.empty, pd.ncols.
  destruct (head (record_keys records)) as [k|] eqn:Hk; simpl in Hhead.
  - assert (records <> []) as Hne by (by intros ->).
    destruct (foldl_append_nrows records pd.DataFrame_new Hne) as [Hn _].
    rewrite Hn. simpl.
    destruct (pd.labels (pd.columns (foldl pd.append pd.DataFrame_new records)));
      [done|].
    apply orb_false_iff. split; apply Nat.eqb_neq; [|simpl; lia].
    destruct records; [done|simpl; lia].
  - destruct (pd.labels (pd.columns (foldl pd.append pd.DataFrame_new records)));
      [|done].
    simpl. apply orb_true_r.
Qed.

Lemma pos_head l (ls : list pd.Label) : head ls = Some l -> pd.pos l ls = Some 0.
Proof.
  destruct ls as [|x ls]; [done|]. intros [= ->].
  unfold pd.pos. simpl. by rewrite decide_True.
Qed.

(** The fragment [bulkRequest] keeps of a security entry. *)
Lemma bulk_fragment_spec sec found :
  bulk_fragment sec = Returned found -> fragment_of sec found.
Proof.
  unfold bulk_fragment, fragment_of. rewrite bulk_frame_records.
  destruct (entry_records sec) as [records| |]; simpl; try done.
  intros H. exists records. split; [done|]. simpl.
  rewrite foldl_append_empty in H.
  pose proof (foldl_append_first records) as Hhead.
  pose proof (foldl_append_names records pd.DataFrame_new) as Hnames.
  destruct (head (record_keys records)) as [k|]; simpl in *.
  - destruct (getElementAsString sec "security") as [key| |]; simpl in H;
      try done.
    unfold pd.column_label in H.
    rewrite <- head_lookup, Hhead in H. simpl in H.
    unfold pd.set_index in *.
    rewrite (pos_head _ _ Hhead) in *. simpl in H.
    injection H as <-.
    eexists _, _. split; [done|]. split; [done|]. split; [done|].
    simpl. rewrite Hnames. split; [done|].
    f_equal.
    by destruct (pd.labels
                   (pd.columns (foldl pd.append pd.DataFrame_new records))).
  - by injection H as <-.
Qed.

Lemma concat_axis0_keys_inv objs keys nms j :
  pd.concat_axis0_keys objs keys nms = Returned j ->
  pd.index j
  = pd.mkIndex nms
      (pd.keyed_labels keys ((fun df => pd.labels (pd.index df)) <$> objs))
  /\ pd.columns j
     = pd.mkIndex
         (pd.common_names ((fun df => pd.names (pd.columns df)) <$> objs))
         (pd.union_all ((fun df => pd.labels (pd.columns df)) <$> objs)).
Proof.
  unfold pd.concat_axis0_keys.
  destruct (pd.mapM _ objs); simpl; try done.
  by intros [= <-].
Qed.

(** Every fragment kept is indexed by a named column, its remaining
    columns unnamed as a group. *)
Lemma kept_fragments entries (found : list (option (string * pd.DataFrame))) :
  Forall2 fragment_of entries found ->
  Forall (fun kf : string * pd.DataFrame =>
            (exists k, pd.names (pd.index kf.2) = [Some k])
            /\ pd.names (pd.columns kf.2) = [None])
    (omap id found).
Proof.
  induction 1 as [|sec fr entries found Hfr _ IH]; [constructor|].
  destruct fr as [[key f]|]; simpl; [|done].
  constructor; [|done].
  destruct Hfr as (records & _ & Hfr). simpl in Hfr.
  destruct (head (record_keys records)) as [k|]; [|done].
  destruct Hfr as (key' & f' & _ & [= <- <-] & _ & Hi & Hc).
  simpl. rewrite Hi, Hc. split; [by exists k|done].
Qed.

Lemma bulk_combine_stacked securities keys data d0 rest :
  is_str securities = false -> data = d0 :: rest ->
  bulk_combine securities keys data
  = pd.concat_axis0_keys data keys
      [Some "Security"; mjoin (head (pd.names (pd.index d0)))].
Proof. intros Hs ->. unfold bulk_combine. by rewrite Hs. Qed.

Lemma bulk_combine_side_by_side securities keys data :
  is_str securities = true -> data <> [] ->
  bulk_combine securities keys data
  = df ← pd.concat_axis1 data; Returned (pd.set_columns_name "Field" df).
Proof.
  intros Hs Hne. unfold bulk_combine. rewrite Hs.
  by destruct data.
Qed.

(** *** The loops come to an end *)

Lemma series_set_keys s k v : NoDup s.*1 -> NoDup (pd.series_set s k v).*1.
Proof.
  intros H. unfold pd.series_set. case_decide as Hk.
  - assert (((fun p : string * Value =>
                if decide (p.1 = k) then (k, v) else p) <$> s).*1 = s.*1)
      as ->; [|done].
    clear. induction s as [|[k' v'] s IH]; [done|].
    rewrite !fmap_cons, IH. f_equal. simpl. by case_decide.
  - rewrite fmap_app. simpl. apply NoDup_app. repeat split; [done| |].
    + intros x Hx Hx'. apply list_elem_of_singleton in Hx' as ->. done.
    + apply NoDup_singleton.
Qed.

(** A bulk record has every name once. *)
Lemma bulk_record_keys v s : bulk_record v = Returned s -> NoDup s.*1.
Proof.
  unfold bulk_record. destruct (elements_of v) as [ds| |]; simpl; try done.
  apply (for_each_invariant (fun s : pd.Series => NoDup s.*1)).
  - intros b d b' _ Hb. destruct (getValue d); simpl; try done.
    intros [= <-]. by apply series_set_keys.
  - constructor.
Qed.

Lemma mapM_Returned_Forall {A B : Type} (f : A -> Outcome B) (P : B -> Prop)
    xs ys :
  (forall x y, f x = Returned y -> P y) ->
  pd.mapM f xs = Returned ys -> Forall P ys.
Proof.
  intros Hf H. apply mapM_Returned_Forall2 in H.
  induction H as [|x y xs ys Hxy _ IH]; constructor; [|done].
  by eapply Hf.
Qed.

Lemma entry_records_keys sec records :
  entry_records sec = Returned records ->
  Forall (fun s : pd.Series => NoDup s.*1) records.
Proof.
  unfold entry_records.
  destruct (getElement sec "fieldData") as [fd| |]; simpl; try done.
  destruct (elements_of fd) as [flds| |]; simpl; try done.
  destruct (pd.mapM field_records flds) as [rss| |] eqn:Hm; simpl; try done.
  intros [= <-]. apply Forall_concat.
  eapply mapM_Returned_Forall; [|exact Hm].
  intros fld rs. unfold field_records.
  destruct (values_of fld) as [vs| |]; simpl; try done.
  apply mapM_Returned_Forall. apply bulk_record_keys.
Qed.

Lemma append_NoDup df s :
  NoDup (pd.labels (pd.columns df)) -> NoDup s.*1 ->
  NoDup (pd.labels (pd.columns (pd.append df s))).
Proof.
  intros Hdf Hs. rewrite append_columns. apply NoDup_app.
  repeat split; [done| |].
  - intros x Hx Hx'. by apply list_elem_of_filter in Hx' as [Hx' _].
  - apply NoDup_filter.
    replace ((fun p : string * Value => [VStr p.1]) <$> s)
      with ((fun k => [VStr k]) <$> s.*1)
      by (by rewrite <- list_fmap_compose).
    apply NoDup_fmap_2; [|done]. by intros x y [= ->].
Qed.

Lemma foldl_append_NoDup records df :
  NoDup (pd.labels (pd.columns df)) ->
  Forall (fun s : pd.Series => NoDup s.*1) records ->
  NoDup (pd.labels (pd.columns (foldl pd.append df records))).
Proof.
  intros Hdf Hall. revert df Hdf.
  induction Hall as [|s records Hs _ IH]; intros df Hdf; simpl; [done|].
  apply IH. by apply append_NoDup.
Qed.

(** Reading a security entry ends well: the entry is passed over when its
    records bring no column, and kept otherwise. *)
Lemma bulk_fragment_returns sec :
  readable_entry sec -> exists found, bulk_fragment sec = Returned found.
Proof.
  intros (records & Hrec & Hkey). unfold bulk_fragment.
  rewrite bulk_frame_records, Hrec. simpl.
  rewrite foldl_append_empty.
  pose proof (foldl_append_first records) as Hhead.
  destruct (head (record_keys records)) as [k|] eqn:Hk; simpl; [|eauto].
  destruct Hkey as [key ->]; [by destruct (record_keys records)|]. simpl.
  unfold pd.column_label. rewrite <- head_lookup, Hhead. simpl.
  unfold pd.set_index. rewrite (pos_head _ _ Hhead). simpl. eauto.
Qed.

Lemma mapM_entries_returns {B : Type} (F : Element -> Outcome B) response
    ess :
  Forall2 (fun msg es => message_entries msg = Returned es) response ess ->
  Forall (fun sec => exists y, F sec = Returned y) (concat ess) ->
  exists yss,
    pd.mapM (fun msg => secs ← message_entries msg; pd.mapM F secs) response
    = Returned yss.
Proof.
  induction 1 as [|msg es response ess Hes _ IH]; simpl; [eauto|].
  intros Hall. apply Forall_app in Hall as [Hes' Hrest].
  rewrite Hes. simpl.
  destruct (mapM_returns F es Hes') as [ys ->]. simpl.
  destruct (IH Hrest) as [yss ->]. simpl. eauto.
Qed.

Lemma bulk_fragments_returns response ess :
  Forall2 (fun msg es => message_entries msg = Returned es) response ess ->
  Forall readable_entry (concat ess) ->
  exists keys data, bulk_fragments response = Returned (keys, data).
Proof.
  intros Hess Hall. unfold bulk_fragments.
  rewrite (for_each_ext _ _ _ _ (fun b x => bulk_message_fragments b x)).
  rewrite (for_each_ext _
    (fun b msg =>
       found ← (secs ← message_entries msg; pd.mapM bulk_fragment secs);
       Returned (foldl keep b found))).
  2:{ intros b msg. by rewrite bind_assoc. }
  rewrite for_each_nested.
  destruct (mapM_entries_returns bulk_fragment response ess Hess)
    as [yss ->].
  { eapply Forall_impl; [exact Hall|]. apply bulk_fragment_returns. }
  simpl. destruct (foldl keep ([], []) (concat yss)) as [keys data]. eauto.
Qed.

Lemma message_entries_fun response ess ess' :
  Forall2 (fun msg es => message_entries msg = Returned es) response ess ->
  Forall2 (fun msg es => message_entries msg = Returned es) response ess' ->
  ess' = ess.
Proof.
  intros H. revert ess'.
  induction H as [|msg es response ess Hes _ IH]; intros ess' H'.
  - by apply Forall2_nil_inv_l in H'.
  - apply Forall2_cons_inv_l in H' as (es' & ess'' & Hes' & H' & ->).
    f_equal; [congruence|by apply IH].
Qed.

(** The columns of a fragment kept are all different. *)
Lemma kept_columns_NoDup entries
    (found : list (option (string * pd.DataFrame))) :
  Forall2 fragment_of entries found ->
  Forall (fun kf : string * pd.DataFrame =>
            NoDup (pd.labels (pd.columns kf.2)))
    (omap id found).
Proof.
  induction 1 as [|sec fr entries found Hfr _ IH]; [constructor|].
  destruct fr as [[key f]|]; simpl; [|done].
  constructor; [|done].
  destruct Hfr as (records & Hrec & Hfr). simpl in Hfr.
  destruct (head (record_keys records)) as [k|]; [|done].
  destruct Hfr as (key' & f' & _ & [= <- <-] & _ & _ & Hc).
  simpl. rewrite Hc. simpl.
  pose proof (foldl_append_NoDup records pd.DataFrame_new
                (NoDup_nil_2 : NoDup (pd.labels (pd.columns pd.DataFrame_new)))
                (entry_records_keys _ _ Hrec)) as Hnd.
  destruct (pd.labels (pd.columns (foldl pd.append pd.DataFrame_new records)))
    as [|l ls]; [done|].
  by apply NoDup_cons in Hnd as [_ ?].
Qed.

Lemma concat_axis0_keys_returns objs keys nms :
  Forall (fun df => NoDup (pd.labels (pd.columns df))) objs ->
  exists j, pd.concat_axis0_keys objs keys nms = Returned j.
Proof.
  intros H. unfold pd.concat_axis0_keys.
  set (target := pd.union_all _).
  destruct (mapM_returns
    (fun df => pd.mapM (pd.align target (pd.labels (pd.columns df)) VNaN)
                 (pd.values df)) objs) as [blocks ->]; [|simpl; eauto].
  eapply Forall_impl; [exact H|]. intros df Hdf. simpl.
  apply mapM_returns. apply Forall_forall. intros row _.
  by apply align_returns.
Qed.

Lemma concat_axis1_returns objs :
  joinable objs -> exists j, pd.concat_axis1 objs = Returned j.
Proof.
  intros Hj. unfold pd.concat_axis1.
  set (target := pd.union_all _).
  assert (exists cells, pd.concat_cells1 target objs = Returned cells)
    as [cells ->]; [|simpl; eauto].
  destruct Hj as [Hone|Hnd]; [|by apply concat_cells1_returns].
  destruct objs as [|f [|]]; try done.
  unfold pd.concat_cells1, target. simpl. unfold pd.align.
  rewrite decide_True by done. simpl. eauto.
Qed.

(** C5, as the code has it.  On a response it can read, [bulkRequest]
    comes back with a table.  It makes one frame per security entry of the
    response, from the rows of all the bulk fields of that entry, one row
    per record; an entry whose rows bring no column is passed over; the
    frame is indexed by the column its first record brought first.  With
    no frame kept the result is [DataFrame()].  The frames kept are laid
    side by side, the columns named Field, when [securities] was a [str]
    (which pandas does for a single frame, and for several when none has
    a key twice); otherwise they are stacked under row labels (security,
    key), the levels named Security and after the key column of the first
    frame. *)
Theorem bulk_table_shape securities response ess :
  Forall2 (fun msg es => message_entries msg = Returned es) response ess ->
  Forall readable_entry (concat ess) ->
  exists found : list (option (string * pd.DataFrame)),
    Forall2 fragment_of (concat ess) found
    /\ bulk_fragments response
       = Returned ((omap id found).*1, (omap id found).*2)
    /\ match omap id found with
       | [] => bulk_table securities response = Returned pd.DataFrame_new
       | ((key0, f0) :: _) as kept =>
           if is_str securities then
             (joinable kept.*2 ->
              exists df, bulk_table securities response = Returned df)
             /\ (forall df,
                   bulk_table securities response = Returned df ->
                   pd.names (pd.columns df) = [Some "Field"]
                   /\ pd.labels (pd.columns df)
                      = kept ≫= (fun kf => pd.labels (pd.columns kf.2))
                   /\ pd.labels (pd.index df)
                      = pd.union_all
                          ((fun kf => pd.labels (pd.index kf.2)) <$> kept))
           else
             exists df k,
               bulk_table securities response = Returned df
               /\ pd.names (pd.index f0) = [Some k]
               /\ pd.index df
                  = pd.mkIndex [Some "Security"; Some k]
                      (kept ≫= (fun kf => (fun l => VStr kf.1 :: l)
                                          <$> pd.labels (pd.index kf.2)))
               /\ pd.labels (pd.columns df)
                  = pd.union_all
                      ((fun kf => pd.labels (pd.columns kf.2)) <$> kept)
       end.
Proof.
  intros Hess Hread.
  destruct (bulk_fragments_returns _ _ Hess Hread) as (keys & data & Hfr).
  destruct (bulk_fragments_found _ _ _ Hfr)
    as (ess' & found & Hess' & Hfound & -> & ->).
  rewrite (message_entries_fun _ _ _ Hess Hess') in Hfound.
  exists found.
  assert (Forall2 fragment_of (concat ess) found) as Hfrag.
  { eapply Forall2_impl; [exact Hfound|].
    intros sec fr. apply bulk_fragment_spec. }
  split; [done|]. split; [done|].
  pose proof (kept_fragments _ _ Hfrag) as Hkept.
  pose proof (kept_columns_NoDup _ _ Hfrag) as Hcols.
  unfold bulk_table. rewrite Hfr. simpl.
  destruct (omap id found) as [|[key0 f0] kept0] eqn:Hk; [done|].
  rewrite <- Hk in *.
  destruct (is_str securities) eqn:Hstr.
  - rewrite bulk_combine_side_by_side; [|done|by rewrite Hk].
    split.
    + intros Hj.
      destruct (concat_axis1_returns (omap id found).*2) as [j ->];
        [by rewrite Hk|].
      simpl. eauto.
    + intros df H.
      destruct (pd.concat_axis1 (omap id found).*2) as [j| |] eqn:Hj;
        simpl in H; try done.
      injection H as <-. apply concat_axis1_inv in Hj as [Hji Hjc].
      unfold pd.set_columns_name, pd.set_name.
      cbn [pd.index pd.columns pd.names pd.labels].
      rewrite Hji, Hjc. cbn [pd.names pd.labels].
      rewrite common_names_same with (n := [None]).
      * rewrite Hk. repeat split.
        -- by rewrite bind_fmap_list.
        -- by rewrite <- list_fmap_compose.
      * rewrite <- list_fmap_compose. apply Forall_fmap.
        eapply Forall_impl; [exact Hkept|]. by intros kf [_ ?].
      * rewrite Hk. done.
  - rewrite (bulk_combine_stacked _ _ _ f0 kept0.*2);
      [|done|by rewrite Hk].
    destruct (concat_axis0_keys_returns (omap id found).*2
                (omap id found).*1
                [Some "Security"; mjoin (head (pd.names (pd.index f0)))])
      as [j Hj].
    { apply Forall_fmap. eapply Forall_impl; [exact Hcols|]. done. }
    rewrite Hj. apply concat_axis0_keys_inv in Hj as [Hji Hjc].
    rewrite Hk in Hkept. apply Forall_cons in Hkept as [[[k Hk0] _] _].
    simpl in Hk0. exists j, k. split; [done|]. split; [done|].
    rewrite Hji, Hjc, Hk0. cbn [pd.names pd.labels head mjoin option_join].
    rewrite Hk. split.
    + f_equal.
      pose proof (keyed_labels_frames ((key0, f0) :: kept0)
                    (fun f => pd.labels (pd.index f))) as Hkl.
      rewrite <- list_fmap_compose. exact Hkl.
    + by rewrite <- list_fmap_compose.
Qed.

Lemma bulk_table_shape_witness :
  Forall2 (fun msg es => message_entries msg = Returned es)
    [two_fields] [[two_fields_entry]]
  /\ Forall readable_entry (concat [[two_fields_entry]])
  /\ exists found : list (option (string * pd.DataFrame)),
       Forall2 fragment_of (concat [[two_fields_entry]]) found
       /\ bulk_fragments [two_fields]
          = Returned ((omap id found).*1, (omap id found).*2)
       /\ match omap id found with
          | [] =>
              bulk_table (Str "CIG CN Equity") [two_fields]
              = Returned pd.DataFrame_new
          | ((key0, f0) :: _) as kept =>
              if is_str (Str "CIG CN Equity") then
                (joinable kept.*2 ->
                 exists df,
                   bulk_table (Str "CIG CN Equity") [two_fields]
                   = Returned df)
                /\ (forall df,
                      bulk_table (Str "CIG CN Equity") [two_fields]
                      = Returned df ->
                      pd.names (pd.columns df) = [Some "Field"]
                      /\ pd.labels (pd.columns df)
                         = kept ≫= (fun kf => pd.labels (pd.columns kf.2))
                      /\ pd.labels (pd.index df)
                         = pd.union_all
                             ((fun kf => pd.labels (pd.index kf.2))
                                <$> kept))
              else
                exists df k,
                  bulk_table (Str "CIG CN Equity") [two_fields] = Returned df
                  /\ pd.names (pd.index f0) = [Some k]
                  /\ pd.index df
                     = pd.mkIndex [Some "Security"; Some k]
                         (kept ≫= (fun kf => (fun l => VStr kf.1 :: l)
                                             <$> pd.labels (pd.index kf.2)))
                  /\ pd.labels (pd.columns df)
                     = pd.union_all
                         ((fun kf => pd.labels (pd.columns kf.2)) <$> kept)
          end.
Proof.
  assert (Forall2 (fun msg es => message_entries msg = Returned es)
            [two_fields] [[two_fields_entry]]) as H1
    by (constructor; [reflexivity|constructor]).
  assert (Forall readable_entry (concat [[two_fields_entry]])) as H2.
  { simpl. constructor; [|constructor].
    eexists. split; [vm_compute; reflexivity|].
    intros _. eexists. vm_compute. reflexivity. }
  split; [exact H1|]. split; [exact H2|].
  exact (bulk_table_shape (Str "CIG CN Equity") [two_fields]
           [[two_fields_entry]] H1 H2).
Defined.

(** A security entry whose bulk field holds no row is passed over: the
    answer for it alone is [DataFrame()]. *)
Example bulk_entry_without_rows :
  bulk_table (Seq ["CIG CN Equity"])
    [reference_msg
       [reference_entry "CIG CN Equity" [Array "fieldExceptions" []]
          [bulk_field_data "DVD_HIST_ALL" []]]]
  = Returned pd.DataFrame_new.
Proof. reflexivity. Qed.

(** C5 as stated fails on the count of fragments: a security with two bulk
    fields that both hold rows gives one frame, not one per field. *)
Lemma bulk_one_fragment_for_two_fields :
  security_field_pairs [two_fields] = 2
  /\ exists keys fragment,
       bulk_fragments [two_fields] = Returned (keys, [fragment])
       /\ pd.nrows fragment = 2
       /\ (bulkRequest (answering [mkEvent RESPONSE [two_fields]]) opened
             (Str "CIG CN Equity")
             (Seq ["EQY_DVD_ADJUST_FACT"; "DVD_HIST_ALL"]) ∅).1
          = Returned two_fields_table
       /\ pd.nrows two_fields_table = 2.
Proof.
  split; [reflexivity|].
  eexists _, _. split; [vm_compute; reflexivity|].
  split; [reflexivity|]. split; [vm_compute; reflexivity|reflexivity].
Qed.

(** * Further properties of the wrapper *)

(** ** The life of a connection *)

Lemma sendRequest_state net self requestType securities fields elements :
  let self' :=
    (sendRequest net self requestType securities fields elements).2 in
  self' = self
  \/ exists s q,
       session self = Some s /\ started s = true
       /\ is_Some (refDataService self)
       /\ self' = with_session self
                    (mkSession true
                       (sent s ++ [build_request requestType securities
                                     fields elements]) q).
Proof.
  simpl.
  destruct (sendRequest_inv net self requestType securities fields elements)
    as [[what ->] | (s & svc & Hsvc & Hs & Hst)]; [by left|].
  right. rewrite (sendRequest_open _ _ _ _ _ _ _ _ Hsvc Hs Hst). simpl.
  exists s. eexists. repeat split; try done; try by rewrite Hsvc.
Qed.

Lemma with_session_in_step self s sent' q :
  in_step self -> session self = Some s -> started s = true ->
  in_step (with_session self (mkSession true sent' q)).
Proof.
  intros [Hiff Hsvc] Hs Hst. split; simpl.
  - split; [intros _; by eexists|]. intros _. apply Hiff. by exists s.
  - done.
Qed.

Lemma open_returned_in_step net self self' :
  in_step self -> open net self = (Returned tt, self') -> in_step self'.
Proof.
  intros Hin0. unfold open.
  destruct (active self) eqn:Ha; simpl; [by intros [= <-]|].
  destruct (connects net (host self) (port self)); simpl; [|done].
  destruct (opens net "//BLP/refdata"); simpl; [|done].
  intros [= <-]. split; simpl; [|by eauto].
  split; [intros _; by eexists|done].
Qed.

Lemma sendRequest_in_step net self requestType securities fields elements :
  in_step self ->
  in_step (sendRequest net self requestType securities fields elements).2.
Proof.
  intros Hin.
  destruct (sendRequest_state net self requestType securities fields
              elements) as [-> | (s & q & Hs & Hst & _ & ->)]; [done|].
  by eapply with_session_in_step.
Qed.

Lemma close_inactive self :
  active self = false -> close self = (Returned tt, self).
Proof. intros H. unfold close. by rewrite H. Qed.

Lemma close_in_step self :
  in_step self ->
  exists self' s,
    close self = (Returned tt, self')
    /\ in_step self' /\ active self' = false
    /\ (is_Some (session self) -> session self' = Some s /\ started s = false)
    /\ close self' = (Returned tt, self').
Proof.
  intros Hin. destruct (active self) eqn:Ha.
  - destruct Hin as [Hiff Hsvc].
    destruct (proj1 Hiff Ha) as (s & Hs & Hst).
    exists (mkBLPInterface false (host self) (port self)
              (Some (mkSession false (sent s) (queue s)))
              (refDataService self)),
           (mkSession false (sent s) (queue s)).
    split; [unfold close; by rewrite Ha, Hs|].
    split.
    { split; simpl; [|done]. split; [done|]. by intros (s' & [= <-] & ?). }
    split; [done|]. split; [done|].
    by apply close_inactive.
  - destruct (session self) as [s|] eqn:Hs.
    + exists self, s. split; [by apply close_inactive|].
      split; [done|]. split; [done|]. split; [|by apply close_inactive].
      intros _. split; [done|].
      destruct (started s) eqn:Hst; [|done].
      destruct Hin as [Hiff _].
      assert (active self = true) by (apply Hiff; by exists s). congruence.
    + exists self, (mkSession false [] []).
      split; [by apply close_inactive|].
      split; [done|]. split; [done|]. split; [|by apply close_inactive].
      by intros [? ?].
Qed.

Lemma open_serviceable net self :
  serviceable self -> serviceable (open net self).2.
Proof.
  intros Hin0. unfold open.
  destruct (active self) eqn:Ha; simpl; [exact Hin0|].
  destruct (connects net (host self) (port self)); simpl.
  - destruct (opens net "//BLP/refdata"); simpl.
    + intros _. split; [by eexists|by eexists].
    + intros H. simpl in H. congruence.
  - intros H. simpl in H. congruence.
Qed.

Lemma sendRequest_serviceable net self requestType securities fields
    elements :
  serviceable self ->
  serviceable (sendRequest net self requestType securities fields
                 elements).2.
Proof.
  intros Hin.
  destruct (sendRequest_state net self requestType securities fields
              elements) as [-> | (s & q & Hs & Hst & Hsvc & ->)]; [done|].
  intros _. split; [by eexists|done].
Qed.

Lemma close_serviceable self :
  serviceable self ->
  (close self).1 = Returned tt /\ serviceable (close self).2
  /\ active (close self).2 = false.
Proof.
  intros Hin. unfold close. destruct (active self) eqn:Ha; simpl.
  - destruct (Hin Ha) as [(s & -> & _) _]. simpl.
    split; [done|]. split; [|done]. intros H. simpl in H. congruence.
  - split; [done|]. split; [exact Hin|done].
Qed.

(** An active object always holds a running session and its service
    handle: every method of the object keeps it so, from construction on.
    On such an object [close] never raises, and leaves it inactive. *)
Theorem active_object_is_serviceable net self :
  serviceable self ->
  serviceable (open net self).2
  /\ serviceable (close self).2
  /\ (close self).1 = Returned tt
  /\ active (close self).2 = false
  /\ (forall requestType securities fields elements,
        serviceable (sendRequest net self requestType securities fields
                       elements).2)
  /\ (forall securities fields startDate endDate kwargs,
        serviceable (historicalRequest net self securities fields startDate
                       endDate kwargs).2)
  /\ (forall securities fields kwargs,
        serviceable (referenceRequest net self securities fields kwargs).2
        /\ serviceable (bulkRequest net self securities fields kwargs).2)
  /\ (forall host port open_now,
        serviceable (init net host port open_now).2).
Proof.
  intros Hin.
  split; [by apply open_serviceable|].
  destruct (close_serviceable self Hin) as (Hc & Hin' & Ha).
  split; [done|]. split; [done|]. split; [done|]. split; [|split; [|split]].
  - intros. by apply sendRequest_serviceable.
  - intros. unfold historicalRequest.
    pose proof (sendRequest_serviceable net self "HistoricalData" securities
                  fields (update (defaults startDate endDate) kwargs) Hin)
      as H.
    by destruct (sendRequest _ _ _ _ _ _).
  - intros.
    pose proof (sendRequest_serviceable net self "ReferenceData" securities
                  fields kwargs Hin) as H.
    unfold referenceRequest, bulkRequest.
    by destruct (sendRequest _ _ _ _ _ _).
  - intros host0 port0 open_now. unfold init.
    assert (serviceable (mkBLPInterface false host0 port0 None None)) as H0
      by (intros H; simpl in H; congruence).
    destruct open_now; [by apply open_serviceable|done].
Qed.

Lemma active_object_is_serviceable_witness :
  serviceable opened
  /\ serviceable (close opened).2
  /\ (close opened).1 = Returned tt
  /\ active (close opened).2 = false.
Proof.
  assert (serviceable opened) as H.
  { intros _. split; [by eexists|by eexists]. }
  split; [exact H|].
  destruct (active_object_is_serviceable (answering []) opened H)
    as (_ & H2 & H3 & H4 & _).
  by repeat split.
Defined.



(** A request on an object that was never opened raises before anything is
    built or sent: [self.refDataService] does not exist.  The object is
    left as it was. *)
Theorem request_on_never_opened net host port securities fields startDate
    endDate kwargs :
  let self := never_opened host port in
  historicalRequest net self securities fields startDate endDate kwargs
    = (Raised (OtherError "AttributeError"), self)
  /\ referenceRequest net self securities fields kwargs
     = (Raised (OtherError "AttributeError"), self)
  /\ bulkRequest net self securities fields kwargs
     = (Raised (OtherError "AttributeError"), self)
  /\ init net host port false = (Returned tt, self).
Proof. by repeat split. Qed.

(** ** Request construction *)

(** The request names the securities and the fields in the order given,
    and a single [str] builds the same request as the list holding it: the
    shape of the arguments reaches the reshaping only, never the
    service. *)
Theorem promoted_request requestType securities fields elements :
  operation (build_request requestType securities fields elements)
    = requestType +:+ "Request"
  /\ req_securities (build_request requestType securities fields elements)
     = promote securities
  /\ req_fields (build_request requestType securities fields elements)
     = promote fields
  /\ (forall s f,
        build_request requestType (Str s) (Str f) elements
        = build_request requestType (Seq [s]) (Seq [f]) elements).
Proof.
  rewrite build_request_spec. by repeat split.
Qed.

(** [referenceRequest] and [bulkRequest] put the same request to the
    service and leave the object in the same state; they differ in the
    reshaping only, and raise or hang together when [sendRequest] does. *)
Theorem reference_and_bulk_send_alike net self securities fields kwargs :
  (referenceRequest net self securities fields kwargs).2
    = (bulkRequest net self securities fields kwargs).2
  /\ (forall e,
        (sendRequest net self "ReferenceData" securities fields kwargs).1
          = Raised e ->
        (referenceRequest net self securities fields kwargs).1 = Raised e
        /\ (bulkRequest net self securities fields kwargs).1 = Raised e)
  /\ ((sendRequest net self "ReferenceData" securities fields kwargs).1
        = Diverges ->
      (referenceRequest net self securities fields kwargs).1 = Diverges
      /\ (bulkRequest net self securities fields kwargs).1 = Diverges).
Proof.
  unfold referenceRequest, bulkRequest.
  destruct (sendRequest net self "ReferenceData" securities fields kwargs)
    as [r self']. simpl.
  repeat split; intros; subst; done.
Qed.

(** ** The outcomes of [sendRequest] *)

Lemma poll_diverges expected acc q :
  (poll expected acc q).1 = Diverges <->
  Forall (fun ev => eventType ev <> RESPONSE) q
  /\ Forall clean (all_messages q).
Proof.
  revert acc. induction q as [|ev q IH]; intros acc.
  - simpl. split; [by split|done].
  - cbn [poll]. rewrite all_messages_cons.
    destruct (scan expected acc (messages ev)) as [r| e |] eqn:Hscan.
    + apply scan_returned in Hscan as [Hclean _].
      case_decide as Hty.
      * simpl. split; [done|]. intros [Hall _].
        by apply Forall_cons in Hall as [? _].
      * rewrite IH. split.
        -- intros [H1 H2]. split; [by constructor|by apply Forall_app].
        -- intros [H1 H2]. apply Forall_cons in H1 as [_ H1].
           by apply Forall_app in H2 as [_ H2].
    + simpl. split; [done|]. intros [_ Hall].
      apply Forall_app in Hall as [Hall _].
      assert (exists r, scan expected acc (messages ev) = Returned r)
        as [r Hr] by (eexists; apply scan_returned; eauto).
      congruence.
    + destruct (scan_outcome expected acc (messages ev))
        as [[r Hr] | (v & d & Hr)]; congruence.
Qed.

(** [sendRequest] never comes back exactly when the interface is open and
    the session delivers neither a [RESPONSE] event nor a message that
    fails a check: there is no deadline. *)
Theorem sendRequest_hangs net self requestType securities fields elements :
  (sendRequest net self requestType securities fields elements).1 = Diverges
  <->
  exists s,
    is_Some (refDataService self) /\ session self = Some s
    /\ started s = true
    /\ let q := queue s ++ serve net
                  (build_request requestType securities fields elements) in
       Forall (fun ev => eventType ev <> RESPONSE) q
       /\ Forall clean (all_messages q).
Proof.
  split.
  - intros H.
    destruct (sendRequest_inv net self requestType securities fields elements)
      as [[what Hw] | (s & svc & Hsvc & Hs & Hst)].
    { rewrite Hw in H. done. }
    rewrite (sendRequest_open _ _ _ _ _ _ _ _ Hsvc Hs Hst) in H. simpl in H.
    apply poll_diverges in H. exists s. rewrite Hsvc. by eauto.
  - intros (s & [svc Hsvc] & Hs & Hst & Hq).
    rewrite (sendRequest_open _ _ _ _ _ _ _ _ Hsvc Hs Hst). simpl.
    by apply poll_diverges.
Qed.

(** [sendRequest] raises a [RequestError] exactly when, before a
    [RESPONSE] event has ended the polling, a message fails a check; the
    error is that of the first such message, whatever the type of the
    message.  The messages collected so far are dropped, and the events
    behind the failing one stay on the session. *)
Theorem request_error_is_first_failure net self requestType securities fields
    elements value description self' :
  sendRequest net self requestType securities fields elements
    = (Raised (RequestError value description), self')
  <->
  exists s svc pre ev rest before msg after,
    refDataService self = Some svc /\ session self = Some s
    /\ started s = true
    /\ queue s ++ serve net
         (build_request requestType securities fields elements)
       = pre ++ ev :: rest
    /\ Forall (fun ev => eventType ev <> RESPONSE) pre
    /\ Forall clean (all_messages pre)
    /\ messages ev = before ++ msg :: after
    /\ Forall clean before
    /\ check msg = Raised (RequestError value description)
    /\ self' = with_session self
                 (mkSession true
                    (sent s ++ [build_request requestType securities fields
                                  elements]) rest).
Proof.
  split.
  - intros H.
    destruct (sendRequest_inv net self requestType securities fields elements)
      as [[what Hw] | (s & svc & Hsvc & Hs & Hst)]; [congruence|].
    rewrite (sendRequest_open _ _ _ _ _ _ _ _ Hsvc Hs Hst) in H. simpl in H.
    destruct (poll _ _ _) as [r q'] eqn:Hpoll. simpl in H.
    injection H as -> <-.
    apply poll_raised in Hpoll
      as (pre & ev & before & msg & after & Hq & Hpre & Hall & Hev & Hb & Hc).
    exists s, svc, pre, ev, q', before, msg, after. by repeat split.
  - intros (s & svc & pre & ev & rest & before & msg & after & Hsvc & Hs & Hst
            & Hq & Hpre & Hall & Hev & Hb & Hc & ->).
    rewrite (sendRequest_open _ _ _ _ _ _ _ _ Hsvc Hs Hst). simpl.
    assert (poll (requestType +:+ "Response") []
              (queue s ++ serve net
                 (build_request requestType securities fields elements))
            = (Raised (RequestError value description), rest)) as ->; [|done].
    apply poll_raised. exists pre, ev, before, msg, after. by repeat split.
Qed.

Lemma failing_message_aborts net self requestType securities fields elements
    s svc pre ev rest before msg after e :
  refDataService self = Some svc -> session self = Some s ->
  started s = true ->
  queue s ++ serve net (build_request requestType securities fields elements)
    = pre ++ ev :: rest ->
  Forall (fun ev => eventType ev <> RESPONSE) pre ->
  Forall clean (all_messages pre) ->
  messages ev = before ++ msg :: after ->
  Forall clean before ->
  check msg = Raised e ->
  sendRequest net self requestType securities fields elements
  = (Raised e,
     with_session self
       (mkSession true
          (sent s ++ [build_request requestType securities fields elements])
          rest)).
Proof.
  intros Hsvc Hs Hst Hq Hpre Hall Hev Hb Hc.
  rewrite (sendRequest_open _ _ _ _ _ _ _ _ Hsvc Hs Hst). simpl.
  assert (poll (requestType +:+ "Response") []
            (queue s ++ serve net
               (build_request requestType securities fields elements))
          = (Raised e, rest)) as ->; [|done].
  apply poll_raised. exists pre, ev, before, msg, after. by repeat split.
Qed.

(** A message that carries a [responseError] fails the request with
    "Response Error" and that element, whatever else it carries and
    whatever its type. *)
Theorem response_error_aborts net self requestType securities fields elements
    s svc pre ev rest before msg after e :
  refDataService self = Some svc -> session self = Some s ->
  started s = true ->
  queue s ++ serve net (build_request requestType securities fields elements)
    = pre ++ ev :: rest ->
  Forall (fun ev => eventType ev <> RESPONSE) pre ->
  Forall clean (all_messages pre) ->
  messages ev = before ++ msg :: after ->
  Forall clean before ->
  getElement (asElement msg) "responseError" = Returned e ->
  (sendRequest net self requestType securities fields elements).1
  = Raised (RequestError e "Response Error").
Proof.
  intros Hsvc Hs Hst Hq Hpre Hall Hev Hb He.
  rewrite (failing_message_aborts _ _ _ _ _ _ _ _ _ _ _ _ _ _
             (RequestError e "Response Error")
             Hsvc Hs Hst Hq Hpre Hall Hev Hb); [done|].
  destruct (check_cases msg) as [e' Hre He' | sd fe Hre _ _ _
                                 | sd se Hre _ _ _ | Hre _].
  - congruence.
  - destruct (hasElement_false_getElement _ _ Hre) as [w Hw]. congruence.
  - destruct (hasElement_false_getElement _ _ Hre) as [w Hw]. congruence.
  - destruct (hasElement_false_getElement _ _ Hre) as [w Hw]. congruence.
Qed.

(** A message without [responseError] whose [securityData] record lists at
    least one field exception fails the request with "Field Error" and the
    list of exceptions, also when the same record holds a
    [securityError]. *)
Theorem field_error_aborts net self requestType securities fields elements
    s svc pre ev rest before msg after sd fe :
  refDataService self = Some svc -> session self = Some s ->
  started s = true ->
  queue s ++ serve net (build_request requestType securities fields elements)
    = pre ++ ev :: rest ->
  Forall (fun ev => eventType ev <> RESPONSE) pre ->
  Forall clean (all_messages pre) ->
  messages ev = before ++ msg :: after ->
  Forall clean before ->
  hasElement (asElement msg) "responseError" = false ->
  getElement (asElement msg) "securityData" = Returned sd ->
  getElement sd "fieldExceptions" = Returned fe ->
  0 < numValues fe ->
  (sendRequest net self requestType securities fields elements).1
  = Raised (RequestError fe "Field Error").
Proof.
  intros Hsvc Hs Hst Hq Hpre Hall Hev Hb Hre Hsd Hfe Hn.
  rewrite (failing_message_aborts _ _ _ _ _ _ _ _ _ _ _ _ _ _
             (RequestError fe "Field Error")
             Hsvc Hs Hst Hq Hpre Hall Hev Hb); [done|].
  destruct (check_cases msg) as [e' Hre' He' | sd' fe' _ Hsd' Hfe' _
                                 | sd' se _ Hsd' Hnone _ | _ Hall'].
  - congruence.
  - congruence.
  - assert (sd' = sd) by congruence. subst. specialize (Hnone _ Hfe). lia.
  - destruct (Hall' _ Hsd) as [Hnone _]. specialize (Hnone _ Hfe). lia.
Qed.

(** Every call that gets as far as the session puts exactly one request on
    it, whether the call then returns, raises a [RequestError] or hangs;
    a call that fails for want of an open session sends nothing and leaves
    the object as it was.  Nothing is sent twice. *)
Theorem one_request_per_call net self requestType securities fields elements :
  let out := sendRequest net self requestType securities fields elements in
  match out.1 with
  | Raised (OtherError _) => out.2 = self
  | _ =>
      exists s s',
        session self = Some s /\ session out.2 = Some s'
        /\ sent s' = sent s ++ [build_request requestType securities fields
                                  elements]
  end.
Proof.
  simpl.
  destruct (sendRequest_inv net self requestType securities fields elements)
    as [[what Hw] | (s & svc & Hsvc & Hs & Hst)].
  { by rewrite Hw. }
  pose proof (sendRequest_no_other_error net self s svc requestType
                securities fields elements) as Hno.
  rewrite (sendRequest_open _ _ _ _ _ _ _ _ Hsvc Hs Hst) in *. simpl in *.
  destruct (poll _ _ _) as [[r|[v d|what]|] q']; simpl in *.
  - by eexists _, _.
  - by eexists _, _.
  - by destruct (Hno what Hsvc Hs Hst).
  - by eexists _, _.
Qed.

Lemma response_error_aborts_witness :
  (sendRequest
     (answering [mkEvent SESSION_STATUS [session_started];
                 mkEvent PARTIAL_RESPONSE [in_order; request_failed]])
     opened "HistoricalData" (Str "BMO CN Equity") (Str "PX_LAST") ∅).1
  = Raised (RequestError
              (Sequence "responseError" [Scalar "category" (VStr "LIMIT")])
              "Response Error").
Proof.
  apply (response_error_aborts
    (answering [mkEvent SESSION_STATUS [session_started];
                mkEvent PARTIAL_RESPONSE [in_order; request_failed]])
    opened "HistoricalData" (Str "BMO CN Equity") (Str "PX_LAST") ∅
    (mkSession true [] []) "//BLP/refdata"
    [mkEvent SESSION_STATUS [session_started]]
    (mkEvent PARTIAL_RESPONSE [in_order; request_failed]) []
    [in_order] request_failed []); try reflexivity.
  - repeat constructor. discriminate.
  - repeat constructor.
  - repeat constructor.
Defined.

Lemma field_error_aborts_witness :
  (sendRequest (answering [mkEvent RESPONSE [doubly_wrong]]) opened
     "HistoricalData" (Str "XXX CN Equity") (Str "PX_LAS") ∅).1
  = Raised (RequestError (Array "fieldExceptions" [bad_field]) "Field Error").
Proof.
  apply (field_error_aborts
    (answering [mkEvent RESPONSE [doubly_wrong]]) opened
    "HistoricalData" (Str "XXX CN Equity") (Str "PX_LAS") ∅
    (mkSession true [] []) "//BLP/refdata"
    [] (mkEvent RESPONSE [doubly_wrong]) [] [] doubly_wrong []
    (Sequence "securityData"
       [Scalar "security" (VStr "XXX CN Equity");
        Array "fieldExceptions" [bad_field]; bad_security;
        Array "fieldData" []]));
    try reflexivity.
  - constructor.
  - constructor.
  - constructor.
  - simpl. lia.
Defined.

(** After a [RequestError] the events that were still to come stay on the
    session, and the next request reads them first: when they hold the
    final event of the failed request, the next call returns on that event,
    with the leftover messages of its own type, and its own answer is left
    on the session in turn. *)
Theorem leftover_events_answer_next_request net self requestType securities
    fields elements value description self' s' pre fin rest
    requestType2 securities2 fields2 elements2 :
  sendRequest net self requestType securities fields elements
    = (Raised (RequestError value description), self') ->
  session self' = Some s' ->
  queue s' = pre ++ fin :: rest ->
  Forall (fun ev => eventType ev <> RESPONSE) pre ->
  eventType fin = RESPONSE ->
  Forall clean (all_messages (pre ++ [fin])) ->
  let request2 := build_request requestType2 securities2 fields2 elements2 in
  sendRequest net self' requestType2 securities2 fields2 elements2
  = (Returned (filter (fun m => messageType m = requestType2 +:+ "Response")
                 (all_messages (pre ++ [fin]))),
     with_session self'
       (mkSession true (sent s' ++ [request2])
          (rest ++ serve net request2))).
Proof.
  intros Hsend Hs' Hq Hpre Hfin Hclean. simpl.
  destruct (sendRequest_inv net self requestType securities fields elements)
    as [[what Hw] | (s & svc & Hsvc & Hs & Hst)]; [congruence|].
  rewrite (sendRequest_open _ _ _ _ _ _ _ _ Hsvc Hs Hst) in Hsend.
  injection Hsend as _ <-. simpl in Hs'. injection Hs' as <-.
  simpl in Hq.
  destruct (poll (requestType +:+ "Response") []
              (queue s ++ serve net
                 (build_request requestType securities fields elements)))
    as [r q'] eqn:Hpoll.
  simpl in Hq. subst q'. simpl.
  set (s1 := mkSession true
               (sent s ++ [build_request requestType securities fields
                             elements]) (pre ++ fin :: rest)).
  rewrite (sendRequest_open net (with_session self s1) s1 svc requestType2
             securities2 fields2 elements2 Hsvc eq_refl eq_refl).
  cbn [queue sent s1].
  assert (poll (requestType2 +:+ "Response") []
            ((pre ++ fin :: rest)
             ++ serve net
                  (build_request requestType2 securities2 fields2 elements2))
          = (Returned (filter
               (fun m => messageType m = requestType2 +:+ "Response")
               (all_messages (pre ++ [fin]))),
             rest ++ serve net
               (build_request requestType2 securities2 fields2 elements2)))
    as ->; [|done].
  apply poll_returned. exists pre, fin.
  repeat split; try done. by rewrite <- app_assoc.
Qed.

Lemma leftover_events_answer_next_request_witness :
  (sendRequest
     (answering [mkEvent PARTIAL_RESPONSE [unknown_security];
                 mkEvent RESPONSE [in_order]])
     (sendRequest
        (answering [mkEvent PARTIAL_RESPONSE [unknown_security];
                    mkEvent RESPONSE [in_order]])
        opened "HistoricalData" (Seq ["XXX CN Equity"; "BMO CN Equity"])
        (Str "PX_LAST") ∅).2
     "HistoricalData" (Str "TD CN Equity") (Str "PX_LAST") ∅).1
  = Returned [in_order].
Proof.
  pose proof (leftover_events_answer_next_request
    (answering [mkEvent PARTIAL_RESPONSE [unknown_security];
                mkEvent RESPONSE [in_order]])
    opened "HistoricalData" (Seq ["XXX CN Equity"; "BMO CN Equity"])
    (Str "PX_LAST") ∅ bad_security "Security Error"
    (with_session opened
       (mkSession true
          [build_request "HistoricalData"
             (Seq ["XXX CN Equity"; "BMO CN Equity"]) (Str "PX_LAST") ∅]
          [mkEvent RESPONSE [in_order]]))
    (mkSession true
       [build_request "HistoricalData"
          (Seq ["XXX CN Equity"; "BMO CN Equity"]) (Str "PX_LAST") ∅]
       [mkEvent RESPONSE [in_order]])
    [] (mkEvent RESPONSE [in_order]) []
    "HistoricalData" (Str "TD CN Equity") (Str "PX_LAST") ∅
    eq_refl eq_refl eq_refl (Forall_nil_2 _) eq_refl) as H.
  assert (Forall clean (all_messages ([] ++ [mkEvent RESPONSE [in_order]])))
    as Hc by (repeat constructor).
  specialize (H Hc). simpl in H.
  exact (f_equal fst H).
Defined.

(** ** Scoped use *)

(** [with BLPInterface(...) as blp]: when [__enter__] has returned,
    [__exit__] returns too and leaves the object inactive with its session
    stopped, whatever request was made in between and however it ended;
    [__del__] afterwards changes nothing. *)
Theorem exit_after_enter net self self1 requestType securities fields
    elements :
  in_step self ->
  enter net self = (Returned tt, self1) ->
  let self2 :=
    (sendRequest net self1 requestType securities fields elements).2 in
  exists self3 s,
    exit self2 = (Returned tt, self3)
    /\ active self3 = false
    /\ session self3 = Some s /\ started s = false
    /\ del self3 = (Returned tt, self3).
Proof.
  unfold enter, exit, del. intros Hin Hopen. simpl.
  pose proof (open_returned_in_step net self self1 Hin Hopen) as Hin1.
  assert (active self1 = true) as Ha1.
  { unfold open in Hopen. destruct (active self) eqn:Ha; simpl in Hopen.
    - by injection Hopen as <-.
    - destruct (connects net (host self) (port self)
                && opens net "//BLP/refdata"); [|done].
      by injection Hopen as <-. }
  pose proof (sendRequest_in_step net self1 requestType securities fields
                elements Hin1) as Hin2.
  assert (is_Some (session
            (sendRequest net self1 requestType securities fields elements).2))
    as Hsome.
  { destruct (sendRequest_state net self1 requestType securities fields
                elements) as [-> | (s & q & _ & _ & _ & ->)].
    - destruct (proj1 (proj1 Hin1) Ha1) as (s & -> & _). by eexists.
    - by eexists. }
  destruct (close_in_step _ Hin2) as (self3 & s & Hc & _ & Ha3 & Hs3 & Hcc).
  destruct (Hs3 Hsome) as [Hs Hst].
  exists self3, s. by repeat split.
Qed.

Lemma exit_after_enter_witness :
  exists self3 s,
    exit (sendRequest (answering sector_reply) opened "ReferenceData"
            (Str "BBD/B CN Equity") (Str "GICS_SECTOR") ∅).2
      = (Returned tt, self3)
    /\ active self3 = false
    /\ session self3 = Some s /\ started s = false
    /\ del self3 = (Returned tt, self3).
Proof.
  assert (in_step (never_opened "localhost" 8194%Z)) as H.
  { split.
    - split; [discriminate|]. intros (s & Hs & _). discriminate.
    - discriminate. }
  exact (exit_after_enter (answering sector_reply)
           (never_opened "localhost" 8194%Z) opened "ReferenceData"
           (Str "BBD/B CN Equity") (Str "GICS_SECTOR") ∅ H eq_refl).
Defined.

(** ** Reading what was stored *)

Lemma get2_alter vals i j v i' j' row :
  vals !! i = Some row -> j < length row ->
  get2 (alter (fun row => <[j := v]> row) i vals) i' j'
  = if decide (i' = i /\ j' = j) then v else get2 vals i' j'.
Proof.
  intros Hrow Hj. unfold get2.
  destruct (decide (i' = i)) as [->|Hi].
  - rewrite list_lookup_alter_eq, Hrow. simpl.
    destruct (decide (j' = j)) as [->|Hj'].
    + rewrite decide_True by done. by rewrite list_lookup_insert_eq.
    + rewrite decide_False by (by intros [_ ?]).
      by rewrite list_lookup_insert_ne.
  - rewrite decide_False by (by intros [? _]).
    by rewrite list_lookup_alter_ne.
Qed.

Lemma get2_new_row vals n i j :
  get2 (vals ++ [replicate n VNaN]) i j = get2 vals i j.
Proof.
  unfold get2.
  destruct (decide (i < length vals)) as [Hi|Hi].
  - by rewrite lookup_app_l.
  - rewrite (lookup_ge_None_2 vals i) by lia. simpl.
    rewrite lookup_app_r by lia.
    destruct (i - length vals) as [|k]; simpl; [|done].
    destruct (replicate n VNaN !! j) as [x|] eqn:Hx; [|done].
    by apply lookup_replicate in Hx as [-> _].
Qed.

Lemma get2_new_column vals i j :
  get2 ((fun row => row ++ [VNaN]) <$> vals) i j = get2 vals i j.
Proof.
  unfold get2. rewrite list_lookup_fmap.
  destruct (vals !! i) as [row|] eqn:Hrow; simpl; [|done].
  destruct (decide (j < length row)) as [Hlt|Hge].
  - by rewrite lookup_app_l.
  - rewrite (lookup_ge_None_2 row j) by lia.
    rewrite lookup_app_r by lia.
    by destruct (j - length row) as [|k].
Qed.

Lemma pos_cons l x (ls : list pd.Label) :
  pd.pos l (x :: ls) = if decide (x = l) then Some 0 else S <$> pd.pos l ls.
Proof.
  unfold pd.pos. cbn [list_find]. case_decide; [done|].
  rewrite <- !option_fmap_compose. by destruct (list_find _ ls) as [[? ?]|].
Qed.

Lemma pos_lt l (ls : list pd.Label) i : pd.pos l ls = Some i -> i < length ls.
Proof. intros H. apply pos_Some in H. by eapply lookup_lt_Some. Qed.

Lemma pos_app l (ls more : list pd.Label) :
  pd.pos l (ls ++ more)
  = match pd.pos l ls with
    | Some i => Some i
    | None => (fun k => length ls + k) <$> pd.pos l more
    end.
Proof.
  induction ls as [|x ls IH]; simpl.
  - change (pd.pos l []) with (@None nat). simpl.
    by destruct (pd.pos l more).
  - rewrite !pos_cons. case_decide; [done|].
    rewrite IH. destruct (pd.pos l ls); simpl; [done|].
    by destruct (pd.pos l more).
Qed.

(** Where a label stands on an axis after a store. *)
Lemma pos_add_label l l0 (ls : list pd.Label) :
  pd.pos l (add_label ls l0)
  = if decide (l = l0) then Some (default (length ls) (pd.pos l0 ls))
    else pd.pos l ls.
Proof.
  unfold add_label. destruct (decide (l0 ∈ ls)) as [Hin|Hout].
  - case_decide as Heq; [|done]. subst.
    by destruct (pos_elem_of _ _ Hin) as [i ->].
  - apply pos_None in Hout as Hnone. rewrite pos_app, pos_cons.
    case_decide as Heq.
    + subst. rewrite Hnone. rewrite decide_True by done. simpl.
      f_equal. lia.
    + rewrite decide_False by done.
      destruct (pd.pos l ls); [done|]. unfold pd.pos. done.
Qed.

Lemma held_holds col v : holds_for v (pd.held col v).
Proof. unfold holds_for, pd.held. destruct (forallb _ col); auto. Qed.

Lemma as_float64_idem v : pd.as_float64 (pd.as_float64 v) = pd.as_float64 v.
Proof. by destruct v. Qed.

Lemma holds_for_refl v : holds_for v v.
Proof. by left. Qed.

Lemma holds_for_as_float64 v x :
  holds_for v x -> holds_for v (pd.as_float64 x).
Proof.
  intros [->| ->]; right; [done|]. apply as_float64_idem.
Qed.

(** The cells after [df.ix[r, c] = v], by position: the cell where the row
    of [r] meets the column of [c] holds [v], as its column holds it, and
    every other cell is as it was. *)
Lemma ix_set_values df r c v :
  well_formed df ->
  exists x,
    holds_for v x
    /\ forall i' j',
         get2 (pd.values (pd.ix_set df r c v)) i' j'
         = if decide
                (i' = default (pd.nrows df)
                        (pd.pos [r] (pd.labels (pd.index df)))
                 /\ j' = default (pd.ncols df)
                           (pd.pos [c] (pd.labels (pd.columns df))))
           then x else get2 (pd.values df) i' j'.
Proof.
  unfold well_formed, pd.nrows, pd.ncols. intros [Hrows Hcols].
  unfold pd.ix_set.
  destruct (pd.pos [r] (pd.labels (pd.index df))) as [i|] eqn:Hr;
    destruct (pd.pos [c] (pd.labels (pd.columns df))) as [j|] eqn:Hc;
    cbn [pd.values default];
    (eexists; split; [apply held_holds|]; intros i' j').
  - apply pos_lt in Hr, Hc.
    destruct (lookup_lt_is_Some_2 (pd.values df) i) as [row Hrow]; [lia|].
    assert (length row = length (pd.labels (pd.columns df))) as Hlen
      by (by eapply Forall_lookup_1 in Hcols).
    rewrite (get2_alter _ _ _ _ _ _ row) by (done || lia). done.
  - apply pos_lt in Hr.
    destruct (lookup_lt_is_Some_2 (pd.values df) i) as [row Hrow]; [lia|].
    assert (length row = length (pd.labels (pd.columns df))) as Hlen
      by (by eapply Forall_lookup_1 in Hcols).
    rewrite (get2_alter _ _ _ _ _ _ (row ++ [VNaN])).
    + by rewrite get2_new_column.
    + by rewrite list_lookup_fmap, Hrow.
    + rewrite length_app. simpl. lia.
  - apply pos_lt in Hc.
    rewrite (get2_alter _ _ _ _ _ _
               (replicate (length (pd.labels (pd.columns df))) VNaN)).
    + by rewrite get2_new_row.
    + rewrite lookup_app_r by lia.
      by replace (length (pd.labels (pd.index df)) - length (pd.values df))
        with 0 by lia.
    + by rewrite length_replicate.
  - rewrite (get2_alter _ _ _ _ _ _
               (replicate (length (pd.labels (pd.columns df))) VNaN
                ++ [VNaN])).
    + by rewrite get2_new_column, get2_new_row.
    + rewrite list_lookup_fmap, lookup_app_r by lia.
      by replace (length (pd.labels (pd.index df)) - length (pd.values df))
        with 0 by lia.
    + rewrite length_app, length_replicate. simpl. lia.
Qed.

Lemma get2_outside_rows vals i j : length vals <= i -> get2 vals i j = VNaN.
Proof. intros H. unfold get2. by rewrite lookup_ge_None_2. Qed.

Lemma get2_outside_columns vals n i j :
  Forall (fun row => length row = n) vals -> n <= j -> get2 vals i j = VNaN.
Proof.
  intros Hall Hj. unfold get2.
  destruct (vals !! i) as [row|] eqn:Hrow; simpl; [|done].
  eapply Forall_lookup_1 in Hall; [|exact Hrow]. simpl in Hall.
  by rewrite lookup_ge_None_2 by lia.
Qed.

Lemma pos_distinct (ls : list pd.Label) l l' i i' :
  pd.pos l ls = Some i -> pd.pos l' ls = Some i' -> l <> l' -> i <> i'.
Proof.
  intros H H' Hne ->. apply pos_Some in H, H'. congruence.
Qed.

(** Storing and reading back: after [df.ix[r, c] = v] the cell under
    [(r, c)] holds [v], as its column holds it, and every other cell reads
    as before. *)
Lemma cell_at_ix_set df r c v :
  well_formed df ->
  exists x,
    holds_for v x
    /\ forall r' c',
         cell_at (pd.ix_set df r c v) r' c'
         = if decide (r' = r /\ c' = c) then x else cell_at df r' c'.
Proof.
  intros Hwf. pose proof Hwf as [Hrows Hcols].
  destruct (ix_set_values df r c v Hwf) as (x & Hx & Hval).
  exists x. split; [done|]. intros r' c'.
  unfold pd.nrows, pd.ncols in *.
  unfold cell_at. rewrite ix_set_index, ix_set_columns, !pos_add_label.
  destruct (decide (r' = r)) as [->|Hr];
    destruct (decide (c' = c)) as [->|Hc].
  - rewrite (decide_True (P := [r] = [r])) by done.
    rewrite (decide_True (P := [c] = [c])) by done.
    rewrite (decide_True (P := r = r /\ c = c)) by done.
    rewrite Hval. by rewrite decide_True.
  - rewrite (decide_True (P := [r] = [r])) by done.
    rewrite (decide_False (P := [c'] = [c])) by (by intros [= ?]).
    rewrite (decide_False (P := r = r /\ c' = c)) by (by intros [_ ?]).
    destruct (pd.pos [c'] (pd.labels (pd.columns df))) as [j'|] eqn:Hj';
      [|by destruct (pd.pos [r] _)].
    rewrite Hval.
    rewrite decide_False.
    2:{ intros [_ Hj].
        destruct (pd.pos [c] (pd.labels (pd.columns df))) as [j|] eqn:Hjc;
          simpl in Hj.
        - apply (pos_distinct _ _ _ _ _ Hj' Hjc); [|done]. by intros [= ?].
        - apply pos_lt in Hj'. lia. }
    destruct (pd.pos [r] (pd.labels (pd.index df))); simpl; [done|].
    apply get2_outside_rows. lia.
  - rewrite (decide_False (P := [r'] = [r])) by (by intros [= ?]).
    rewrite (decide_True (P := [c] = [c])) by done.
    rewrite (decide_False (P := r' = r /\ c = c)) by (by intros [? _]).
    destruct (pd.pos [r'] (pd.labels (pd.index df))) as [i'|] eqn:Hi'; [|done].
    rewrite Hval.
    rewrite decide_False.
    2:{ intros [Hi _].
        destruct (pd.pos [r] (pd.labels (pd.index df))) as [i|] eqn:Hir;
          simpl in Hi.
        - apply (pos_distinct _ _ _ _ _ Hi' Hir); [|done]. by intros [= ?].
        - apply pos_lt in Hi'. lia. }
    destruct (pd.pos [c] (pd.labels (pd.columns df))); simpl; [done|].
    eapply get2_outside_columns; [exact Hcols|]. lia.
  - rewrite (decide_False (P := [r'] = [r])) by (by intros [= ?]).
    rewrite (decide_False (P := [c'] = [c])) by (by intros [= ?]).
    rewrite (decide_False (P := r' = r /\ c' = c)) by (by intros [? _]).
    destruct (pd.pos [r'] (pd.labels (pd.index df))) as [i'|] eqn:Hi'; [|done].
    destruct (pd.pos [c'] (pd.labels (pd.columns df))) as [j'|] eqn:Hj';
      [|done].
    rewrite Hval.
    rewrite decide_False; [done|].
    intros [Hi _].
    destruct (pd.pos [r] (pd.labels (pd.index df))) as [i|] eqn:Hir;
      simpl in Hi.
    + apply (pos_distinct _ _ _ _ _ Hi' Hir); [|done]. by intros [= ?].
    + apply pos_lt in Hi'. lia.
Qed.

Lemma cell_at_new r c : cell_at pd.DataFrame_new r c = VNaN.
Proof. reflexivity. Qed.

Lemma last_stored_snoc cells cell r c :
  last_stored (cells ++ [cell]) r c
  = if decide (cell.1.1 = r /\ cell.1.2 = c) then cell.2
    else last_stored cells r c.
Proof. unfold last_stored. by rewrite foldl_app. Qed.

(** What a run of stores into an empty frame leaves under a pair of
    labels. *)
Lemma foldl_store_cell_at cells r c :
  holds_for (last_stored cells r c)
    (cell_at (foldl store pd.DataFrame_new cells) r c).
Proof.
  induction cells as [|cell cells IH] using rev_ind; [by left|].
  rewrite foldl_app, last_stored_snoc. cbn [foldl]. unfold store at 1.
  assert (well_formed (foldl store pd.DataFrame_new cells)) as Hwf
    by apply foldl_store_plain, DataFrame_new_plain.
  destruct (cell_at_ix_set _ cell.1.1 cell.1.2 cell.2 Hwf)
    as (x & Hx & ->).
  destruct (decide (r = cell.1.1 /\ c = cell.1.2)) as [[-> ->]|Hne].
  - by rewrite decide_True.
  - rewrite decide_False; [done|]. intros [<- <-]. by apply Hne.
Qed.

(** The table of [referenceRequest] holds, under a security and a field,
    the value the response gives for the pair (the last one when the
    response gives several), an int possibly as the float64 nearest to it,
    and NaN under a pair the response does not mention. *)
Theorem reference_table_lookup response data :
  reference_table response = Returned data ->
  exists cells,
    reference_cells response = Returned cells
    /\ forall r c, holds_for (last_stored cells r c) (cell_at data r c).
Proof.
  rewrite reference_table_cells.
  destruct (reference_cells response) as [cells| |]; simpl; try done.
  intros [= <-]. exists cells. split; [done|]. intros r c.
  apply foldl_store_cell_at.
Qed.

Lemma reference_table_lookup_witness :
  exists cells,
    reference_cells (all_messages volume_reply) = Returned cells
    /\ forall r c,
         holds_for (last_stored cells r c)
           (cell_at
              (pd.mkDataFrame
                 (pd.mkIndex [None] [[VStr "BBD/B CN Equity"]])
                 (pd.mkIndex [None] [[VStr "VOLUME"]])
                 [[VFloat (inject_Z 7)]]) r c).
Proof.
  exact (reference_table_lookup (all_messages volume_reply)
           (pd.mkDataFrame
              (pd.mkIndex [None] [[VStr "BBD/B CN Equity"]])
              (pd.mkIndex [None] [[VStr "VOLUME"]])
              [[VFloat (inject_Z 7)]]) eq_refl).
Defined.

Lemma foldl_add_label_head acc ls l :
  head acc = Some l -> head (foldl add_label acc ls) = Some l.
Proof.
  revert acc. induction ls as [|x ls IH]; intros acc Hacc; simpl; [done|].
  apply IH. unfold add_label. case_decide; [done|].
  by destruct acc.
Qed.

(** The bare value [referenceRequest] returns for two [str] arguments is
    the value of the first security and field named in the response (an
    int possibly as the float64 nearest to it), whatever else the response
    holds. *)
Theorem bare_value_is_first_pair net self securities fields kwargs v self' :
  referenceRequest net self securities fields kwargs
    = (Returned (Bare v), self') ->
  exists response first rest,
    sendRequest net self "ReferenceData" securities fields kwargs
      = (Returned response, self')
    /\ reference_cells response = Returned (first :: rest)
    /\ holds_for (last_stored (first :: rest) first.1.1 first.1.2) v
    /\ is_str securities = true /\ is_str fields = true.
Proof.
  intros Hreq.
  destruct (referenceRequest_returned _ _ _ _ _ _ _ Hreq)
    as (response & data & Hsend & Htable).
  unfold referenceRequest in Hreq. rewrite Hsend in Hreq. simpl in Hreq.
  rewrite Htable in Hreq. simpl in Hreq. injection Hreq as Hres.
  pose proof (reference_table_plain _ _ Htable) as Hplain.
  rewrite reference_table_cells in Htable.
  destruct (reference_cells response) as [cells| |] eqn:Hcells;
    simpl in Htable; try done.
  injection Htable as Hdata.
  unfold reference_result in Hres.
  destruct (pd.empty data) eqn:Hempty; [done|].
  destruct (is_str securities && is_str fields) eqn:Hstr; [|done].
  apply andb_prop in Hstr as [Hs1 Hs2].
  destruct cells as [|first rest].
  { simpl in Hdata. subst data. done. }
  exists response, first, rest. repeat split; try done.
  assert (pd.iloc data 0 0 = Returned v) as Hv.
  { change (pd.iloc (pd.set_columns_name "Field"
                       (pd.set_index_name "Security" data)) 0 0)
      with (pd.iloc data 0 0) in Hres.
    destruct (pd.iloc data 0 0) as [x| |]; simpl in Hres; try done.
    by injection Hres as <-. }
  assert (get2 (pd.values data) 0 0 = v) as Hget.
  { unfold pd.iloc in Hv. unfold get2.
    destruct (pd.values data !! 0 ≫= _); [|done]. by injection Hv as ->. }
  assert (cell_at data first.1.1 first.1.2 = v) as <-;
    [|rewrite <- Hdata; apply foldl_store_cell_at].
  unfold cell_at.
  rewrite (pos_head [first.1.1]), (pos_head [first.1.2]); [done| |].
  - rewrite <- Hdata, foldl_store_columns. cbn [fmap list_fmap foldl].
    by apply foldl_add_label_head.
  - rewrite <- Hdata, foldl_store_index. cbn [fmap list_fmap foldl].
    by apply foldl_add_label_head.
Qed.

Lemma bare_value_is_first_pair_witness :
  exists response first rest,
    sendRequest (answering volume_reply) opened "ReferenceData"
      (Str "BBD/B CN Equity") (Str "VOLUME") ∅
      = (Returned response,
         with_session opened
           (mkSession true
              [build_request "ReferenceData" (Str "BBD/B CN Equity")
                 (Str "VOLUME") ∅] []))
    /\ reference_cells response = Returned (first :: rest)
    /\ holds_for (last_stored (first :: rest) first.1.1 first.1.2)
         (VFloat (inject_Z 7))
    /\ is_str (Str "BBD/B CN Equity") = true
    /\ is_str (Str "VOLUME") = true.
Proof.
  exact (bare_value_is_first_pair (answering volume_reply) opened
           (Str "BBD/B CN Equity") (Str "VOLUME") ∅
           (VFloat (inject_Z 7))
           (with_session opened
              (mkSession true
                 [build_request "ReferenceData" (Str "BBD/B CN Equity")
                    (Str "VOLUME") ∅] []))
           eq_refl).
Defined.

(** ** History tables *)










Lemma concat_no_rows n :
  pd.union_all ((fun df => pd.labels (pd.index df))
                  <$> replicate (S n) pd.DataFrame_new) = []
  /\ pd.concat_cells1 [] (replicate (S n) pd.DataFrame_new) = Returned [].
Proof.
  split.
  - cbn [replicate fmap list_fmap pd.union_all].
    induction n as [|n IH]; [done|]. simpl in *. exact IH.
  - unfold pd.concat_cells1.
    assert (pd.mapM (fun df => pd.align [] (pd.labels (pd.index df))
                       (replicate (pd.ncols df) VNaN) (pd.values df))
              (replicate (S n) pd.DataFrame_new)
            = Returned (replicate (S n) [])) as ->.
    { generalize (S n). intros m. induction m as [|m IH]; [done|].
      simpl in *. by rewrite IH. }
    done.
Qed.

(** A history response whose messages hold no row gives an empty table,
    not an error: no rows and no columns, the row axis named Date. *)
Theorem history_without_rows securities response :
  response <> [] ->
  Forall (fun msg => exists key,
            history_fragment msg = Returned (key, pd.DataFrame_new))
    response ->
  exists df,
    history_table securities response = Returned df
    /\ pd.empty df = true
    /\ pd.values df = []
    /\ pd.labels (pd.index df) = []
    /\ pd.labels (pd.columns df) = []
    /\ pd.names (pd.index df) = [Some "Date"].
Proof.
  intros Hne Hall.
  assert (exists frames : list (string * pd.DataFrame),
    pd.mapM history_fragment response = Returned frames
    /\ frames.*2 = replicate (length response) pd.DataFrame_new)
    as (frames & Hframes & Hnew).
  { clear Hne. induction Hall as [|msg response [key Hmsg] _ IH].
    - by exists [].
    - destruct IH as (frames & Hframes & Hnew).
      exists ((key, pd.DataFrame_new) :: frames). split.
      + cbn [pd.mapM]. rewrite Hmsg. simpl. by rewrite Hframes.
      + rewrite fmap_cons. cbn [length replicate snd]. by rewrite Hnew. }
  unfold history_table. rewrite history_steps, Hframes. simpl.
  rewrite Hnew.
  destruct response as [|msg response]; [done|]. cbn [length].
  destruct (concat_no_rows (length response)) as [Hu Hc].
  assert ((length (replicate (S (length response)) pd.DataFrame_new) =? 0)
          = false) as -> by (by rewrite length_replicate).
  assert ((replicate (S (length response)) pd.DataFrame_new
           ≫= (fun df => pd.labels (pd.columns df))) = []) as Hcols.
  { generalize (S (length response)). intros m.
    induction m as [|m IH]; [done|]. simpl. exact IH. }
  assert (forall (keys : list string) m,
    pd.keyed_labels keys ((fun df => pd.labels (pd.columns df))
                            <$> replicate m pd.DataFrame_new) = []) as Hk.
  { intros keys m. unfold pd.keyed_labels. revert keys.
    induction m as [|m IH]; intros keys.
    - by destruct keys.
    - destruct keys as [|k keys]; [done|]. simpl. apply IH. }
  assert (forall (f : pd.DataFrame -> list (option string)),
    f pd.DataFrame_new = [None] ->
    pd.common_names (f <$> replicate (S (length response)) pd.DataFrame_new)
    = [None]) as Hcn.
  { intros f Hf. apply common_names_same; [|done].
    apply Forall_fmap, Forall_replicate. exact Hf. }
  destruct (is_str securities).
  - unfold pd.concat_axis1. rewrite Hu, Hc, Hcols, !Hcn by done.
    eexists. split; [reflexivity|]. by repeat split.
  - unfold pd.concat_axis1_keys. rewrite Hu, Hc, Hk, !Hcn by done.
    eexists. split; [reflexivity|]. by repeat split.
Qed.

Lemma history_without_rows_witness :
  exists df,
    history_table (Str "BMO CN Equity") [no_rows] = Returned df
    /\ pd.empty df = true
    /\ pd.values df = []
    /\ pd.labels (pd.index df) = []
    /\ pd.labels (pd.columns df) = []
    /\ pd.names (pd.index df) = [Some "Date"].
Proof.
  apply (history_without_rows (Str "BMO CN Equity") [no_rows]).
  - discriminate.
  - constructor; [|constructor]. exists "BMO CN Equity". reflexivity.
Defined.

(** ** Dates *)

(** Serialization keeps the day and forgets the time of day: two
    datetimes go out as the same option value exactly when they fall on
    the same day. *)
Theorem serialize_same_day d d' :
  valid_datetime d = true -> valid_datetime d' = true ->
  (serialize (VDatetime d) = serialize (VDatetime d') <->
   (year d, month d, day d) = (year d', month d', day d')).
Proof.
  intros Hv Hv'. unfold serialize. split.
  - intros H.
    assert (strftime_Ymd d = strftime_Ymd d') as H' by congruence.
    by apply strftime_Ymd_inj.
  - intros H. injection H as Hy Hm Hd.
    unfold strftime_Ymd. by rewrite Hy, Hm, Hd.
Qed.

Lemma serialize_same_day_witness :
  serialize (VDatetime end_2014)
  = serialize (VDatetime (mkDatetime 2014 12 31 0 0 0 0)).
Proof.
  apply (serialize_same_day end_2014 (mkDatetime 2014 12 31 0 0 0 0));
    reflexivity.
Defined.






(** ** Bulk frames *)

Lemma series_get_not_in (s : pd.Series) k :
  k ∉ s.*1 -> pd.series_get s k = VNaN.
Proof.
  intros Hk. unfold pd.series_get.
  destruct (list_find (fun p => p.1 = k) s) as [[i p]|] eqn:Hf; [|done].
  apply list_find_Some in Hf as (Hp & Heq & _). exfalso. apply Hk.
  apply list_elem_of_fmap. exists p. split; [done|].
  by eapply list_elem_of_lookup_2.
Qed.

Lemma append_assembled df records s :
  assembled df records -> assembled (pd.append df s) (records ++ [s]).
Proof.
  intros (Hlen & Hrows & Hkeys & Hcells). unfold pd.ncols in Hrows.
  set (cols := pd.labels (pd.columns df)) in *.
  set (new := filter (fun l => l ∉ cols) ((fun p => [VStr p.1]) <$> s)).
  assert (pd.labels (pd.columns (pd.append df s)) = cols ++ new) as Hcols
    by reflexivity.
  assert (pd.values (pd.append df s)
          = pd.upcast
              (((fun row => row ++ replicate (length new) VNaN)
                  <$> pd.values df)
               ++ [(fun l => match l with
                             | [VStr k] => pd.series_get s k
                             | _ => VNaN
                             end) <$> (cols ++ new)])) as Hvals
    by reflexivity.
  assert (forall l, l ∉ cols -> l ∈ (fun p => [VStr p.1]) <$> s -> l ∈ new)
    as Hnew by (intros l ? ?; by apply list_elem_of_filter).
  unfold assembled, pd.ncols. rewrite Hcols, Hvals. clearbody new cols.
  split; [|split; [|split]].
  - rewrite upcast_length, !length_app, length_fmap. simpl. lia.
  - apply (upcast_rows (fun n => n = length (cols ++ new))).
    apply Forall_app. split.
    + apply Forall_fmap. eapply Forall_impl; [exact Hrows|].
      intros row Hrow. simpl in Hrow. unfold compose.
      rewrite !length_app, length_replicate. by rewrite Hrow.
    + constructor; [|done]. by rewrite length_fmap.
  - intros s0 k Hs0 Hk. apply elem_of_app in Hs0 as [Hs0|Hs0].
    + apply elem_of_app. left. by eapply Hkeys.
    + apply list_elem_of_singleton in Hs0 as ->.
      destruct (decide ([VStr k] ∈ cols)) as [Hin|Hout];
        apply elem_of_app; [by left|right].
      apply Hnew; [done|].
      apply list_elem_of_fmap in Hk as (p & -> & Hp).
      by apply (list_elem_of_fmap_2 (fun p => [VStr p.1])).
  - intros i s0 k j Hi Hj. rewrite get2_upcast.
    match goal with
    | |- holds_for _ (if _ then pd.as_float64 ?x else _) =>
        assert (holds_for (pd.series_get s0 k) x) as Hpre;
          [|destruct (pd.float_column _);
            [by apply holds_for_as_float64|done]]
    end.
    destruct (decide (i < length records)) as [Hlt|Hge].
    + rewrite lookup_app_l in Hi by done.
      unfold get2. rewrite lookup_app_l by (rewrite length_fmap; lia).
      rewrite list_lookup_fmap.
      destruct (lookup_lt_is_Some_2 (pd.values df) i) as [row Hrow]; [lia|].
      rewrite Hrow. simpl.
      assert (length row = length cols) as Hrl.
      { eapply Forall_lookup_1 in Hrows; [|exact Hrow]. exact Hrows. }
      rewrite pos_app in Hj.
      destruct (pd.pos [VStr k] cols) as [j0|] eqn:Hj0.
      * injection Hj as <-. apply pos_lt in Hj0 as Hlt0.
        rewrite lookup_app_l by lia.
        specialize (Hcells i s0 k j0 Hi Hj0). unfold get2 in Hcells.
        by rewrite Hrow in Hcells.
      * apply pos_None in Hj0.
        rewrite series_get_not_in.
        2:{ intros Hk. apply Hj0. eapply Hkeys; [|exact Hk].
            by eapply list_elem_of_lookup_2. }
        left.
        destruct (pd.pos [VStr k] new) as [j1|]; simpl in Hj; [|done].
        injection Hj as <-.
        rewrite lookup_app_r by lia.
        destruct (replicate (length new) VNaN !! _) as [x|] eqn:Hx; [|done].
        by apply lookup_replicate in Hx as [-> _].
    + assert (i = length records) as ->.
      { apply lookup_lt_Some in Hi. rewrite length_app in Hi. simpl in Hi.
        lia. }
      rewrite lookup_app_r in Hi by lia.
      replace (length records - length records) with 0 in Hi by lia.
      injection Hi as <-. left.
      unfold get2. rewrite lookup_app_r by (rewrite length_fmap; lia).
      rewrite length_fmap.
      replace (length records - length (pd.values df)) with 0 by lia.
      simpl. rewrite list_lookup_fmap.
      apply pos_Some in Hj.
      assert (forall o : option (list Value), o = Some [VStr k] ->
                default VNaN
                  ((fun l => match l with
                             | [VStr k] => pd.series_get s k
                             | _ => VNaN
                             end) <$> o) = pd.series_get s k) as Hlast
        by (by intros ? ->).
      apply Hlast. exact Hj.
Qed.

Lemma foldl_append_assembled records :
  assembled (foldl pd.append pd.DataFrame_new records) records.
Proof.
  induction records as [|s records IH] using rev_ind.
  - repeat split; try done.
    + intros s k Hs. by apply elem_of_nil in Hs.
  - rewrite foldl_app. simpl. by apply append_assembled.
Qed.

(** The frame [bulkRequest] assembles for a security entry has one row per
    bulk record of the entry, in order, numbered from 0, and holds in each
    row, under each column, the value the record has under that name (an
    int possibly as the float64 nearest to it), NaN when the record has no
    such element. *)
Theorem bulk_frame_rows sec frame :
  bulk_frame sec = Returned frame ->
  exists records,
    entry_records sec = Returned records
    /\ length (pd.values frame) = length records
    /\ (records <> [] ->
        pd.labels (pd.index frame)
        = (fun i => [VInt (Z.of_nat i)]) <$> seq 0 (length records))
    /\ (forall s k, s ∈ records -> k ∈ s.*1 ->
          [VStr k] ∈ pd.labels (pd.columns frame))
    /\ (forall i s k j,
          records !! i = Some s ->
          pd.pos [VStr k] (pd.labels (pd.columns frame)) = Some j ->
          holds_for (pd.series_get s k) (get2 (pd.values frame) i j)).
Proof.
  rewrite bulk_frame_records.
  destruct (entry_records sec) as [records| |]; simpl; try done.
  intros [= <-]. exists records. split; [done|].
  destruct (foldl_append_assembled records) as (Hlen & _ & Hkeys & Hcells).
  split; [done|]. split; [|by split].
  intros Hne. destruct records as [|s records _] using rev_ind; [done|].
  rewrite foldl_app. simpl. unfold pd.flat_index. simpl.
  destruct (foldl_append_assembled records) as (Hlen' & _).
  rewrite Hlen', length_app. simpl.
  rewrite <- list_fmap_compose.
  replace (length records + 1) with (S (length records)) by lia. done.
Qed.

Lemma bulk_frame_rows_witness :
  exists records,
    entry_records dividend_entry = Returned records
    /\ length (pd.values dividend_frame) = length records
    /\ (records <> [] ->
        pd.labels (pd.index dividend_frame)
        = (fun i => [VInt (Z.of_nat i)]) <$> seq 0 (length records))
    /\ (forall s k, s ∈ records -> k ∈ s.*1 ->
          [VStr k] ∈ pd.labels (pd.columns dividend_frame))
    /\ (forall i s k j,
          records !! i = Some s ->
          pd.pos [VStr k] (pd.labels (pd.columns dividend_frame)) = Some j ->
          holds_for (pd.series_get s k)
            (get2 (pd.values dividend_frame) i j)).
Proof.
  apply (bulk_frame_rows dividend_entry dividend_frame).
  vm_compute. reflexivity.
Defined.
